(** * GridCanvas: the incremental repaint and scroll-blit engine

    A shallow embedding of [src/grid/gridcanvas.ts] (class [GridCanvas]) and
    the properties of its scroll, resize and paint paths.

    Layout of the development:
    - [JS]: the fragment of JavaScript number semantics the class relies on
      ([Math.round], [Math.max], [Math.abs], [+], [-], the comparisons);
    - the collaborators the class only consumes ([DataModel], [GridHeader],
      [ICellRenderer], the 2D context) as records and an operation log;
    - [_drawBackground], [_drawGridLines], [_drawCells], [_paint];
    - the bitmaps behind the two canvas elements and [scrollTo], [onResize];
    - the theorems. *)

From Stdlib Require Import ZArith QArith Qround Lqa Lia List Bool.
From stdpp Require Import base gmap strings.
Import ListNotations.

(** ** JavaScript numbers *)

Module JS.

(** A JavaScript number. A finite double is modelled by the rational it
  denotes; the rounding of arithmetic results and the sign of zero are
  not modelled (every quantity the class computes from integral pixel
  sizes is exact below 2^53). *)
Inductive number : Type :=
| NaN
| NegInf
| PosInf
| Fin (q : Q).

Definition of_Z (z : Z) : number := Fin (inject_Z z).

Definition zero : number := of_Z 0.

(** [a + b]. *)
Definition add (a b : number) : number :=
match a, b with
| NaN, _ | _, NaN => NaN
| PosInf, NegInf | NegInf, PosInf => NaN
| PosInf, _ | _, PosInf => PosInf
| NegInf, _ | _, NegInf => NegInf
| Fin p, Fin q => Fin (p + q)
end.

(** [- a]. *)
Definition neg (a : number) : number :=
match a with
| NaN => NaN
| NegInf => PosInf
| PosInf => NegInf
| Fin p => Fin (- p)
end.

(** [a - b]. *)
Definition sub (a b : number) : number :=
match a, b with
| NaN, _ | _, NaN => NaN
| PosInf, PosInf | NegInf, NegInf => NaN
| PosInf, _ | _, NegInf => PosInf
| NegInf, _ | _, PosInf => NegInf
| Fin p, Fin q => Fin (p - q)
end.

Definition Qltb (p q : Q) : bool :=
match (p ?= q)%Q with Lt => true | _ => false end.

(** [a < b]; every comparison with [NaN] is false. *)
Definition lt (a b : number) : bool :=
match a, b with
| NaN, _ | _, NaN => false
| _, NegInf => false
| NegInf, _ => true
| PosInf, _ => false
| Fin _, PosInf => true
| Fin p, Fin q => Qltb p q
end.

(** [a > b]. *)
Definition gt (a b : number) : bool := lt b a.

(** [a === b] on numbers. *)
Definition strict_eq (a b : number) : bool :=
match a, b with
| NegInf, NegInf | PosInf, PosInf => true
| Fin p, Fin q => Qeq_bool p q
| _, _ => false
end.

(** [a >= b]. *)
Definition ge (a b : number) : bool := gt a b || strict_eq a b.

(** [a <= b]. *)
Definition le (a b : number) : bool := lt a b || strict_eq a b.

(** [Math.round]: the nearest integer, ties towards [+Infinity]. *)
Definition Math_round (a : number) : number :=
match a with
| Fin q => of_Z (Qfloor (q + (1 # 2)))
| _ => a
end.

(** [Math.max] of two arguments: [NaN] if either is. *)
Definition Math_max (a b : number) : number :=
match a, b with
| NaN, _ | _, NaN => NaN
| _, _ => if lt a b then b else a
end.

(** [Math.min] of two arguments. *)
Definition Math_min (a b : number) : number :=
match a, b with
| NaN, _ | _, NaN => NaN
| _, _ => if lt b a then b else a
end.

(** [Math.abs]. *)
Definition Math_abs (a : number) : number :=
match a with
| NaN => NaN
| NegInf | PosInf => PosInf
| Fin q => if Qltb q 0 then Fin (- q) else Fin q
end.

(** Two numbers denote the same value (the [SameValue] of the language on
  this model: [NaN] is the same value as [NaN]). *)
Definition same (a b : number) : Prop :=
match a, b with
| NaN, NaN | NegInf, NegInf | PosInf, PosInf => True
| Fin p, Fin q => (p == q)%Q
| _, _ => False
end.

End JS.

Import JS.

(** ** Collaborators

    [DataModel], [GridHeader] and the cell renderers are imported by the
    class and only consumed by it; each is the record of the members the
    class calls. Indices and counts are integers ([-1] from [sectionAt]
    means that no section covers the position); positions and sizes are
    numbers. *)

(** A value of type [any]. *)
Inductive any : Type :=
| null
| text (s : string)
| numeric (n : number).

Module DataModel.

(** [DataModel.ICellData], the scratch record [cellData] fills in. *)
Record ICellData : Type := {
  value : any;
  renderer : string;
  options : any
}.

(** The members of [DataModel] used by the canvas. [cellData row column
    data] returns the record the call leaves in [data]. *)
Record model : Type := {
  rowCount : Z;
  columnCount : Z;
  cellData : Z -> Z -> ICellData -> ICellData
}.

End DataModel.

Module GridHeader.

(** The members of [GridHeader] used by the canvas. *)
Record header : Type := {
  sectionAt : number -> Z;
  sectionPosition : Z -> number;
  sectionSize : Z -> number
}.

End GridHeader.

Module CellRenderer.

(** [ICellConfig], the draw instruction handed to a renderer. *)
Record ICellConfig : Type := {
  x : number;
  y : number;
  width : number;
  height : number;
  row : Z;
  column : Z;
  value : any;
  options : any
}.

(** A cell renderer is an object with a [paint] method; only its
    identity matters here. *)
Inductive ICellRenderer : Type :=
| renderer_object (id : nat).

(** [new SimpleCellRenderer()]. *)
Definition SimpleCellRenderer : ICellRenderer := renderer_object 0.

End CellRenderer.

(** The calls a paint makes on its collaborators, in program order: the
    2D context ([gc_]), the data model, the renderer map and a renderer. *)
Inductive op : Type :=
| gc_fillStyle (style : string)
| gc_fillRect (x y w h : number)
| gc_save
| gc_restore
| gc_beginPath
| gc_rect (x y w h : number)
| gc_clip
| gc_lineWidth (w : number)
| gc_lineCap (cap : string)
| gc_strokeStyle (style : string)
| gc_moveTo (x y : number)
| gc_lineTo (x y : number)
| gc_stroke
| model_cellData (row column : Z)
| cellRenderers_get (name : string)
| renderer_paint (r : CellRenderer.ICellRenderer)
                 (config : CellRenderer.ICellConfig).

Module Private.

(** [Private.IRegion]: the dirty region of a grid, aligned to whole
    cells. *)
Record IRegion : Type := {
  x : number;
  y : number;
  width : number;
  height : number;
  firstRow : Z;
  firstColumn : Z;
  rowSizes : list number;
  columnSizes : list number
}.

End Private.

(** ** The paint pipeline *)

(** [_drawBackground]. *)
Definition _drawBackground (rgn : Private.IRegion) : list op :=
  [ gc_fillStyle "white";
    gc_fillRect (Private.x rgn) (Private.y rgn)
                (Private.width rgn) (Private.height rgn) ].

(** The loop over the columns in [_drawGridLines]: [x] is the running
    coordinate before the column is added. *)
Fixpoint _drawGridLines_vertical (x y1 y2 : number) (colSizes : list number)
  : list op :=
  match colSizes with
  | [] => []
  | s :: rest =>
      let x := add x s in
      gc_moveTo x y1 :: gc_lineTo x y2
        :: _drawGridLines_vertical x y1 y2 rest
  end.

(** The loop over the rows in [_drawGridLines]. *)
Fixpoint _drawGridLines_horizontal (y x1 x2 : number) (rowSizes : list number)
  : list op :=
  match rowSizes with
  | [] => []
  | s :: rest =>
      let y := add y s in
      gc_moveTo x1 y :: gc_lineTo x2 y
        :: _drawGridLines_horizontal y x1 x2 rest
  end.

Definition half : number := Fin (1 # 2).

(** [_drawGridLines]. *)
Definition _drawGridLines (rgn : Private.IRegion) : list op :=
  [ gc_lineWidth (of_Z 1); gc_lineCap "butt"; gc_strokeStyle "gray";
    gc_beginPath ]
  ++ (let y1 := Private.y rgn in
      let y2 := add (Private.y rgn) (Private.height rgn) in
      _drawGridLines_vertical (sub (Private.x rgn) half) y1 y2
                              (Private.columnSizes rgn))
  ++ (let x1 := Private.x rgn in
      let x2 := add (Private.x rgn) (Private.width rgn) in
      _drawGridLines_horizontal (sub (Private.y rgn) half) x1 x2
                                (Private.rowSizes rgn))
  ++ [ gc_stroke ].

(** The pair [rendererName], [renderer] that [_drawCells] keeps across
    all the cells of a pass. *)
Record renderer_cache : Type := {
  rendererName : string;
  renderer : option CellRenderer.ICellRenderer
}.

(** The inner loop of [_drawCells], over the rows [j, j+1, ...] of one
    column, with the running coordinate [y]. Returns the cache the loop
    leaves and the calls it made. *)
Fixpoint _drawCells_rows
    (model : DataModel.model)
    (cellRenderers : gmap string CellRenderer.ICellRenderer)
    (firstRow column : Z) (x width : number)
    (rowSizes : list number) (j : Z) (y : number) (c : renderer_cache)
  : renderer_cache * list op :=
  match rowSizes with
  | [] => (c, [])
  | height :: rest =>
      if strict_eq height zero then
        _drawCells_rows model cellRenderers firstRow column x width
                        rest (j + 1) y c
      else
        let row := (j + firstRow)%Z in
        let data :=
          DataModel.cellData model row column
            {| DataModel.value := null;
               DataModel.renderer := "default";
               DataModel.options := null |} in
        let fetch :=
          negb (String.eqb (DataModel.renderer data) (rendererName c)) in
        let c' :=
          if fetch then
            {| rendererName := DataModel.renderer data;
               renderer := cellRenderers !! DataModel.renderer data |}
          else c in
        let loaded :=
          model_cellData row column
            :: (if fetch then [cellRenderers_get (DataModel.renderer data)]
                else []) in
        match renderer c' with
        | None =>
            let '(c'', t) :=
              _drawCells_rows model cellRenderers firstRow column x width
                              rest (j + 1) y c' in
            (c'', loaded ++ t)
        | Some r =>
            let config :=
              {| CellRenderer.x := x;
                 CellRenderer.y := y;
                 CellRenderer.width := width;
                 CellRenderer.height := height;
                 CellRenderer.row := row;
                 CellRenderer.column := column;
                 CellRenderer.value := DataModel.value data;
                 CellRenderer.options := DataModel.options data |} in
            let '(c'', t) :=
              _drawCells_rows model cellRenderers firstRow column x width
                              rest (j + 1) (add y height) c' in
            (c'', loaded ++ renderer_paint r config :: t)
        end
  end.

(** The outer loop of [_drawCells], over the columns [i, i+1, ...], with
    the running coordinate [x]. *)
Fixpoint _drawCells_columns
    (model : DataModel.model)
    (cellRenderers : gmap string CellRenderer.ICellRenderer)
    (firstRow firstCol : Z) (startY : number) (rowSizes : list number)
    (colSizes : list number) (i : Z) (x : number) (c : renderer_cache)
  : renderer_cache * list op :=
  match colSizes with
  | [] => (c, [])
  | width :: rest =>
      if strict_eq width zero then
        _drawCells_columns model cellRenderers firstRow firstCol startY
                           rowSizes rest (i + 1) x c
      else
        let column := (i + firstCol)%Z in
        let '(c', t) :=
          _drawCells_rows model cellRenderers firstRow column x width
                          rowSizes 0 startY c in
        let '(c'', t') :=
          _drawCells_columns model cellRenderers firstRow firstCol startY
                             rowSizes rest (i + 1) (add x width) c' in
        (c'', t ++ t')
  end.

(** [_drawCells]; the model is [this._model], which [_paint] has checked. *)
Definition _drawCells
    (model : DataModel.model)
    (cellRenderers : gmap string CellRenderer.ICellRenderer)
    (rgn : Private.IRegion) : list op :=
  snd (_drawCells_columns model cellRenderers
         (Private.firstRow rgn) (Private.firstColumn rgn)
         (Private.y rgn) (Private.rowSizes rgn) (Private.columnSizes rgn)
         0 (Private.x rgn)
         {| rendererName := EmptyString; renderer := None |}).

(** ** The canvas elements *)

(** A pixel of a bitmap: transparent, or a colour. *)
Inductive pixel : Type :=
| transparent
| opaque (rgb : N).

(** Source-over compositing of [src] on [dst]. *)
Definition over (src dst : pixel) : pixel :=
  match src with
  | transparent => dst
  | opaque _ => src
  end.

Module Canvas.

(** An [HTMLCanvasElement]: its [width] and [height] attributes and its
    bitmap, as the pixel shown at each point of the plane (the pixel
    with index [(i, j)] is the unit square at the point [(i, j)]).
    [pixels] is read at fractions in lowest terms, through [pixel_at]. *)
Record HTMLCanvasElement : Type := {
  width : Z;
  height : Z;
  pixels : Q -> Q -> pixel
}.

(** The pixel of [c] at the point [(px, py)]. *)
Definition pixel_at (c : HTMLCanvasElement) (px py : Q) : pixel :=
  pixels c (Qred px) (Qred py).

(** The value an [unsigned long] attribute that reflects a content
    attribute takes when a number is assigned to it: truncated, taken
    modulo [2^32], and replaced by the default outside [0 .. 2^31-1]. *)
Definition reflect_unsigned_long (default : Z) (n : number) : Z :=
  match n with
  | Fin q =>
      let t := (if Qltb q 0 then - Qfloor (- q) else Qfloor q)%Z in
      let u := (t mod 2 ^ 32)%Z in
      if (u <=? 2147483647)%Z then u else default
  | _ => 0%Z
  end.

(** [canvas.width = n]: the bitmap is replaced by a cleared one. *)
Definition set_width (n : number) (c : HTMLCanvasElement)
  : HTMLCanvasElement :=
  {| width := reflect_unsigned_long 300 n;
     height := height c;
     pixels := fun _ _ => transparent |}.

(** [canvas.height = n]. *)
Definition set_height (n : number) (c : HTMLCanvasElement)
  : HTMLCanvasElement :=
  {| width := width c;
     height := reflect_unsigned_long 150 n;
     pixels := fun _ _ => transparent |}.

(** The point [(px, py)] lies on the bitmap of [c]. *)
Definition inside (c : HTMLCanvasElement) (px py : Q) : bool :=
  Qle_bool 0 px && Qltb px (inject_Z (width c))
  && Qle_bool 0 py && Qltb py (inject_Z (height c)).

(** The point [(px, py)] lies in the rectangle with corner [(x, y)] and
    size [w] by [h], as [fillRect], [rect] and [drawImage] read their
    arguments: a negative size extends the rectangle backwards, and a
    rectangle with an argument that is not finite is empty. *)
Definition rect_has (x y w h : number) (px py : Q) : bool :=
  match x, y, w, h with
  | Fin _, Fin _, Fin _, Fin _ =>
      le (Math_min x (add x w)) (Fin px)
      && lt (Fin px) (Math_max x (add x w))
      && le (Math_min y (add y h)) (Fin py)
      && lt (Fin py) (Math_max y (add y h))
  | _, _, _, _ => false
  end.

(** [dst.getContext('2d').drawImage(src, sx, sy, sw, sh, dx, dy, sw, sh)]:
    the points of the destination rectangle that lie on [dst] and whose
    source point lies on [src] receive the source pixel, composited
    source-over. [None] is the [InvalidStateError] raised for a source
    without area. *)
Definition drawImage (dst src : HTMLCanvasElement)
    (sx sy sw sh dx dy : number) : option HTMLCanvasElement :=
  if (width src =? 0)%Z || (height src =? 0)%Z then None
  else
    match sx, sy, dx, dy with
    | Fin qsx, Fin qsy, Fin qdx, Fin qdy =>
        Some {| width := width dst;
                height := height dst;
                pixels := fun px py =>
                  let spx := (px - qdx + qsx)%Q in
                  let spy := (py - qdy + qsy)%Q in
                  if rect_has dx dy sw sh px py && inside dst px py
                     && inside src spx spy
                  then over (pixel_at src spx spy) (pixels dst px py)
                  else pixels dst px py |}
    | _, _, _, _ => Some dst
    end.

(** [dst.getContext('2d').drawImage(src, dx, dy)]. *)
Definition drawImage_at (dst src : HTMLCanvasElement) (dx dy : number)
  : option HTMLCanvasElement :=
  drawImage dst src zero zero (of_Z (width src)) (of_Z (height src)) dx dy.

(** The effect on the bitmap of drawing that is confined to the
    rectangle [(x, y, w, h)]: inside it the pixels are those of [shade],
    elsewhere they are kept. *)
Definition draw_within (x y w h : number) (shade : Q -> Q -> pixel)
    (c : HTMLCanvasElement) : HTMLCanvasElement :=
  {| width := width c;
     height := height c;
     pixels := fun px py =>
       if rect_has x y w h px py && inside c px py then shade px py
       else pixels c px py |}.

End Canvas.

(** ** The widget *)

(** The fields of a [GridCanvas], with what it reads of its [Widget] base
    class: [isVisible] and the measured size of its node. *)
Record GridCanvas : Type := {
  isVisible : bool;
  offsetWidth : number;
  offsetHeight : number;
  _scrollX : number;
  _scrollY : number;
  _model : option DataModel.model;
  _buffer : Canvas.HTMLCanvasElement;
  _canvas : Canvas.HTMLCanvasElement;
  _rowHeader : option GridHeader.header;
  _columnHeader : option GridHeader.header;
  _cellRenderers : gmap string CellRenderer.ICellRenderer
}.

(** The loops of [_paint] that fetch the sizes of the sections
    [first, first + 1, ..., first + n - 1]. *)
Definition section_sizes (h : GridHeader.header) (first n : Z)
  : list number :=
  map (fun i => GridHeader.sectionSize h (first + Z.of_nat i)%Z)
      (seq 0 (Z.to_nat n)).

(** The part of [_paint] that resolves the dirty rect to a region: from
    the row and column counts to the filled [rgn]. [None] stands for both
    early returns (empty model; no cell at the origin). *)
Definition _paint_region (this : GridCanvas) (model : DataModel.model)
    (rowHeader columnHeader : GridHeader.header) (rx ry rw rh : number)
  : option Private.IRegion :=
  let rowCount := DataModel.rowCount model in
  let colCount := DataModel.columnCount model in
  if (rowCount =? 0)%Z || (colCount =? 0)%Z then None
  else
    let i1 := GridHeader.sectionAt columnHeader (add rx (_scrollX this)) in
    let j1 := GridHeader.sectionAt rowHeader (add ry (_scrollY this)) in
    if (i1 <? 0)%Z || (j1 <? 0)%Z then None
    else
      let i2 :=
        GridHeader.sectionAt columnHeader (add (add rx rw) (_scrollX this)) in
      let j2 :=
        GridHeader.sectionAt rowHeader (add (add ry rh) (_scrollY this)) in
      let i2 := if (i2 <? 0)%Z then (colCount - 1)%Z else i2 in
      let j2 := if (j2 <? 0)%Z then (rowCount - 1)%Z else j2 in
      let x := sub (GridHeader.sectionPosition columnHeader i1)
                   (_scrollX this) in
      let y := sub (GridHeader.sectionPosition rowHeader j1)
                   (_scrollY this) in
      let columnSizes := section_sizes columnHeader i1 (i2 - i1 + 1) in
      let rowSizes := section_sizes rowHeader j1 (j2 - j1 + 1) in
      Some {| Private.x := x;
              Private.y := y;
              Private.width := fold_left add columnSizes zero;
              Private.height := fold_left add rowSizes zero;
              Private.firstRow := j1;
              Private.firstColumn := i1;
              Private.rowSizes := rowSizes;
              Private.columnSizes := columnSizes |}.

(** [_paint]: the calls it makes, in order. *)
Definition _paint (this : GridCanvas) (rx ry rw rh : number) : list op :=
  [ gc_fillStyle "#D4D4D4"; gc_fillRect rx ry rw rh ]
  ++ match _model this, _rowHeader this, _columnHeader this with
     | Some model, Some rowHeader, Some columnHeader =>
         match _paint_region this model rowHeader columnHeader
                             rx ry rw rh with
         | None => []
         | Some rgn =>
             [ gc_save; gc_beginPath; gc_rect rx ry rw rh; gc_clip ]
             ++ _drawBackground rgn
             ++ _drawGridLines rgn
             ++ _drawCells model (_cellRenderers this) rgn
             ++ [ gc_restore ]
         end
     | _, _, _ => []
     end.

(** [ResizeMessage]: the new size of the widget, [-1] when unknown. *)
Module ResizeMessage.
Record t : Type := { width : number; height : number }.
End ResizeMessage.

(** The calls of [scrollTo] and [onResize] that touch a bitmap, in
    program order. A [_paint] call carries the calls it made in turn. *)
Inductive call : Type :=
| canvas_drawImage_canvas (srcX srcY imgW imgH dstX dstY dstW dstH : number)
| buffer_drawImage_canvas (x y : number)
| canvas_drawImage_buffer (x y : number)
| paint_call (rx ry rw rh : number) (ops : list op).

Definition with_scroll (x y : number) (this : GridCanvas) : GridCanvas :=
  {| isVisible := isVisible this;
     offsetWidth := offsetWidth this;
     offsetHeight := offsetHeight this;
     _scrollX := x;
     _scrollY := y;
     _model := _model this;
     _buffer := _buffer this;
     _canvas := _canvas this;
     _rowHeader := _rowHeader this;
     _columnHeader := _columnHeader this;
     _cellRenderers := _cellRenderers this |}.

Definition with_canvas (c : Canvas.HTMLCanvasElement) (this : GridCanvas)
  : GridCanvas :=
  {| isVisible := isVisible this;
     offsetWidth := offsetWidth this;
     offsetHeight := offsetHeight this;
     _scrollX := _scrollX this;
     _scrollY := _scrollY this;
     _model := _model this;
     _buffer := _buffer this;
     _canvas := c;
     _rowHeader := _rowHeader this;
     _columnHeader := _columnHeader this;
     _cellRenderers := _cellRenderers this |}.

Definition with_buffer (b : Canvas.HTMLCanvasElement) (this : GridCanvas)
  : GridCanvas :=
  {| isVisible := isVisible this;
     offsetWidth := offsetWidth this;
     offsetHeight := offsetHeight this;
     _scrollX := _scrollX this;
     _scrollY := _scrollY this;
     _model := _model this;
     _buffer := b;
     _canvas := _canvas this;
     _rowHeader := _rowHeader this;
     _columnHeader := _columnHeader this;
     _cellRenderers := _cellRenderers this |}.

Definition with_cellRenderers
    (m : gmap string CellRenderer.ICellRenderer) (this : GridCanvas)
  : GridCanvas :=
  {| isVisible := isVisible this;
     offsetWidth := offsetWidth this;
     offsetHeight := offsetHeight this;
     _scrollX := _scrollX this;
     _scrollY := _scrollY this;
     _model := _model this;
     _buffer := _buffer this;
     _canvas := _canvas this;
     _rowHeader := _rowHeader this;
     _columnHeader := _columnHeader this;
     _cellRenderers := m |}.

(** [getCellRenderer]. *)
Definition getCellRenderer (this : GridCanvas) (name : string)
  : option CellRenderer.ICellRenderer :=
  _cellRenderers this !! name.

(** [setCellRenderer]; the update it schedules is delivered later, as an
    update request. *)
Definition setCellRenderer (this : GridCanvas) (name : string)
    (renderer : option CellRenderer.ICellRenderer) : GridCanvas :=
  match renderer with
  | Some r => with_cellRenderers (<[name := r]> (_cellRenderers this)) this
  | None => with_cellRenderers (delete name (_cellRenderers this)) this
  end.

Section Engine.

(** What the calls of one [_paint] leave at a point of its dirty rect.
    The first call fills the rect and the others are made under a clip
    to the same rect, so that nothing is drawn outside it. *)
Variable raster : list op -> Q -> Q -> pixel.

(** A call of [_paint], with its effect on the canvas bitmap. *)
Definition paint (this : GridCanvas) (rx ry rw rh : number)
  : GridCanvas * call :=
  let ops := _paint this rx ry rw rh in
  (with_canvas
     (Canvas.draw_within rx ry rw rh (raster ops) (_canvas this)) this,
   paint_call rx ry rw rh ops).

(** [if (cond) { this._paint(rx, ry, rw, rh); }]. *)
Definition paint_if (cond : bool) (this : GridCanvas)
    (rx ry rw rh : number) : GridCanvas * list call :=
  if cond then
    let '(this, c) := paint this rx ry rw rh in (this, [c])
  else (this, []).

(** [scrollTo]. [None] stands for an exception. The dirty margins
    [left], [right], [top] and [bottom] carry a trailing underscore. *)
Definition scrollTo (this : GridCanvas) (x y : number)
  : option (GridCanvas * list call) :=
  let x := Math_max zero (Math_round x) in
  let y := Math_max zero (Math_round y) in
  let dx := sub x (_scrollX this) in
  let dy := sub y (_scrollY this) in
  if strict_eq dx zero && strict_eq dy zero then Some (this, [])
  else
    let this := with_scroll x y this in
    if negb (isVisible this) then Some (this, [])
    else
      let width := of_Z (Canvas.width (_canvas this)) in
      let height := of_Z (Canvas.height (_canvas this)) in
      if strict_eq width zero || strict_eq height zero then Some (this, [])
      else if ge (Math_abs dx) width || ge (Math_abs dy) height then
        let '(this, c) := paint this zero zero width height in
        Some (this, [c])
      else
        let '(left_, right_, srcX, dstX, imgW) :=
          if lt dx zero then
            (neg dx, zero, zero, neg dx, sub width (neg dx))
          else if gt dx zero then
            (zero, dx, dx, zero, sub width dx)
          else (zero, zero, zero, zero, width) in
        let '(top_, bottom_, srcY, dstY, imgH) :=
          if lt dy zero then
            (neg dy, zero, zero, neg dy, sub height (neg dy))
          else if gt dy zero then
            (zero, dy, dy, zero, sub height dy)
          else (zero, zero, zero, zero, height) in
        match Canvas.drawImage (_canvas this) (_canvas this)
                               srcX srcY imgW imgH dstX dstY with
        | None => None
        | Some canvas =>
            let this := with_canvas canvas this in
            let '(this, p1) :=
              paint_if (gt left_ zero) this zero zero left_ height in
            let '(this, p2) :=
              paint_if (gt right_ zero) this
                       (sub width right_) zero right_ height in
            let '(this, p3) :=
              paint_if (gt top_ zero) this
                       left_ zero (sub (sub width left_) right_) top_ in
            let '(this, p4) :=
              paint_if (gt bottom_ zero) this
                       left_ (sub height bottom_)
                       (sub (sub width left_) right_) bottom_ in
            Some (this,
                  canvas_drawImage_canvas srcX srcY imgW imgH
                                          dstX dstY imgW imgH
                    :: p1 ++ p2 ++ p3 ++ p4)
        end.

(** [scrollBy]. *)
Definition scrollBy (this : GridCanvas) (dx dy : number)
  : option (GridCanvas * list call) :=
  scrollTo this (add (_scrollX this) dx) (add (_scrollY this) dy).

(** [onResize]. The CSS size written to [style] is not modelled. *)
Definition onResize (this : GridCanvas) (msg : ResizeMessage.t)
  : option (GridCanvas * list call) :=
  if negb (isVisible this) then Some (this, [])
  else
    let width := ResizeMessage.width msg in
    let height := ResizeMessage.height msg in
    let width :=
      if strict_eq width (of_Z (-1)) then offsetWidth this else width in
    let height :=
      if strict_eq height (of_Z (-1)) then offsetHeight this else height in
    let width := Math_round width in
    let height := Math_round height in
    let oldWidth := of_Z (Canvas.width (_canvas this)) in
    let oldHeight := of_Z (Canvas.height (_canvas this)) in
    let needBlit :=
      gt oldWidth zero && gt oldHeight zero
      && gt width zero && gt height zero in
    let buffer :=
      Canvas.set_height height (Canvas.set_width width (_buffer this)) in
    match (if needBlit then
             Canvas.drawImage_at buffer (_canvas this) zero zero
           else Some buffer) with
    | None => None
    | Some buffer =>
        let canvas :=
          Canvas.set_height height
            (Canvas.set_width width (_canvas this)) in
        match (if needBlit then Canvas.drawImage_at canvas buffer zero zero
               else Some canvas) with
        | None => None
        | Some canvas =>
            let this := with_canvas canvas (with_buffer buffer this) in
            let blits :=
              if needBlit then
                [ buffer_drawImage_canvas zero zero;
                  canvas_drawImage_buffer zero zero ]
              else [] in
            let right_ := Math_max zero (sub width oldWidth) in
            let bottom_ := Math_max zero (sub height oldHeight) in
            let '(this, p1) :=
              paint_if (gt right_ zero) this oldWidth zero right_ height in
            let '(this, p2) :=
              paint_if (gt bottom_ zero) this
                       zero oldHeight (sub width right_) bottom_ in
            Some (this, blits ++ p1 ++ p2)
        end
    end.

End Engine.

(** [new GridCanvas()]: the state the constructor leaves. A widget is
    hidden until it is attached and shown. *)
Definition new_GridCanvas : GridCanvas :=
  {| isVisible := false;
     offsetWidth := zero;
     offsetHeight := zero;
     _scrollX := zero;
     _scrollY := zero;
     _model := None;
     _buffer := {| Canvas.width := 0; Canvas.height := 0;
                   Canvas.pixels := fun _ _ => transparent |};
     _canvas := {| Canvas.width := 0; Canvas.height := 0;
                   Canvas.pixels := fun _ _ => transparent |};
     _rowHeader := None;
     _columnHeader := None;
     _cellRenderers :=
       {[ "default"%string := CellRenderer.SimpleCellRenderer ]} |}.

(** ** Reading a log *)

(** The segments [moveTo (x1, y1); lineTo (x2, y2)] of a list of calls. *)
Fixpoint segments (ops : list op)
  : list ((number * number) * (number * number)) :=
  match ops with
  | gc_moveTo x1 y1 :: ((gc_lineTo x2 y2 :: _) as rest) =>
      ((x1, y1), (x2, y2)) :: segments rest
  | _ :: rest => segments rest
  | [] => []
  end.

(** The configurations handed to renderers by a list of calls. *)
Fixpoint painted_cells (ops : list op) : list CellRenderer.ICellConfig :=
  match ops with
  | renderer_paint _ config :: rest => config :: painted_cells rest
  | _ :: rest => painted_cells rest
  | [] => []
  end.

(** The running coordinate after each section of [sizes], from [start]:
    the trailing boundaries of the sections. *)
Fixpoint boundaries (start : number) (sizes : list number) : list number :=
  match sizes with
  | [] => []
  | s :: rest => add start s :: boundaries (add start s) rest
  end.

(** The rectangles handed to [_paint] by a list of calls. *)
Fixpoint painted_rects (calls : list call)
  : list (number * number * number * number) :=
  match calls with
  | paint_call rx ry rw rh _ :: rest =>
      (rx, ry, rw, rh) :: painted_rects rest
  | _ :: rest => painted_rects rest
  | [] => []
  end.

(** The number of [drawImage] calls in a list of calls. *)
Fixpoint blit_count (calls : list call) : nat :=
  match calls with
  | paint_call _ _ _ _ _ :: rest => blit_count rest
  | _ :: rest => S (blit_count rest)
  | [] => 0
  end.

(** ** Fixtures: a grid of uniform sections *)

(** A header of [count] sections of [size] pixels each. *)
Definition uniform_header (size count : Z) : GridHeader.header :=
  {| GridHeader.sectionAt := fun p =>
       match p with
       | Fin q =>
           if Qle_bool 0 q && Qltb q (inject_Z (size * count))
           then Qfloor (q / inject_Z size)
           else (-1)%Z
       | _ => (-1)%Z
       end;
     GridHeader.sectionPosition := fun i => of_Z (i * size);
     GridHeader.sectionSize := fun i =>
       if ((0 <=? i) && (i <? count))%Z then of_Z size else zero |}.

(** A model of [rows] by [columns] cells that names the renderer of each
    cell with [name]. *)
Definition named_model (rows columns : Z) (name : Z -> Z -> string)
  : DataModel.model :=
  {| DataModel.rowCount := rows;
     DataModel.columnCount := columns;
     DataModel.cellData := fun row column data =>
       {| DataModel.value := numeric (of_Z (row * columns + column));
          DataModel.renderer := name row column;
          DataModel.options := DataModel.options data |} |}.

(** A visible canvas of [w] by [h] pixels over [model], with rows of 20
    pixels and columns of 50 pixels, as many as the model has. *)
Definition grid_canvas (w h : Z) (model : DataModel.model) : GridCanvas :=
  {| isVisible := true;
     offsetWidth := of_Z w;
     offsetHeight := of_Z h;
     _scrollX := zero;
     _scrollY := zero;
     _model := Some model;
     _buffer := {| Canvas.width := w; Canvas.height := h;
                   Canvas.pixels := fun _ _ => transparent |};
     _canvas := {| Canvas.width := w; Canvas.height := h;
                   Canvas.pixels := fun _ _ => opaque 13948116 |};
     _rowHeader := Some (uniform_header 20 (DataModel.rowCount model));
     _columnHeader := Some (uniform_header 50 (DataModel.columnCount model));
     _cellRenderers :=
       {[ "default"%string := CellRenderer.SimpleCellRenderer ]} |}.

(** Three rows and two columns, every cell with the default renderer. *)
Definition grid_3x2 : GridCanvas :=
  grid_canvas 100 60 (named_model 3 2 (fun _ _ => "default"%string)).

(** Two rows and one column; the cell of row 0 names a renderer that is
    not registered. *)
Definition grid_missing_renderer : GridCanvas :=
  grid_canvas 50 40
    (named_model 2 1
       (fun row _ => if (row =? 0)%Z then "missing" else "default")%string).

(** A segment is vertical. *)
Definition is_vertical (s : (number * number) * (number * number)) : bool :=
  strict_eq (fst (fst s)) (fst (snd s)).

(** The record [_drawCells] hands to [cellData]. *)
Definition reset_data : DataModel.ICellData :=
  {| DataModel.value := null;
     DataModel.renderer := "default";
     DataModel.options := null |}.

(** The renderer name the model gives the cell [(row, column)]. *)
Definition cell_name (model : DataModel.model) (row column : Z) : string :=
  DataModel.renderer (DataModel.cellData model row column reset_data).

(** A list of calls loads a cell whose renderer name is not empty. *)
Definition loads_named (model : DataModel.model) (ops : list op) : bool :=
  existsb (fun o =>
             match o with
             | model_cellData row column =>
                 negb (String.eqb (cell_name model row column) EmptyString)
             | _ => false
             end) ops.

(** The cache [_drawCells] starts from: the name [''] and no renderer. *)
Definition fresh_cache : renderer_cache :=
  {| rendererName := EmptyString; renderer := None |}.

(** Every cell with the empty renderer name that a list of calls paints
    comes after the load of a cell with another name ([seen]: such a load
    came before the list). *)
Fixpoint empty_name_guarded (model : DataModel.model) (seen : bool)
    (ops : list op) : bool :=
  match ops with
  | [] => true
  | model_cellData row column :: rest =>
      empty_name_guarded model
        (seen
         || negb (String.eqb (cell_name model row column) EmptyString))
        rest
  | renderer_paint _ config :: rest =>
      (seen
       || negb (String.eqb (cell_name model (CellRenderer.row config)
                                      (CellRenderer.column config))
                         EmptyString))
      && empty_name_guarded model seen rest
  | _ :: rest => empty_name_guarded model seen rest
  end.

(** A list of calls is empty or starts with the load of a cell. *)
Definition starts_with_load (ops : list op) : bool :=
  match ops with
  | [] => true
  | model_cellData _ _ :: _ => true
  | _ => false
  end.

(** A renderer map with the default renderer and one more renderer under
    the empty name. *)
Definition renderers_with_empty_name
  : gmap string CellRenderer.ICellRenderer :=
  <[ EmptyString := CellRenderer.renderer_object 1 ]>
    ({[ "default"%string := CellRenderer.SimpleCellRenderer ]}).

(** The region of [rows] rows of 20 and [columns] columns of 50 at the
    origin. *)
Definition region_at_origin (rows columns : nat) : Private.IRegion :=
  {| Private.x := zero;
     Private.y := zero;
     Private.width := of_Z (50 * Z.of_nat columns);
     Private.height := of_Z (20 * Z.of_nat rows);
     Private.firstRow := 0;
     Private.firstColumn := 0;
     Private.rowSizes := repeat (of_Z 20) rows;
     Private.columnSizes := repeat (of_Z 50) columns |}.

(** The index of the last column and of the last row of a region. *)
Definition last_column (rgn : Private.IRegion) : Z :=
  Private.firstColumn rgn + Z.of_nat (length (Private.columnSizes rgn)) - 1.

Definition last_row (rgn : Private.IRegion) : Z :=
  Private.firstRow rgn + Z.of_nat (length (Private.rowSizes rgn)) - 1.

(** Three rows and two columns on a canvas larger than the grid. *)
Definition grid_3x2_wide : GridCanvas :=
  grid_canvas 300 200 (named_model 3 2 (fun _ _ => "default"%string)).

(** A rectangle [(x, y, w, h)] covers the point [(px, py)]. *)
Definition covers (r : number * number * number * number) (px py : Q)
  : bool :=
  let '(x, y, w, h) := r in Canvas.rect_has x y w h px py.

(** The number of rectangles of a list that cover a point. *)
Definition cover_count (rects : list (number * number * number * number))
    (px py : Q) : nat :=
  length (filter (fun r => covers r px py) rects).

(** A raster for the examples: every painted point takes one colour. *)
Definition flat_raster : list op -> Q -> Q -> pixel :=
  fun _ _ _ => opaque 16777215.

(** Two rows and one column: the cell of row 0 keeps the default
    renderer and the cell of row 1 names the renderer with the empty
    name. *)
Definition default_then_empty_name : DataModel.model :=
  named_model 2 1
    (fun row _ => if (row =? 0)%Z then "default"%string else EmptyString).

(** Two rows and one column, every cell with the empty renderer name. *)
Definition all_empty_name : DataModel.model :=
  named_model 2 1 (fun _ _ => EmptyString).

(** ** The other handlers and accessors *)

Section Handlers.

(** The rasteriser of [Engine]. *)
Variable raster : list op -> Q -> Q -> pixel.

(** [onUpdateRequest]. *)
Definition onUpdateRequest (this : GridCanvas) : GridCanvas * list call :=
  if negb (isVisible this) then (this, [])
  else
    let width := of_Z (Canvas.width (_canvas this)) in
    let height := of_Z (Canvas.height (_canvas this)) in
    if strict_eq width zero || strict_eq height zero then (this, [])
    else
      let '(this, c) := paint raster this zero zero width height in
      (this, [c]).

(** [onFitRequest]. The update request it sends is delivered at once, to
    [onUpdateRequest]. The CSS size written to [style] is not modelled. *)
Definition onFitRequest (this : GridCanvas) : GridCanvas * list call :=
  if negb (isVisible this) then (this, [])
  else
    let width := Math_round (offsetWidth this) in
    let height := Math_round (offsetHeight this) in
    let buffer :=
      Canvas.set_height height (Canvas.set_width width (_buffer this)) in
    let canvas :=
      Canvas.set_height height (Canvas.set_width width (_canvas this)) in
    onUpdateRequest (with_canvas canvas (with_buffer buffer this)).

(** [set scrollX(value)]. *)
Definition set_scrollX (this : GridCanvas) (value : number)
  : option (GridCanvas * list call) :=
  scrollTo raster this value (_scrollY this).

(** [set scrollY(value)]. *)
Definition set_scrollY (this : GridCanvas) (value : number)
  : option (GridCanvas * list call) :=
  scrollTo raster this (_scrollX this) value.

End Handlers.



(** The cells a list of calls loads from the model, as (row, column). *)
Fixpoint loaded_cells (ops : list op) : list (Z * Z) :=
  match ops with
  | model_cellData row column :: rest => (row, column) :: loaded_cells rest
  | _ :: rest => loaded_cells rest
  | [] => []
  end.

(** The indices [i, i + 1, ...] of the sections of [sizes] whose size is
    not zero. *)
Fixpoint visible_from (i : Z) (sizes : list number) : list Z :=
  match sizes with
  | [] => []
  | s :: rest =>
      if strict_eq s zero then visible_from (i + 1) rest
      else i :: visible_from (i + 1) rest
  end.

(** A call that changes the clip or the stack of saved states. *)
Definition clip_op (o : op) : bool :=
  match o with
  | gc_save | gc_restore | gc_clip | gc_rect _ _ _ _ => true
  | _ => false
  end.

(** A scroll coordinate as [scrollTo] leaves it: an integer that is not
    negative, [+Infinity] or [NaN]. *)
Definition coerced (n : number) : Prop :=
  match n with
  | NaN | PosInf => True
  | NegInf => False
  | Fin q => exists z : Z, (0 <= z)%Z /\ (q == inject_Z z)%Q
  end.

(** The off-screen buffer has the size of the canvas. *)
Definition sized_together (this : GridCanvas) : Prop :=
  Canvas.width (_buffer this) = Canvas.width (_canvas this)
  /\ Canvas.height (_buffer this) = Canvas.height (_canvas this).

(** A canvas of [w] by [h] pixels whose node measures the same, scrolled
    to [(sx, sy)], without model or headers. *)
Definition bare_canvas (w h sx sy : Z) : GridCanvas :=
  {| isVisible := true;
     offsetWidth := of_Z w;
     offsetHeight := of_Z h;
     _scrollX := of_Z sx;
     _scrollY := of_Z sy;
     _model := None;
     _buffer := {| Canvas.width := w; Canvas.height := h;
                   Canvas.pixels := fun _ _ => transparent |};
     _canvas := {| Canvas.width := w; Canvas.height := h;
                   Canvas.pixels := fun _ _ => opaque 13948116 |};
     _rowHeader := None;
     _columnHeader := None;
     _cellRenderers :=
       {[ "default"%string := CellRenderer.SimpleCellRenderer ]} |}.

(** Every renderer call of a list of calls satisfies [P]. *)
Definition painted_by
    (P : CellRenderer.ICellRenderer -> CellRenderer.ICellConfig -> Prop)
    (ops : list op) : Prop :=
  forall r config, In (renderer_paint r config) ops -> P r config.

(** The cached renderer, when there is one, is the one registered under
    the cached name. *)
Definition cache_ok (cellRenderers : gmap string CellRenderer.ICellRenderer)
    (c : renderer_cache) : Prop :=
  renderer c = None \/ renderer c = cellRenderers !! rendererName c.

(** The cache is the one a pass starts from, or holds the result of a
    lookup. *)
Definition cache_fetched
    (cellRenderers : gmap string CellRenderer.ICellRenderer)
    (c : renderer_cache) : Prop :=
  c = fresh_cache \/ renderer c = cellRenderers !! rendererName c.

(** What holds of a cell that the loop over the rows [j, j + 1, ...] of
    the sizes [rest] paints, in the column [column] at [x]. *)
Definition painted_in_column (model : DataModel.model)
    (cellRenderers : gmap string CellRenderer.ICellRenderer)
    (firstRow column : Z) (x width : number)
    (rest : list number) (j : Z)
    (r : CellRenderer.ICellRenderer) (config : CellRenderer.ICellConfig)
  : Prop :=
  exists (k : nat) (height : number),
    rest !! k = Some height
    /\ strict_eq height zero = false
    /\ CellRenderer.row config = (j + Z.of_nat k + firstRow)%Z
    /\ CellRenderer.column config = column
    /\ CellRenderer.x config = x
    /\ CellRenderer.width config = width
    /\ CellRenderer.height config = height
    /\ cellRenderers !! cell_name model (CellRenderer.row config) column
       = Some r
    /\ CellRenderer.value config
       = DataModel.value
           (DataModel.cellData model (CellRenderer.row config) column
                               reset_data)
    /\ CellRenderer.options config
       = DataModel.options
           (DataModel.cellData model (CellRenderer.row config) column
                               reset_data).

(** What holds of a cell that the loop over the columns [i, i + 1, ...]
    of the sizes [rest] paints, starting at [x]. *)
Definition painted_in_columns (model : DataModel.model)
    (cellRenderers : gmap string CellRenderer.ICellRenderer)
    (firstRow firstCol : Z) (rowSizes rest : list number) (i : Z)
    (x : number)
    (r : CellRenderer.ICellRenderer) (config : CellRenderer.ICellConfig)
  : Prop :=
  exists (n : nat) (width : number),
    rest !! n = Some width
    /\ strict_eq width zero = false
    /\ same (CellRenderer.x config) (fold_left add (take n rest) x)
    /\ painted_in_column model cellRenderers firstRow
         (i + Z.of_nat n + firstCol) (CellRenderer.x config) width
         rowSizes 0 r config.

(** One row of 20 and three columns of 50, 0 and 50 at the point
    [(10, 5)], the first row and column being those of index 4 and 7. *)
Definition region_with_hidden_column : Private.IRegion :=
  {| Private.x := of_Z 10;
     Private.y := of_Z 5;
     Private.width := of_Z 100;
     Private.height := of_Z 20;
     Private.firstRow := 4;
     Private.firstColumn := 7;
     Private.rowSizes := [ of_Z 20 ];
     Private.columnSizes := [ of_Z 50; of_Z 0; of_Z 50 ] |}.

(** A model of 10 by 10 cells that keeps the default renderer. *)
Definition default_model : DataModel.model :=
  named_model 10 10 (fun _ _ => "default"%string).

(** The renderer map of a new canvas. *)
Definition default_renderers : gmap string CellRenderer.ICellRenderer :=
  {[ "default"%string := CellRenderer.SimpleCellRenderer ]}.

(** The cell of row 4 and column 9 as [_drawCells] hands it to the
    default renderer over [region_with_hidden_column]. *)
Definition config_4_9 : CellRenderer.ICellConfig :=
  {| CellRenderer.x := Fin (60 # 1);
     CellRenderer.y := of_Z 5;
     CellRenderer.width := of_Z 50;
     CellRenderer.height := of_Z 20;
     CellRenderer.row := 4;
     CellRenderer.column := 9;
     CellRenderer.value := numeric (of_Z 49);
     CellRenderer.options := null |}.

(** The row and the column of a configuration. *)
Definition cell_of (config : CellRenderer.ICellConfig) : Z * Z :=
  (CellRenderer.row config, CellRenderer.column config).

(** * Properties *)

(** ** The paint pipeline *)

Lemma paint_starts_with_fill (this : GridCanvas) (rx ry rw rh : number) :
  exists rest,
    _paint this rx ry rw rh
    = gc_fillStyle "#D4D4D4" :: gc_fillRect rx ry rw rh :: rest.
Proof. unfold _paint. eexists. reflexivity. Qed.

(** C7. Every [_paint] first fills the dirty rect with the void colour,
    whatever the state; when the data model, the row header or the
    column header is absent, or the model has no rows or no columns,
    the fill is all it does: no grid line and no cell follows, and the
    call returns. *)
Theorem paint_without_grid_only_fills
    (this : GridCanvas) (rx ry rw rh : number) :
  firstn 2 (_paint this rx ry rw rh)
  = [ gc_fillStyle "#D4D4D4"; gc_fillRect rx ry rw rh ]
  /\ (_model this = None \/ _rowHeader this = None
      \/ _columnHeader this = None
      \/ (exists model, _model this = Some model
            /\ (DataModel.rowCount model = 0%Z
                \/ DataModel.columnCount model = 0%Z)) ->
      _paint this rx ry rw rh
      = [ gc_fillStyle "#D4D4D4"; gc_fillRect rx ry rw rh ]).
Proof.
  split; [reflexivity|].
  unfold _paint, _paint_region.
  intros [H | [H | [H | (model & H & Hcount)]]]; rewrite H.
  - reflexivity.
  - destruct (_model this); reflexivity.
  - destruct (_model this), (_rowHeader this); reflexivity.
  - destruct (_rowHeader this) as [rowHeader|]; [|reflexivity].
    destruct (_columnHeader this) as [columnHeader|]; [|reflexivity].
    destruct Hcount as [-> | ->]; cbn [Z.eqb orb].
    + reflexivity.
    + rewrite orb_true_r. reflexivity.
Qed.

Lemma paint_without_grid_only_fills_witness :
  _paint (grid_canvas 100 60 (named_model 0 2 (fun _ _ => "default"%string)))
         zero zero (of_Z 100) (of_Z 60)
  = [ gc_fillStyle "#D4D4D4"; gc_fillRect zero zero (of_Z 100) (of_Z 60) ].
Proof.
  apply (paint_without_grid_only_fills
           (grid_canvas 100 60
              (named_model 0 2 (fun _ _ => "default"%string)))).
  right; right; right.
  exists (named_model 0 2 (fun _ _ => "default"%string)).
  split; [reflexivity | left; reflexivity].
Defined.

Lemma boundaries_length (start : number) (sizes : list number) :
  length (boundaries start sizes) = length sizes.
Proof.
  revert start; induction sizes as [|s sizes IH]; intros start; cbn.
  - reflexivity.
  - rewrite IH. reflexivity.
Qed.

Lemma boundaries_nth (sizes : list number) :
  forall (start : number) (i : nat),
    (i < length sizes)%nat ->
    nth i (boundaries start sizes) NaN
    = fold_left add (firstn (S i) sizes) start.
Proof.
  induction sizes as [|s sizes IH]; intros start i Hi; cbn in Hi.
  - lia.
  - destruct i as [|i]; cbn.
    + reflexivity.
    + apply (IH (add start s) i). lia.
Qed.

Lemma drawGridLines_vertical_boundaries (y1 y2 : number)
    (colSizes : list number) :
  forall x,
    _drawGridLines_vertical x y1 y2 colSizes
    = flat_map (fun b => [ gc_moveTo b y1; gc_lineTo b y2 ])
               (boundaries x colSizes).
Proof.
  induction colSizes as [|s colSizes IH]; intros x; cbn.
  - reflexivity.
  - rewrite IH. reflexivity.
Qed.

Lemma drawGridLines_horizontal_boundaries (x1 x2 : number)
    (rowSizes : list number) :
  forall y,
    _drawGridLines_horizontal y x1 x2 rowSizes
    = flat_map (fun b => [ gc_moveTo x1 b; gc_lineTo x2 b ])
               (boundaries y rowSizes).
Proof.
  induction rowSizes as [|s rowSizes IH]; intros y; cbn.
  - reflexivity.
  - rewrite IH. reflexivity.
Qed.

(** C5, as the code has it. The grid-line pass draws one vertical line
    per column of the region, at the trailing boundary of the column
    (the last column included, so at the far edge of the region too),
    and one horizontal line per row, at the trailing boundary of the
    row; each line is half a pixel before the boundary and spans the
    region box. On two columns of 50 and three rows of 20,
    [paint(0, 0, 100, 60)] draws the vertical lines [x = 49.5] and
    [x = 99.5] and the horizontal lines [y = 19.5], [39.5] and [59.5]. *)
Theorem drawGridLines_one_line_per_section :
  (forall rgn : Private.IRegion,
     let xs := boundaries (sub (Private.x rgn) half)
                          (Private.columnSizes rgn) in
     let ys := boundaries (sub (Private.y rgn) half)
                          (Private.rowSizes rgn) in
     let y2 := add (Private.y rgn) (Private.height rgn) in
     let x2 := add (Private.x rgn) (Private.width rgn) in
     _drawGridLines rgn
     = [ gc_lineWidth (of_Z 1); gc_lineCap "butt"; gc_strokeStyle "gray";
         gc_beginPath ]
       ++ flat_map (fun b => [ gc_moveTo b (Private.y rgn); gc_lineTo b y2 ])
                   xs
       ++ flat_map (fun b => [ gc_moveTo (Private.x rgn) b; gc_lineTo x2 b ])
                   ys
       ++ [ gc_stroke ]
     /\ length xs = length (Private.columnSizes rgn)
     /\ length ys = length (Private.rowSizes rgn)
     /\ (forall i, (i < length (Private.columnSizes rgn))%nat ->
           nth i xs NaN
           = fold_left add (firstn (S i) (Private.columnSizes rgn))
                       (sub (Private.x rgn) half))
     /\ (forall j, (j < length (Private.rowSizes rgn))%nat ->
           nth j ys NaN
           = fold_left add (firstn (S j) (Private.rowSizes rgn))
                       (sub (Private.y rgn) half)))
  /\ segments (_paint grid_3x2 zero zero (of_Z 100) (of_Z 60))
     = [ ((Fin (99 # 2), of_Z 0), (Fin (99 # 2), of_Z 60));
         ((Fin (199 # 2), of_Z 0), (Fin (199 # 2), of_Z 60));
         ((of_Z 0, Fin (39 # 2)), (of_Z 100, Fin (39 # 2)));
         ((of_Z 0, Fin (79 # 2)), (of_Z 100, Fin (79 # 2)));
         ((of_Z 0, Fin (119 # 2)), (of_Z 100, Fin (119 # 2))) ].
Proof.
  split.
  - intros rgn xs ys y2 x2. unfold _drawGridLines.
    rewrite drawGridLines_vertical_boundaries,
            drawGridLines_horizontal_boundaries.
    split; [reflexivity|].
    split; [apply boundaries_length|].
    split; [apply boundaries_length|].
    split; intros k Hk; apply boundaries_nth; exact Hk.
  - vm_compute. reflexivity.
Qed.

Lemma drawGridLines_one_line_per_section_witness :
  nth 1 (boundaries (sub zero half) (repeat (of_Z 50) 2)) NaN
  = fold_left add (firstn 2 (repeat (of_Z 50) 2)) (sub zero half).
Proof.
  destruct (proj1 drawGridLines_one_line_per_section (region_at_origin 3 2))
    as (_ & _ & _ & Hx & _).
  apply (Hx 1%nat). cbn. lia.
Defined.

(** C5 refuted as stated: on two columns of 50 and three rows of 20,
    [paint(0, 0, 100, 60)] draws two vertical and three horizontal
    lines, not one and two. *)
Lemma drawGridLines_3x2_not_interior_only :
  let segs := segments (_paint grid_3x2 zero zero (of_Z 100) (of_Z 60)) in
  ~ (length (filter is_vertical segs) = 1%nat
     /\ length (filter (fun s => negb (is_vertical s)) segs) = 2%nat).
Proof. vm_compute. intros [H _]. discriminate H. Qed.

(** C4 at a failing input: two rows of 20 in one column, the cell of
    row 0 without a registered renderer. The cell of row 1 is the only
    one painted, and it is painted at [y = 0], the place of row 0,
    not at [y = 20]. *)
Theorem drawCells_missing_renderer_misplaces_next_row :
  painted_cells (_paint grid_missing_renderer zero zero (of_Z 50) (of_Z 40))
  = [ {| CellRenderer.x := of_Z 0;
         CellRenderer.y := of_Z 0;
         CellRenderer.width := of_Z 50;
         CellRenderer.height := of_Z 20;
         CellRenderer.row := 1;
         CellRenderer.column := 0;
         CellRenderer.value := numeric (of_Z 1);
         CellRenderer.options := null |} ]
  /\ add (of_Z 0) (of_Z 20) <> of_Z 0.
Proof. split; [vm_compute; reflexivity | discriminate]. Qed.

(** *** The renderer cache of [_drawCells] *)

Lemma loads_named_app (model : DataModel.model) (t1 t2 : list op) :
  loads_named model (t1 ++ t2)
  = loads_named model t1 || loads_named model t2.
Proof. unfold loads_named. apply existsb_app. Qed.

Lemma empty_name_guarded_app (model : DataModel.model) (t1 t2 : list op) :
  forall seen,
    empty_name_guarded model seen (t1 ++ t2)
    = empty_name_guarded model seen t1
      && empty_name_guarded model (seen || loads_named model t1) t2.
Proof.
  induction t1 as [|o t1 IH]; intros seen; cbn.
  - rewrite orb_false_r. reflexivity.
  - destruct o; cbn; rewrite ?IH, ?orb_false_r, ?orb_assoc, ?andb_assoc;
      reflexivity.
Qed.

Lemma empty_name_guarded_seen (model : DataModel.model) (t : list op) :
  empty_name_guarded model true t = true.
Proof.
  induction t as [|o t IH]; cbn; [reflexivity|].
  destruct o; cbn; exact IH.
Qed.

Lemma empty_name_guarded_split (model : DataModel.model) :
  forall (t1 t2 : list op) seen r config,
    empty_name_guarded model seen (t1 ++ renderer_paint r config :: t2)
    = true ->
    cell_name model (CellRenderer.row config) (CellRenderer.column config)
    = EmptyString ->
    seen = true \/ loads_named model t1 = true.
Proof.
  intros t1 t2 seen r config H Hname.
  rewrite empty_name_guarded_app in H.
  apply andb_true_iff in H as [_ H]. cbn in H.
  rewrite Hname in H. cbn in H. rewrite orb_false_r in H.
  apply andb_true_iff in H as [H _].
  apply orb_true_iff in H. exact H.
Qed.

Section DrawCells.

Variable model : DataModel.model.
Variable cellRenderers : gmap string CellRenderer.ICellRenderer.
Variables firstRow firstCol : Z.

Lemma drawCells_rows_guarded (column : Z) (x width : number)
    (rowSizes : list number) :
  forall (j : Z) (y : number) (c : renderer_cache) (seen : bool),
    (seen = false -> c = fresh_cache) ->
    let r := _drawCells_rows model cellRenderers firstRow column x width
                             rowSizes j y c in
    empty_name_guarded model seen (snd r) = true
    /\ (seen || loads_named model (snd r) = false -> fst r = fresh_cache).
Proof.
  induction rowSizes as [|height rest IH]; intros j y c seen Hc; cbn zeta.
  - cbn. rewrite orb_false_r. split; [reflexivity | exact Hc].
  - cbn [_drawCells_rows].
    destruct (strict_eq height zero); [apply IH; exact Hc|].
    fold reset_data.
    set (row := (j + firstRow)%Z).
    set (data := DataModel.cellData model row column reset_data).
    assert (Hn : DataModel.renderer data = cell_name model row column)
      by reflexivity.
    set (named := negb (String.eqb (cell_name model row column) EmptyString)).
    destruct (String.eqb (DataModel.renderer data) (rendererName c)) eqn:E;
      cbn [negb].
    + (* the cached renderer is reused *)
      apply String.eqb_eq in E.
      destruct (renderer c) as [r|] eqn:Er.
      * destruct seen; [|rewrite (Hc eq_refl) in Er; discriminate].
        specialize (IH (j + 1)%Z (add y height) c true (fun H => Hc H)).
        destruct (_drawCells_rows _ _ _ _ _ _ rest _ _ c) as [c'' t].
        cbn in IH |- *. split; [|discriminate].
        apply empty_name_guarded_seen.
      * specialize (IH (j + 1)%Z y c (seen || named)).
        destruct (_drawCells_rows _ _ _ _ _ _ rest _ _ c) as [c'' t].
        cbn in IH |- *. fold named.
        assert (Hc' : seen || named = false -> c = fresh_cache).
        { intros H. apply orb_false_iff in H as [-> _]. apply Hc.
          reflexivity. }
        destruct (IH Hc') as [IH1 IH2].
        split; [exact IH1|].
        rewrite orb_assoc. exact IH2.
    + (* a renderer is fetched: the name is not the cached one *)
      assert (Hseen : seen || named = true).
      { destruct seen; [reflexivity|]. cbn.
        rewrite (Hc eq_refl) in E. cbn in E. unfold named.
        rewrite <- Hn, E. reflexivity. }
      set (c' := {| rendererName := DataModel.renderer data;
                    renderer := cellRenderers !! DataModel.renderer data |}).
      destruct (renderer c') as [r|].
      * specialize (IH (j + 1)%Z (add y height) c' true).
        destruct (_drawCells_rows _ _ _ _ _ _ rest _ _ c') as [c'' t].
        cbn in IH |- *. fold named. rewrite Hseen.
        split; [apply empty_name_guarded_seen|].
        rewrite orb_assoc, Hseen. discriminate.
      * specialize (IH (j + 1)%Z y c' true).
        destruct (_drawCells_rows _ _ _ _ _ _ rest _ _ c') as [c'' t].
        cbn in IH |- *. fold named. rewrite Hseen.
        split; [apply empty_name_guarded_seen|].
        rewrite orb_assoc, Hseen. discriminate.
Qed.

Lemma drawCells_columns_guarded (startY : number) (rowSizes : list number)
    (colSizes : list number) :
  forall (i : Z) (x : number) (c : renderer_cache) (seen : bool),
    (seen = false -> c = fresh_cache) ->
    let r := _drawCells_columns model cellRenderers firstRow firstCol
                                startY rowSizes colSizes i x c in
    empty_name_guarded model seen (snd r) = true
    /\ (seen || loads_named model (snd r) = false -> fst r = fresh_cache).
Proof.
  induction colSizes as [|width rest IH]; intros i x c seen Hc; cbn zeta.
  - cbn. rewrite orb_false_r. split; [reflexivity | exact Hc].
  - cbn [_drawCells_columns].
    destruct (strict_eq width zero); [apply IH; exact Hc|].
    pose proof (drawCells_rows_guarded (i + firstCol) x width rowSizes
                  0 startY c seen Hc) as Hrows.
    cbn zeta in Hrows.
    destruct (_drawCells_rows _ _ _ _ _ _ rowSizes _ _ c) as [c' t].
    cbn [fst snd] in Hrows. destruct Hrows as [Ht Hc'].
    specialize (IH (i + 1)%Z (add x width) c'
                   (seen || loads_named model t) Hc').
    destruct (_drawCells_columns _ _ _ _ _ _ rest _ _ c') as [c'' t'].
    cbn [fst snd] in IH |- *. destruct IH as [Ht' Hc''].
    rewrite empty_name_guarded_app, loads_named_app, Ht, Ht', orb_assoc.
    split; [reflexivity | exact Hc''].
Qed.

Lemma drawCells_rows_starts (column : Z) (x width : number)
    (rowSizes : list number) :
  forall (j : Z) (y : number) (c : renderer_cache),
    starts_with_load
      (snd (_drawCells_rows model cellRenderers firstRow column x width
                            rowSizes j y c)) = true.
Proof.
  induction rowSizes as [|height rest IH]; intros j y c.
  - reflexivity.
  - cbn [_drawCells_rows].
    destruct (strict_eq height zero); [apply IH|].
    destruct (renderer _);
      destruct (_drawCells_rows _ _ _ _ _ _ rest _ _ _); reflexivity.
Qed.

Lemma drawCells_rows_silent (column : Z) (x width : number)
    (rowSizes : list number) :
  forall (j : Z) (y : number) (c : renderer_cache),
    snd (_drawCells_rows model cellRenderers firstRow column x width
                         rowSizes j y c) = [] ->
    fst (_drawCells_rows model cellRenderers firstRow column x width
                         rowSizes j y c) = c.
Proof.
  induction rowSizes as [|height rest IH]; intros j y c.
  - reflexivity.
  - cbn [_drawCells_rows].
    destruct (strict_eq height zero); [apply IH|].
    destruct (renderer _);
      destruct (_drawCells_rows _ _ _ _ _ _ rest _ _ _); discriminate.
Qed.

Lemma starts_with_load_app (t t' : list op) :
  starts_with_load t = true -> starts_with_load t' = true ->
  starts_with_load (t ++ t') = true.
Proof.
destruct t as [|o t]; cbn; [intros _ H; exact H | intros H _; exact H].
Qed.

Lemma drawCells_columns_starts (startY : number) (rowSizes : list number)
    (colSizes : list number) :
  forall (i : Z) (x : number) (c : renderer_cache),
    starts_with_load
      (snd (_drawCells_columns model cellRenderers firstRow firstCol
                               startY rowSizes colSizes i x c)) = true.
Proof.
  induction colSizes as [|width rest IH]; intros i x c.
  - reflexivity.
  - cbn [_drawCells_columns].
    destruct (strict_eq width zero); [apply IH|].
    pose proof (drawCells_rows_starts (i + firstCol) x width rowSizes
                  0 startY c) as Hrows.
    destruct (_drawCells_rows _ _ _ _ _ _ rowSizes _ _ c) as [c' t].
    specialize (IH (i + 1)%Z (add x width) c').
    destruct (_drawCells_columns _ _ _ _ _ _ rest _ _ c') as [c'' t'].
    cbn [snd] in *. apply starts_with_load_app; assumption.
Qed.

Lemma drawCells_rows_first_empty_name (column : Z) (x width : number)
    (rowSizes : list number) :
  forall (j : Z) (y : number) (row0 column0 : Z) (rest0 : list op),
    snd (_drawCells_rows model cellRenderers firstRow column x width
                         rowSizes j y fresh_cache)
    = model_cellData row0 column0 :: rest0 ->
    cell_name model row0 column0 = EmptyString ->
    starts_with_load rest0 = true.
Proof.
  induction rowSizes as [|height rest IH];
    intros j y row0 column0 rest0 Ht Hname.
  - discriminate Ht.
  - cbn [_drawCells_rows] in Ht.
    destruct (strict_eq height zero); [apply (IH _ _ _ _ _ Ht Hname)|].
    fold reset_data in Ht.
    change (DataModel.renderer
              (DataModel.cellData model (j + firstRow) column reset_data))
      with (cell_name model (j + firstRow) column) in Ht.
    destruct (String.eqb (cell_name model (j + firstRow) column)
                         (rendererName fresh_cache)) eqn:E; cbn [negb] in Ht.
    + cbn [renderer fresh_cache] in Ht.
      pose proof (drawCells_rows_starts column x width rest (j + 1) y
                    fresh_cache) as Hs.
      destruct (_drawCells_rows _ _ _ _ _ _ rest _ _ _) as [c'' t].
      cbn in Ht, Hs. injection Ht as _ _ <-. exact Hs.
    + exfalso.
      assert (Hhead : row0 = (j + firstRow)%Z /\ column0 = column).
      { destruct (renderer _);
          destruct (_drawCells_rows _ _ _ _ _ _ rest _ _ _);
          cbn in Ht; injection Ht as -> -> _; split; reflexivity. }
      destruct Hhead as [-> ->]. rewrite Hname in E. discriminate E.
Qed.

Lemma drawCells_columns_first_empty_name (startY : number)
    (rowSizes : list number) (colSizes : list number) :
  forall (i : Z) (x : number) (row0 column0 : Z) (rest0 : list op),
    snd (_drawCells_columns model cellRenderers firstRow firstCol startY
                            rowSizes colSizes i x fresh_cache)
    = model_cellData row0 column0 :: rest0 ->
    cell_name model row0 column0 = EmptyString ->
    starts_with_load rest0 = true.
Proof.
  induction colSizes as [|width rest IH];
    intros i x row0 column0 rest0 Ht Hname.
  - discriminate Ht.
  - cbn [_drawCells_columns] in Ht.
    destruct (strict_eq width zero); [apply (IH _ _ _ _ _ Ht Hname)|].
    pose proof (drawCells_rows_silent (i + firstCol) x width rowSizes
                  0 startY fresh_cache) as Hsilent.
    pose proof (drawCells_rows_first_empty_name (i + firstCol) x width
                  rowSizes 0 startY) as Hfirst.
    destruct (_drawCells_rows _ _ _ _ _ _ rowSizes _ _ _) as [c' t].
    cbn [fst snd] in Hsilent, Hfirst.
    destruct t as [|o t].
    + rewrite (Hsilent eq_refl) in Ht.
      specialize (IH (i + 1)%Z (add x width) row0 column0 rest0).
      destruct (_drawCells_columns _ _ _ _ _ _ rest _ _ fresh_cache)
        as [c'' t'].
      cbn [snd app] in Ht, IH. exact (IH Ht Hname).
    + pose proof (drawCells_columns_starts startY rowSizes rest (i + 1)
                    (add x width) c') as Hs.
      destruct (_drawCells_columns _ _ _ _ _ _ rest _ _ c') as [c'' t'].
      cbn [snd] in Ht, Hs. cbn [app] in Ht. injection Ht as -> <-.
      apply starts_with_load_app; [|exact Hs].
      exact (Hfirst row0 column0 t eq_refl Hname).
Qed.

End DrawCells.

(** C10. [_drawCells] starts with the cached name [''] and no renderer,
    and its first call, if any, is the load of the first cell that is
    not skipped. If that cell is named [''] by the model, the call that
    follows the load is the load of the next cell (or the pass is over):
    there is no lookup in the renderer map and the cell is not painted,
    whatever is registered under ['']. And a cell named [''] that is
    painted comes after the load, in the same pass, of a cell with
    another name. *)
Theorem drawCells_empty_name_not_fetched_first
    (model : DataModel.model)
    (cellRenderers : gmap string CellRenderer.ICellRenderer)
    (rgn : Private.IRegion) :
  starts_with_load (_drawCells model cellRenderers rgn) = true
  /\ (forall row column rest,
     _drawCells model cellRenderers rgn = model_cellData row column :: rest ->
     cell_name model row column = EmptyString ->
     starts_with_load rest = true)
  /\ (forall t1 r config t2,
        _drawCells model cellRenderers rgn
        = t1 ++ renderer_paint r config :: t2 ->
        cell_name model (CellRenderer.row config)
                  (CellRenderer.column config) = EmptyString ->
        loads_named model t1 = true).
Proof.
  unfold _drawCells. fold fresh_cache.
  split; [apply drawCells_columns_starts|]. split.
  - intros row column rest Ht Hname.
    exact (drawCells_columns_first_empty_name model cellRenderers _ _ _ _ _
             _ _ _ _ _ Ht Hname).
  - intros t1 r config t2 Ht Hname.
    pose proof (drawCells_columns_guarded model cellRenderers
                  (Private.firstRow rgn) (Private.firstColumn rgn)
                  (Private.y rgn) (Private.rowSizes rgn)
                  (Private.columnSizes rgn) 0 (Private.x rgn)
                  fresh_cache false (fun _ => eq_refl)) as [H _].
    rewrite Ht in H.
    destruct (empty_name_guarded_split model _ _ _ _ _ H Hname) as [H'|H'].
    + discriminate H'.
    + exact H'.
Qed.

Lemma drawCells_empty_name_not_fetched_first_witness :
  starts_with_load [ model_cellData 1 0 ] = true
  /\ loads_named
       default_then_empty_name
       (firstn 5
          (_drawCells
             default_then_empty_name
             renderers_with_empty_name (region_at_origin 2 1))) = true.
Proof.
  split.
  - apply (proj1 (proj2 (drawCells_empty_name_not_fetched_first
                    all_empty_name
                    renderers_with_empty_name (region_at_origin 2 1)))
                 0%Z 0%Z [ model_cellData 1 0 ]).
    + vm_compute. reflexivity.
    + reflexivity.
  - apply (proj2 (proj2 (drawCells_empty_name_not_fetched_first
                    default_then_empty_name
                    renderers_with_empty_name (region_at_origin 2 1)))
                 _ (CellRenderer.renderer_object 1)
                 {| CellRenderer.x := of_Z 0;
                    CellRenderer.y := of_Z 20;
                    CellRenderer.width := of_Z 50;
                    CellRenderer.height := of_Z 20;
                    CellRenderer.row := 1;
                    CellRenderer.column := 0;
                    CellRenderer.value := numeric (of_Z 1);
                    CellRenderer.options := null |} []).
    + vm_compute. reflexivity.
    + reflexivity.
Defined.

(** ** Region resolution *)

Lemma section_sizes_length (h : GridHeader.header) (first n : Z) :
  length (section_sizes h first n) = Z.to_nat n.
Proof. unfold section_sizes. rewrite length_map, length_seq. reflexivity. Qed.

(** C6, as the code has it. Over a non-empty model, a dirty rect whose
    origin is covered by a column and a row of the model and whose far
    edge lies beyond the last known section resolves to a region that
    ends at the last column (row) of the model, and is not empty. A
    rect whose origin no section covers, as one positioned entirely
    beyond the last column or row, resolves to no region, and [_paint]
    stops after the void fill. *)
Theorem paint_region_falls_back_at_far_edge
    (this : GridCanvas) (model : DataModel.model)
    (rowHeader columnHeader : GridHeader.header) (rx ry rw rh : number) :
  DataModel.rowCount model <> 0%Z ->
  DataModel.columnCount model <> 0%Z ->
  let i1 := GridHeader.sectionAt columnHeader (add rx (_scrollX this)) in
  let j1 := GridHeader.sectionAt rowHeader (add ry (_scrollY this)) in
  let i2 :=
    GridHeader.sectionAt columnHeader (add (add rx rw) (_scrollX this)) in
  let j2 := GridHeader.sectionAt rowHeader (add (add ry rh) (_scrollY this)) in
  ((i1 < 0)%Z \/ (j1 < 0)%Z ->
   _paint_region this model rowHeader columnHeader rx ry rw rh = None)
  /\ ((0 <= i1 < DataModel.columnCount model)%Z ->
      (0 <= j1 < DataModel.rowCount model)%Z ->
      exists rgn,
        _paint_region this model rowHeader columnHeader rx ry rw rh = Some rgn
        /\ Private.firstColumn rgn = i1
        /\ Private.firstRow rgn = j1
        /\ ((i2 < 0)%Z ->
            last_column rgn = (DataModel.columnCount model - 1)%Z
            /\ Private.columnSizes rgn <> [])
        /\ ((j2 < 0)%Z ->
            last_row rgn = (DataModel.rowCount model - 1)%Z
            /\ Private.rowSizes rgn <> [])).
Proof.
  intros Hrows Hcols i1 j1 i2 j2.
  unfold _paint_region.
  apply Z.eqb_neq in Hrows, Hcols. rewrite Hrows, Hcols. cbn [orb].
  fold i1 j1 i2 j2. split.
  - intros [H | H]; apply Z.ltb_lt in H; rewrite H;
      rewrite ?orb_true_r; reflexivity.
  - intros Hi Hj.
    assert (Hi' : (i1 <? 0)%Z = false) by (apply Z.ltb_ge; lia).
    assert (Hj' : (j1 <? 0)%Z = false) by (apply Z.ltb_ge; lia).
    rewrite Hi', Hj'. cbn [orb].
    eexists. split; [reflexivity|].
    unfold last_column, last_row. cbn [Private.firstColumn Private.firstRow
      Private.columnSizes Private.rowSizes].
    split; [reflexivity|]. split; [reflexivity|].
    split; intros H; apply Z.ltb_lt in H; rewrite H;
      rewrite section_sizes_length; (split; [lia|]);
      intros Hnil; apply (f_equal (@length number)) in Hnil;
      rewrite section_sizes_length in Hnil; cbn in Hnil; lia.
Qed.

Lemma paint_region_falls_back_at_far_edge_witness :
  exists rgn,
    _paint_region grid_3x2_wide
      (named_model 3 2 (fun _ _ => "default"%string))
      (uniform_header 20 3) (uniform_header 50 2)
      (of_Z 60) (of_Z 50) (of_Z 100) (of_Z 100) = Some rgn
    /\ last_column rgn = 1%Z /\ Private.columnSizes rgn <> []
    /\ last_row rgn = 2%Z /\ Private.rowSizes rgn <> [].
Proof.
  destruct (proj2 (paint_region_falls_back_at_far_edge grid_3x2_wide
                     (named_model 3 2 (fun _ _ => "default"%string))
                     (uniform_header 20 3) (uniform_header 50 2)
                     (of_Z 60) (of_Z 50) (of_Z 100) (of_Z 100)
                     ltac:(discriminate) ltac:(discriminate))
                  ltac:(vm_compute; split; [discriminate | reflexivity])
                  ltac:(vm_compute; split; [discriminate | reflexivity]))
    as (rgn & Hrgn & _ & _ & Hcol & Hrow).
  exists rgn. split; [exact Hrgn|].
  destruct (Hcol ltac:(vm_compute; reflexivity)) as [H1 H2].
  destruct (Hrow ltac:(vm_compute; reflexivity)) as [H3 H4].
  repeat split; assumption.
Defined.

(** C6 refuted as stated: a dirty rect positioned entirely beyond the
    last column of a non-empty model resolves to no region, and the
    paint is the void fill alone. *)
Lemma paint_region_beyond_last_column_is_empty :
  _paint_region grid_3x2_wide
    (named_model 3 2 (fun _ _ => "default"%string))
    (uniform_header 20 3) (uniform_header 50 2)
    (of_Z 200) (of_Z 0) (of_Z 10) (of_Z 10) = None
  /\ _paint grid_3x2_wide (of_Z 200) (of_Z 0) (of_Z 10) (of_Z 10)
     = [ gc_fillStyle "#D4D4D4";
         gc_fillRect (of_Z 200) (of_Z 0) (of_Z 10) (of_Z 10) ].
Proof. split; vm_compute; reflexivity. Qed.

(** ** Numbers *)

Lemma Qltb_lt (p q : Q) : Qltb p q = true <-> (p < q)%Q.
Proof.
  unfold Qltb. rewrite Qlt_alt.
  destruct (p ?= q)%Q; split; intros H; congruence.
Qed.

Lemma Qltb_ge (p q : Q) : Qltb p q = false <-> (q <= p)%Q.
Proof.
  split; intros H.
  - apply Qnot_lt_le. intros Hlt. apply Qltb_lt in Hlt. congruence.
  - destruct (Qltb p q) eqn:E; [|reflexivity].
    apply Qltb_lt in E. apply Qle_not_lt in H. contradiction.
Qed.

Lemma Qle_bool_gt (p q : Q) : Qle_bool p q = false <-> (q < p)%Q.
Proof.
  split; intros H.
  - apply Qnot_le_lt. intros Hle. apply Qle_bool_iff in Hle. congruence.
  - destruct (Qle_bool p q) eqn:E; [|reflexivity].
    apply Qle_bool_iff in E. apply Qlt_not_le in H. contradiction.
Qed.

Lemma Qeq_bool_false (p q : Q) : Qeq_bool p q = false <-> ~ (p == q)%Q.
Proof.
  split; intros H.
  - apply Qeq_bool_neq. exact H.
  - destruct (Qeq_bool p q) eqn:E; [|reflexivity].
    apply Qeq_bool_iff in E. contradiction.
Qed.

Lemma le_Fin (p q : Q) : le (Fin p) (Fin q) = Qle_bool p q.
Proof.
  unfold le, lt, strict_eq.
  destruct (Qle_bool p q) eqn:E.
  - apply Qle_bool_iff in E.
    destruct (Qltb p q) eqn:E1; [reflexivity|]. cbn.
    apply Qltb_ge in E1. apply Qeq_bool_iff. lra.
  - apply Qle_bool_gt in E.
    apply orb_false_iff. split.
    + apply Qltb_ge. lra.
    + apply Qeq_bool_false. lra.
Qed.

Lemma strict_eq_of_Z (a b : Z) : strict_eq (of_Z a) (of_Z b) = (a =? b)%Z.
Proof.
  unfold strict_eq, of_Z.
  destruct (a =? b)%Z eqn:E.
  - apply Z.eqb_eq in E. subst. apply Qeq_bool_iff. reflexivity.
  - apply Z.eqb_neq in E. apply Qeq_bool_false.
    intros H. apply E. apply inject_Z_injective. exact H.
Qed.

Lemma strict_eq_of_Z_zero (a : Z) : strict_eq (of_Z a) zero = (a =? 0)%Z.
Proof. apply strict_eq_of_Z. Qed.

Lemma same_refl (a : number) : same a a.
Proof. destruct a; cbn; auto. reflexivity. Qed.

(** [a - b === 0] only when [a] and [b] are the same finite value. *)
Lemma strict_eq_sub_zero (a b : number) :
  strict_eq (sub a b) zero = true -> same b a.
Proof.
  destruct a as [| | |p], b as [| | |q]; cbn; try discriminate.
  intros H. apply Qeq_bool_iff in H. unfold inject_Z in H. lra.
Qed.

Lemma lt_not_ge (a b : number) : lt a b = true -> ge a b = false.
Proof.
  unfold ge, gt.
  destruct a as [| | |p], b as [| | |q]; cbn; try discriminate;
    try reflexivity.
  intros H. apply Qltb_lt in H. apply orb_false_iff. split.
  - apply Qltb_ge. lra.
  - apply Qeq_bool_false. lra.
Qed.

(** The coerced scroll position is [NaN], [+Infinity], or an integer that
    is not negative. *)
Lemma coerced_scroll_position (a : number) :
  match Math_max zero (Math_round a) with
  | NaN => a = NaN
  | PosInf => a = PosInf
  | NegInf => False
  | Fin q => exists n : Z, (0 <= n)%Z /\ q = inject_Z n
  end.
Proof.
  destruct a as [| | |p]; try reflexivity.
  - exists 0%Z. split; [lia | reflexivity].
  - cbn [Math_round]. set (n := Qfloor (p + (1 # 2))).
    change (Math_max zero (of_Z n))
      with (if Qltb (inject_Z 0) (inject_Z n) then Fin (inject_Z n)
            else Fin (inject_Z 0)).
    destruct (Qltb (inject_Z 0) (inject_Z n)) eqn:E.
    + apply Qltb_lt in E. rewrite <- Zlt_Qlt in E.
      exists n. split; [lia | reflexivity].
    + exists 0%Z. split; [lia | reflexivity].
Qed.

(** Decides a comparison of the goal from the linear facts at hand. *)
Ltac decide_atom :=
  match goal with
  | |- context [Qltb ?a ?b] =>
      first [ rewrite (proj2 (Qltb_lt a b)) by lra
            | rewrite (proj2 (Qltb_ge a b)) by lra ]
  | |- context [Qle_bool ?a ?b] =>
      first [ rewrite (proj2 (Qle_bool_iff a b)) by lra
            | rewrite (proj2 (Qle_bool_gt a b)) by lra ]
  end.

Lemma Qltb_eq_r (a b c : Q) : (b == c)%Q -> Qltb a b = Qltb a c.
Proof.
  intros H. destruct (Qltb a c) eqn:E.
  - apply Qltb_lt in E. apply Qltb_lt. lra.
  - apply Qltb_ge in E. apply Qltb_ge. lra.
Qed.

Lemma ge_Fin (p q : Q) : ge (Fin p) (Fin q) = Qle_bool q p.
Proof.
  unfold ge, gt, lt, strict_eq.
  destruct (Qle_bool q p) eqn:E.
  - apply Qle_bool_iff in E.
    destruct (Qltb q p) eqn:E1; [reflexivity|]. cbn.
    apply Qltb_ge in E1. apply Qeq_bool_iff. lra.
  - apply Qle_bool_gt in E.
    apply orb_false_iff. split.
    + apply Qltb_ge. lra.
    + apply Qeq_bool_false. lra.
Qed.

(** ** Rectangles *)

Lemma rect_has_nonneg (x y w h px py : Q) :
  (0 <= w)%Q -> (0 <= h)%Q ->
  Canvas.rect_has (Fin x) (Fin y) (Fin w) (Fin h) px py
  = Qle_bool x px && Qltb px (x + w) && Qle_bool y py && Qltb py (y + h).
Proof.
  intros Hw Hh. unfold Canvas.rect_has, Math_min, Math_max, add.
  cbn [lt].
  rewrite (proj2 (Qltb_ge (x + w) x)) by lra.
  rewrite (proj2 (Qltb_ge (y + h) y)) by lra.
  rewrite !le_Fin.
  assert (Hx : lt (Fin px) (if Qltb x (x + w) then Fin (x + w) else Fin x)
               = Qltb px (x + w)).
  { destruct (Qltb x (x + w)) eqn:E; [reflexivity|].
    apply Qltb_ge in E. cbn [lt]. apply Qltb_eq_r. lra. }
  assert (Hy : lt (Fin py) (if Qltb y (y + h) then Fin (y + h) else Fin y)
               = Qltb py (y + h)).
  { destruct (Qltb y (y + h)) eqn:E; [reflexivity|].
    apply Qltb_ge in E. cbn [lt]. apply Qltb_eq_r. lra. }
  cbn [lt] in Hx, Hy. rewrite Hx, Hy. reflexivity.
Qed.

Lemma inside_spec (c : Canvas.HTMLCanvasElement) (px py : Q) :
  Canvas.inside c px py
  = Qle_bool 0 px && Qltb px (inject_Z (Canvas.width c))
    && Qle_bool 0 py && Qltb py (inject_Z (Canvas.height c)).
Proof. reflexivity. Qed.

Lemma Qltb_eq_l (a b c : Q) : (a == b)%Q -> Qltb a c = Qltb b c.
Proof.
  intros H. destruct (Qltb b c) eqn:E.
  - apply Qltb_lt in E. apply Qltb_lt. lra.
  - apply Qltb_ge in E. apply Qltb_ge. lra.
Qed.

Lemma Qle_bool_eq_r (a b c : Q) : (b == c)%Q -> Qle_bool a b = Qle_bool a c.
Proof.
  intros H. destruct (Qle_bool a c) eqn:E.
  - apply Qle_bool_iff in E. apply Qle_bool_iff. lra.
  - apply Qle_bool_gt in E. apply Qle_bool_gt. lra.
Qed.

Lemma lt_Qeq_l (a : number) (p p' : Q) :
  (p == p')%Q -> lt (Fin p) a = lt (Fin p') a.
Proof.
  intros H. destruct a; cbn [lt]; try reflexivity. apply Qltb_eq_l, H.
Qed.

Lemma le_Qeq_r (a : number) (p p' : Q) :
  (p == p')%Q -> le a (Fin p) = le a (Fin p').
Proof.
  intros H. destruct a as [| | |q]; try reflexivity.
  rewrite !le_Fin. apply Qle_bool_eq_r, H.
Qed.

(** The tests on a point do not depend on the fraction that denotes it. *)
Lemma rect_has_Qeq (x y w h : number) (px py px' py' : Q) :
  (px == px')%Q -> (py == py')%Q ->
  Canvas.rect_has x y w h px py = Canvas.rect_has x y w h px' py'.
Proof.
  intros Hx Hy. unfold Canvas.rect_has.
  destruct x, y, w, h; try reflexivity.
  rewrite (le_Qeq_r _ px px' Hx), (lt_Qeq_l _ px px' Hx),
          (le_Qeq_r _ py py' Hy), (lt_Qeq_l _ py py' Hy).
  reflexivity.
Qed.

Lemma inside_Qeq (c : Canvas.HTMLCanvasElement) (px py px' py' : Q) :
  (px == px')%Q -> (py == py')%Q ->
  Canvas.inside c px py = Canvas.inside c px' py'.
Proof.
  intros Hx Hy. unfold Canvas.inside.
  rewrite (Qle_bool_eq_r 0 px px' Hx), (Qltb_eq_l px px' _ Hx),
          (Qle_bool_eq_r 0 py py' Hy), (Qltb_eq_l py py' _ Hy).
  reflexivity.
Qed.

Lemma pixel_Qeq (c : Canvas.HTMLCanvasElement) (px py px' py' : Q) :
  (px == px')%Q -> (py == py')%Q ->
  Canvas.pixel_at c px py = Canvas.pixel_at c px' py'.
Proof.
  intros Hx Hy. unfold Canvas.pixel_at.
  rewrite (Qred_complete _ _ Hx), (Qred_complete _ _ Hy). reflexivity.
Qed.

(** The four margins of a scroll, of sizes [l], [r], [t] and [b], are
    disjoint and cover the surface but for the rectangle between them. *)
Lemma margins_partition (W H l r t b w h px py : Q) :
  (0 <= l)%Q -> (0 <= r)%Q -> (0 <= t)%Q -> (0 <= b)%Q ->
  (w == W - l - r)%Q -> (h == H - t - b)%Q -> (0 < w)%Q -> (0 < h)%Q ->
  ((if Canvas.rect_has (Fin 0) (Fin 0) (Fin l) (Fin H) px py
    then 1 else 0)
   + ((if Canvas.rect_has (Fin (W - r)) (Fin 0) (Fin r) (Fin H) px py
       then 1 else 0)
      + ((if Canvas.rect_has (Fin l) (Fin 0) (Fin (W - l - r)) (Fin t) px py
          then 1 else 0)
         + (if Canvas.rect_has (Fin l) (Fin (H - b)) (Fin (W - l - r))
                               (Fin b) px py
            then 1 else 0))))%nat
  = if (Qle_bool 0 px && Qltb px W && Qle_bool 0 py && Qltb py H)
       && negb (Canvas.rect_has (Fin l) (Fin t) (Fin w) (Fin h) px py)
    then 1%nat else 0%nat.
Proof.
  intros Hl Hr Ht Hb Hw Hh Hw0 Hh0.
  rewrite !rect_has_nonneg by lra.
  destruct (Qlt_le_dec px 0), (Qlt_le_dec px l), (Qlt_le_dec px (W - r)),
    (Qlt_le_dec px W); try (exfalso; lra);
  destruct (Qlt_le_dec py 0), (Qlt_le_dec py t), (Qlt_le_dec py (H - b)),
    (Qlt_le_dec py H); try (exfalso; lra);
  repeat decide_atom; reflexivity.
Qed.

(** What [scrollTo] computes for one axis, for a delta [q] smaller than
    the extent [W]: the leading margin [l], the trailing margin [r] (also
    the source offset) and the extent [w] of the image to blit. *)
Lemma scroll_axis (q : Q) (W : Z) :
  (- inject_Z W < q < inject_Z W)%Q ->
  exists l r w : Q,
    (if lt (Fin q) zero then
       (neg (Fin q), zero, zero, neg (Fin q), sub (of_Z W) (neg (Fin q)))
     else if gt (Fin q) zero then
       (zero, Fin q, Fin q, zero, sub (of_Z W) (Fin q))
     else (zero, zero, zero, zero, of_Z W))
    = (Fin l, Fin r, Fin r, Fin l, Fin w)
    /\ (0 <= l)%Q /\ (0 <= r)%Q /\ (l == 0 \/ r == 0)%Q
    /\ (r - l == q)%Q /\ (w == inject_Z W - l - r)%Q /\ (0 < w)%Q.
Proof.
  intros Hq. unfold gt. cbn [lt zero of_Z neg sub].
  change (inject_Z 0) with 0%Q.
  destruct (Qltb q 0) eqn:E1.
  - apply Qltb_lt in E1.
    exists (- q)%Q, 0%Q, (inject_Z W - - q)%Q.
    split; [reflexivity|]. repeat split; lra.
  - apply Qltb_ge in E1. destruct (Qltb 0 q) eqn:E2.
    + apply Qltb_lt in E2.
      exists 0%Q, q, (inject_Z W - q)%Q.
      split; [reflexivity|]. repeat split; lra.
    + apply Qltb_ge in E2.
      exists 0%Q, 0%Q, (inject_Z W).
      split; [reflexivity|]. repeat split; lra.
Qed.

Lemma abs_lt_finite (a : number) (W : Z) :
  lt (Math_abs a) (of_Z W) = true ->
  exists q, a = Fin q /\ (- inject_Z W < q < inject_Z W)%Q.
Proof.
  destruct a as [| | |q]; cbn [Math_abs lt of_Z]; try discriminate.
  intros H. exists q. split; [reflexivity|].
  destruct (Qltb q 0) eqn:E; cbn [lt] in H; apply Qltb_lt in H.
  - apply Qltb_lt in E. lra.
  - apply Qltb_ge in E. lra.
Qed.

Lemma abs_Fin (q : Q) :
  exists p, Math_abs (Fin q) = Fin p /\ (0 <= p)%Q /\ (p == q \/ p == - q)%Q.
Proof.
  cbn [Math_abs]. destruct (Qltb q 0) eqn:E.
  - apply Qltb_lt in E. exists (- q)%Q.
    split; [reflexivity|]. split; [lra | right; lra].
  - apply Qltb_ge in E. exists q.
    split; [reflexivity|]. split; [lra | left; lra].
Qed.

Lemma cover_count_app (l1 l2 : list (number * number * number * number))
    (px py : Q) :
  cover_count (l1 ++ l2) px py
  = (cover_count l1 px py + cover_count l2 px py)%nat.
Proof. unfold cover_count. rewrite filter_app, length_app. reflexivity. Qed.

Lemma painted_rects_app (c1 c2 : list call) :
  painted_rects (c1 ++ c2) = painted_rects c1 ++ painted_rects c2.
Proof.
  induction c1 as [|c c1 IH]; cbn; [reflexivity|].
  destruct c; cbn; rewrite ?IH; reflexivity.
Qed.

Lemma blit_count_app (c1 c2 : list call) :
  blit_count (c1 ++ c2) = (blit_count c1 + blit_count c2)%nat.
Proof.
  induction c1 as [|c c1 IH]; cbn; [reflexivity|].
  destruct c; cbn; rewrite ?IH; reflexivity.
Qed.

(** ** Scrolling *)

Section Scrolling.

Variable raster : list op -> Q -> Q -> pixel.

Lemma paint_if_frame (cond : bool) (this : GridCanvas)
    (rx ry rw rh : number) :
  let this' := fst (paint_if raster cond this rx ry rw rh) in
  _scrollX this' = _scrollX this
  /\ _scrollY this' = _scrollY this
  /\ _buffer this' = _buffer this
  /\ Canvas.width (_canvas this') = Canvas.width (_canvas this)
  /\ Canvas.height (_canvas this') = Canvas.height (_canvas this).
Proof. destruct cond; cbn; repeat split; reflexivity. Qed.

Lemma paint_if_calls (cond : bool) (this : GridCanvas)
    (rx ry rw rh : number) :
  snd (paint_if raster cond this rx ry rw rh)
  = if cond then [ paint_call rx ry rw rh (_paint this rx ry rw rh) ]
    else [].
Proof. destruct cond; reflexivity. Qed.

Lemma paint_if_pixels_outside (cond : bool) (this : GridCanvas)
    (rx ry rw rh : number) (px py : Q) :
  Canvas.rect_has rx ry rw rh px py = false ->
  Canvas.pixels (_canvas (fst (paint_if raster cond this rx ry rw rh)))
                px py
  = Canvas.pixels (_canvas this) px py.
Proof.
  intros H. destruct cond; cbn; [|reflexivity]. rewrite H. reflexivity.
Qed.

Lemma paint_if_pixel_at_outside (cond : bool) (this : GridCanvas)
    (rx ry rw rh : number) (px py : Q) :
  Canvas.rect_has rx ry rw rh px py = false ->
  Canvas.pixel_at (_canvas (fst (paint_if raster cond this rx ry rw rh)))
                  px py
  = Canvas.pixel_at (_canvas this) px py.
Proof.
  intros H. unfold Canvas.pixel_at. apply paint_if_pixels_outside.
  rewrite (rect_has_Qeq _ _ _ _ _ _ px py
             (Qred_correct px) (Qred_correct py)).
  exact H.
Qed.

Lemma drawImage_some (dst src : Canvas.HTMLCanvasElement)
    (sx sy sw sh dx dy : number) :
  Canvas.width src <> 0%Z -> Canvas.height src <> 0%Z ->
  exists c,
    Canvas.drawImage dst src sx sy sw sh dx dy = Some c
    /\ Canvas.width c = Canvas.width dst
    /\ Canvas.height c = Canvas.height dst.
Proof.
  intros Hw Hh. unfold Canvas.drawImage.
  apply Z.eqb_neq in Hw, Hh. rewrite Hw, Hh. cbn [orb].
  destruct sx, sy, dx, dy; eexists; repeat split; reflexivity.
Qed.

(** C3. [scrollTo] returns for every request, finite or not, and the
    scroll position it leaves is [Math.max(0, Math.round(x))],
    [Math.max(0, Math.round(y))], whether or not the widget is visible
    and whatever the size of the canvas. *)
Theorem scrollTo_stores_coerced_position
    (this : GridCanvas) (x y : number) :
  exists this' calls,
    scrollTo raster this x y = Some (this', calls)
    /\ same (_scrollX this') (Math_max zero (Math_round x))
    /\ same (_scrollY this') (Math_max zero (Math_round y)).
Proof.
  unfold scrollTo.
  set (x' := Math_max zero (Math_round x)).
  set (y' := Math_max zero (Math_round y)).
  destruct (strict_eq (sub x' (_scrollX this)) zero
            && strict_eq (sub y' (_scrollY this)) zero) eqn:E0.
  { apply andb_true_iff in E0 as [Ex Ey].
    exists this, []. split; [reflexivity|].
    split; apply strict_eq_sub_zero; assumption. }
  destruct (negb (isVisible (with_scroll x' y' this))).
  { eexists _, _. split; [reflexivity|]. split; apply same_refl. }
  cbn [_canvas with_scroll].
  rewrite !strict_eq_of_Z_zero.
  destruct ((Canvas.width (_canvas this) =? 0)%Z
            || (Canvas.height (_canvas this) =? 0)%Z) eqn:E1.
  { eexists _, _. split; [reflexivity|]. split; apply same_refl. }
  destruct (ge _ _ || ge _ _).
  { eexists _, _. split; [reflexivity|]. split; apply same_refl. }
  apply orb_false_iff in E1 as [Hw Hh].
  apply Z.eqb_neq in Hw, Hh.
  destruct (if lt (sub x' (_scrollX this)) zero then _ else _)
    as [[[[left_ right_] srcX] dstX] imgW].
  destruct (if lt (sub y' (_scrollY this)) zero then _ else _)
    as [[[[top_ bottom_] srcY] dstY] imgH].
  destruct (drawImage_some (_canvas this) (_canvas this)
              srcX srcY imgW imgH dstX dstY Hw Hh) as (c & -> & _ & _).
  set (this0 := with_canvas c (with_scroll x' y' this)).
  pose proof (paint_if_frame (gt left_ zero) this0 zero zero left_
                (of_Z (Canvas.height (_canvas this)))) as F1.
  destruct (paint_if raster (gt left_ zero) this0 _ _ _ _) as [this1 p1].
  pose proof (paint_if_frame (gt right_ zero) this1
                (sub (of_Z (Canvas.width (_canvas this))) right_) zero
                right_ (of_Z (Canvas.height (_canvas this)))) as F2.
  destruct (paint_if raster (gt right_ zero) this1 _ _ _ _) as [this2 p2].
  pose proof (paint_if_frame (gt top_ zero) this2 left_ zero
                (sub (sub (of_Z (Canvas.width (_canvas this))) left_)
                     right_) top_) as F3.
  destruct (paint_if raster (gt top_ zero) this2 _ _ _ _) as [this3 p3].
  pose proof (paint_if_frame (gt bottom_ zero) this3 left_
                (sub (of_Z (Canvas.height (_canvas this))) bottom_)
                (sub (sub (of_Z (Canvas.width (_canvas this))) left_)
                     right_) bottom_) as F4.
  destruct (paint_if raster (gt bottom_ zero) this3 _ _ _ _) as [this4 p4].
  cbn [fst] in F1, F2, F3, F4.
  destruct F1 as (X1 & Y1 & _), F2 as (X2 & Y2 & _),
           F3 as (X3 & Y3 & _), F4 as (X4 & Y4 & _).
  eexists _, _. split; [reflexivity|].
  rewrite X4, X3, X2, X1, Y4, Y3, Y2, Y1. cbn.
  split; apply same_refl.
Qed.

End Scrolling.

(** Names the result of the next [paint_if] of the goal, with the calls
    it made ([C]) and the pixels it kept ([P]). *)
Ltac step_paint_if raster C P this' p :=
  match goal with
  | |- context [paint_if raster ?c ?t ?a ?b ?cc ?d] =>
      pose proof (paint_if_calls raster c t a b cc d) as C;
      pose proof (fun px py =>
                    paint_if_pixels_outside raster c t a b cc d px py) as P;
      destruct (paint_if raster c t a b cc d) as [this' p];
      cbn [fst snd] in C, P; cbn beta iota
  end.

Section ScrollBlit.

Variable raster : list op -> Q -> Q -> pixel.

Lemma ge_abs_not_zero (a : number) (W : Z) :
  (0 < W)%Z -> ge (Math_abs a) (of_Z W) = true -> strict_eq a zero = false.
Proof.
  intros HW. destruct a as [| | |q]; try reflexivity.
  destruct (abs_Fin q) as (p & -> & Hp & Hpq).
  unfold of_Z. rewrite ge_Fin. intros H. apply Qle_bool_iff in H.
  apply Qeq_bool_false. change (inject_Z 0) with 0%Q.
  rewrite Zlt_Qlt in HW. change (inject_Z 0) with 0%Q in HW.
  generalize dependent (inject_Z W). intros w HW H. lra.
Qed.

(** C2. On a visible canvas with area, a scroll whose delta reaches the
    width or the height of the canvas makes one call, the paint of
    [(0, 0, width, height)], and no [drawImage]. *)
Theorem scrollTo_large_delta_paints_everything
    (this : GridCanvas) (x y : number) :
  isVisible this = true ->
  (0 < Canvas.width (_canvas this))%Z ->
  (0 < Canvas.height (_canvas this))%Z ->
  let width := of_Z (Canvas.width (_canvas this)) in
  let height := of_Z (Canvas.height (_canvas this)) in
  let x' := Math_max zero (Math_round x) in
  let y' := Math_max zero (Math_round y) in
  let dx := sub x' (_scrollX this) in
  let dy := sub y' (_scrollY this) in
  ge (Math_abs dx) width || ge (Math_abs dy) height = true ->
  exists this' calls,
    scrollTo raster this x y = Some (this', calls)
    /\ calls
       = [ paint_call zero zero width height
             (_paint (with_scroll x' y' this) zero zero width height) ]
    /\ blit_count calls = 0%nat
    /\ painted_rects calls = [ (zero, zero, width, height) ].
Proof.
  intros Hvis HW HH width height x' y' dx dy Hbig.
  assert (E0 : strict_eq dx zero && strict_eq dy zero = false).
  { apply andb_false_iff. apply orb_true_iff in Hbig as [H | H].
    - left. exact (ge_abs_not_zero _ _ HW H).
    - right. exact (ge_abs_not_zero _ _ HH H). }
  unfold scrollTo. fold x' y' dx dy. rewrite E0.
  cbn [isVisible with_scroll _canvas]. rewrite Hvis. cbn [negb].
  rewrite !strict_eq_of_Z_zero.
  rewrite (proj2 (Z.eqb_neq _ 0)), (proj2 (Z.eqb_neq _ 0)) by lia.
  cbn [orb]. fold width height. rewrite Hbig.
  eexists _, _. split; [reflexivity|].
  repeat split; reflexivity.
Qed.

Lemma rect_has_empty (x y w h px py : Q) :
  (0 <= w)%Q -> (0 <= h)%Q -> (w <= 0 \/ h <= 0)%Q ->
  Canvas.rect_has (Fin x) (Fin y) (Fin w) (Fin h) px py = false.
Proof.
  intros Hw Hh Hz. rewrite rect_has_nonneg by assumption.
  destruct (Qlt_le_dec px x), (Qlt_le_dec py y), Hz;
    repeat decide_atom; rewrite ?andb_false_r; reflexivity.
Qed.

Lemma cover_count_single (cond : bool) (rx ry rw rh : number)
    (ops : list op) (px py : Q) :
  cover_count
    (painted_rects (if cond then [ paint_call rx ry rw rh ops ] else []))
    px py
  = if cond && Canvas.rect_has rx ry rw rh px py then 1%nat else 0%nat.
Proof.
  destruct cond; [|reflexivity].
  unfold cover_count. cbn.
  destruct (Canvas.rect_has rx ry rw rh px py); reflexivity.
Qed.

Lemma drawImage_Fin (dst src : Canvas.HTMLCanvasElement)
    (qsx qsy : Q) (sw sh : number) (qdx qdy : Q) :
  Canvas.width src <> 0%Z -> Canvas.height src <> 0%Z ->
  Canvas.drawImage dst src (Fin qsx) (Fin qsy) sw sh (Fin qdx) (Fin qdy)
  = Some {| Canvas.width := Canvas.width dst;
            Canvas.height := Canvas.height dst;
            Canvas.pixels := fun px py =>
              let spx := (px - qdx + qsx)%Q in
              let spy := (py - qdy + qsy)%Q in
              if Canvas.rect_has (Fin qdx) (Fin qdy) sw sh px py
                 && Canvas.inside dst px py
                 && Canvas.inside src spx spy
              then over (Canvas.pixel_at src spx spy)
                        (Canvas.pixels dst px py)
              else Canvas.pixels dst px py |}.
Proof.
  intros Hw Hh. unfold Canvas.drawImage.
  apply Z.eqb_neq in Hw, Hh. rewrite Hw, Hh. reflexivity.
Qed.

(** C1. On a visible canvas with area, a scroll by a delta that is not
    zero and is smaller than the canvas on both axes makes one
    [drawImage] of the canvas onto itself, which moves the image by the
    opposite of the delta, and then at most four paints. The painted
    rects are disjoint and cover the canvas but for the destination of
    the blit: each point of the canvas outside the destination lies in
    one of them, and each point of the destination in none. The points
    of the destination show the pixel that was at the point plus the
    delta. When the scroll is horizontal there is one paint, of a strip
    as wide as the delta and as high as the canvas. *)
Theorem scrollTo_small_delta_blits_and_paints_margins
    (this : GridCanvas) (x y : number) :
  isVisible this = true ->
  (0 < Canvas.width (_canvas this))%Z ->
  (0 < Canvas.height (_canvas this))%Z ->
  let width := of_Z (Canvas.width (_canvas this)) in
  let height := of_Z (Canvas.height (_canvas this)) in
  let x' := Math_max zero (Math_round x) in
  let y' := Math_max zero (Math_round y) in
  let dx := sub x' (_scrollX this) in
  let dy := sub y' (_scrollY this) in
  lt (Math_abs dx) width = true ->
  lt (Math_abs dy) height = true ->
  strict_eq dx zero && strict_eq dy zero = false ->
  exists this' srcX srcY imgW imgH dstX dstY paints,
    scrollTo raster this x y
    = Some (this',
            canvas_drawImage_canvas srcX srcY imgW imgH dstX dstY imgW imgH
              :: paints)
    /\ same (sub srcX dstX) dx
    /\ same (sub srcY dstY) dy
    /\ same imgW (sub width (Math_abs dx))
    /\ same imgH (sub height (Math_abs dy))
    /\ blit_count paints = 0%nat
    /\ (length paints <= 4)%nat
    /\ (forall px py,
          cover_count (painted_rects paints) px py
          = if Canvas.inside (_canvas this) px py
               && negb (Canvas.rect_has dstX dstY imgW imgH px py)
            then 1%nat else 0%nat)
    /\ (exists qx qy,
          dx = Fin qx /\ dy = Fin qy
          /\ (forall px py,
                Canvas.rect_has dstX dstY imgW imgH px py = true ->
                Canvas.inside (_canvas this) px py = true
                /\ Canvas.inside (_canvas this) (px + qx) (py + qy) = true)
          /\ forall px py,
               Canvas.rect_has dstX dstY imgW imgH px py = true ->
               Canvas.pixel_at (_canvas this') px py
               = over (Canvas.pixel_at (_canvas this) (px + qx) (py + qy))
                      (Canvas.pixel_at (_canvas this) px py))
    /\ (strict_eq dy zero = true ->
        exists rx rw ops,
          paints = [ paint_call rx zero rw height ops ]
          /\ same rw (Math_abs dx)).
Proof.
  intros Hvis HW HH width height x' y' dx dy Hdx Hdy Hne.
  destruct (abs_lt_finite _ _ Hdx) as (qx & Ex & Hqx).
  destruct (abs_lt_finite _ _ Hdy) as (qy & Ey & Hqy).
  unfold scrollTo. fold x' y' dx dy. rewrite Hne.
  cbn [isVisible with_scroll _canvas]. rewrite Hvis. cbn [negb].
  rewrite !strict_eq_of_Z_zero.
  rewrite (proj2 (Z.eqb_neq _ 0)), (proj2 (Z.eqb_neq _ 0)) by lia.
  cbn [orb]. fold width height.
  rewrite (lt_not_ge _ _ Hdx), (lt_not_ge _ _ Hdy). cbn [orb].
  rewrite Ex, Ey in *. unfold width, height.
  destruct (scroll_axis qx _ Hqx)
    as (l & r & w & -> & Hl & Hr & Hlr & Hrl & Hw & Hw0).
  destruct (scroll_axis qy _ Hqy)
    as (t & b & h & -> & Ht & Hb & Htb & Hbt & Hh & Hh0).
  rewrite drawImage_Fin by lia.
  rewrite Zlt_Qlt in HW, HH. change (inject_Z 0) with 0%Q in HW, HH.
  set (W := inject_Z (Canvas.width (_canvas this))) in *.
  set (H := inject_Z (Canvas.height (_canvas this))) in *.
  assert (G1 : gt (Fin l) zero = Qltb 0 l) by reflexivity.
  assert (G2 : gt (Fin r) zero = Qltb 0 r) by reflexivity.
  assert (G3 : gt (Fin t) zero = Qltb 0 t) by reflexivity.
  assert (G4 : gt (Fin b) zero = Qltb 0 b) by reflexivity.
  rewrite G1, G2, G3, G4. clear G1 G2 G3 G4.
  step_paint_if raster C1 P1 this1 p1.
  step_paint_if raster C2 P2 this2 p2.
  step_paint_if raster C3 P3 this3 p3.
  step_paint_if raster C4 P4 this4 p4.
  exists this4, (Fin r), (Fin b), (Fin w), (Fin h), (Fin l), (Fin t),
    (p1 ++ p2 ++ p3 ++ p4).
  split; [reflexivity|].
  split; [exact Hrl|].
  split; [exact Hbt|].
  split.
  { destruct (abs_Fin qx) as (p & -> & Hp & Hpq). cbn. fold W.
    destruct Hlr, Hpq; lra. }
  split.
  { destruct (abs_Fin qy) as (p & -> & Hp & Hpq). cbn. fold H.
    destruct Htb, Hpq; lra. }
  split.
  { rewrite !blit_count_app, C1, C2, C3, C4.
    destruct (Qltb 0 l), (Qltb 0 r), (Qltb 0 t), (Qltb 0 b); reflexivity. }
  split.
  { rewrite !length_app, C1, C2, C3, C4.
    destruct (Qltb 0 l), (Qltb 0 r), (Qltb 0 t), (Qltb 0 b); cbn; lia. }
  assert (Hparts : forall px py,
    cover_count (painted_rects (p1 ++ p2 ++ p3 ++ p4)) px py
    = ((if Canvas.rect_has (Fin 0) (Fin 0) (Fin l) (Fin H) px py
        then 1 else 0)
       + ((if Canvas.rect_has (Fin (W - r)) (Fin 0) (Fin r) (Fin H) px py
           then 1 else 0)
          + ((if Canvas.rect_has (Fin l) (Fin 0) (Fin (W - l - r)) (Fin t)
                                 px py
              then 1 else 0)
             + (if Canvas.rect_has (Fin l) (Fin (H - b)) (Fin (W - l - r))
                                   (Fin b) px py
                then 1 else 0))))%nat).
  { intros px py.
    rewrite !painted_rects_app, !cover_count_app, C1, C2, C3, C4.
    rewrite !cover_count_single.
    f_equal; [|f_equal; [|f_equal]].
    - destruct (Qltb 0 l) eqn:E; [reflexivity|]. apply Qltb_ge in E.
      rewrite rect_has_empty by lra. reflexivity.
    - destruct (Qltb 0 r) eqn:E; [reflexivity|]. apply Qltb_ge in E.
      rewrite rect_has_empty by lra. reflexivity.
    - destruct (Qltb 0 t) eqn:E; [reflexivity|]. apply Qltb_ge in E.
      rewrite rect_has_empty by lra. reflexivity.
    - destruct (Qltb 0 b) eqn:E; [reflexivity|]. apply Qltb_ge in E.
      rewrite rect_has_empty by lra. reflexivity. }
  split.
  { intros px py. rewrite Hparts.
    exact (margins_partition W H l r t b w h px py
             Hl Hr Ht Hb Hw Hh Hw0 Hh0). }
  split.
  { exists qx, qy. split; [reflexivity|]. split; [reflexivity|].
    assert (Hfits : forall px py,
              Canvas.rect_has (Fin l) (Fin t) (Fin w) (Fin h) px py = true ->
              Canvas.inside (_canvas this) px py = true
              /\ Canvas.inside (_canvas this) (px - l + r) (py - t + b)
                 = true).
    { intros px py Hdst.
      rewrite rect_has_nonneg in Hdst by lra.
      apply andb_true_iff in Hdst as [Hdst D4].
      apply andb_true_iff in Hdst as [Hdst D3].
      apply andb_true_iff in Hdst as [D1 D2].
      apply Qle_bool_iff in D1, D3. apply Qltb_lt in D2, D4.
      split; rewrite inside_spec; fold W H; repeat decide_atom; reflexivity. }
    split.
    { intros px py Hdst. destruct (Hfits px py Hdst) as [Hin Hsrc].
      split; [exact Hin|].
      rewrite (inside_Qeq _ (px + qx) (py + qy) (px - l + r) (py - t + b))
        by lra.
      exact Hsrc. }
    intros px0 py0 Hdst0.
    pose proof (proj1 (Hfits px0 py0 Hdst0)) as Hin0.
    pose proof (Qred_correct px0) as Hpx.
    pose proof (Qred_correct py0) as Hpy.
    rewrite (pixel_Qeq _ (px0 + qx) (py0 + qy)
               (Qred px0 - l + r) (Qred py0 - t + b)) by lra.
    unfold Canvas.pixel_at at 1 3.
    rewrite <- (inside_Qeq _ _ _ _ _ Hpx Hpy) in Hin0.
    rewrite <- (rect_has_Qeq _ _ _ _ _ _ _ _ Hpx Hpy) in Hdst0.
    revert Hin0 Hdst0. clear Hpx Hpy.
    generalize (Qred px0), (Qred py0). intros px py Hin Hdst.
    pose proof (margins_partition W H l r t b w h px py
                  Hl Hr Ht Hb Hw Hh Hw0 Hh0) as MP.
    rewrite Hdst in MP. rewrite andb_false_r in MP.
    rewrite P4, P3, P2, P1.
    - cbn [_canvas with_canvas Canvas.pixels].
      rewrite Hdst, Hin. cbn [andb].
      rewrite (proj2 (Hfits px py Hdst)). reflexivity.
    - destruct (Canvas.rect_has zero zero (Fin l) _ px py) eqn:E;
        [|reflexivity].
      change (Canvas.rect_has (Fin 0) (Fin 0) (Fin l) (Fin H) px py = true)
        in E.
      try rewrite E in MP. discriminate MP.
    - destruct (Canvas.rect_has _ zero (Fin r) _ px py) eqn:E;
        [|reflexivity].
      change (Canvas.rect_has (Fin (W - r)) (Fin 0) (Fin r) (Fin H) px py
              = true) in E.
      try rewrite E in MP. rewrite Nat.add_comm in MP. discriminate MP.
    - destruct (Canvas.rect_has (Fin l) zero _ (Fin t) px py) eqn:E;
        [|reflexivity].
      change (Canvas.rect_has (Fin l) (Fin 0) (Fin (W - l - r)) (Fin t)
                              px py = true) in E.
      try rewrite E in MP. rewrite !Nat.add_succ_r in MP. discriminate MP.
    - destruct (Canvas.rect_has (Fin l) _ _ (Fin b) px py) eqn:E;
        [|reflexivity].
      change (Canvas.rect_has (Fin l) (Fin (H - b)) (Fin (W - l - r))
                              (Fin b) px py = true) in E.
      try rewrite E in MP. rewrite !Nat.add_succ_r in MP. discriminate MP. }
  intros Hy0. rewrite Hy0, andb_true_r in Hne.
  apply Qeq_bool_iff in Hy0. apply Qeq_bool_false in Hne.
  change (inject_Z 0) with 0%Q in Hy0, Hne.
  assert (Et : Qltb 0 t = false) by (apply Qltb_ge; destruct Htb; lra).
  assert (Eb : Qltb 0 b = false) by (apply Qltb_ge; destruct Htb; lra).
  rewrite Et in C3. rewrite Eb in C4. rewrite C1, C2, C3, C4.
  destruct (abs_Fin qx) as (p & -> & Hp & Hpq).
  destruct (Qltb 0 l) eqn:El.
  - apply Qltb_lt in El.
    assert (Er : Qltb 0 r = false) by (apply Qltb_ge; destruct Hlr; lra).
    rewrite Er. eexists _, _, _. split; [reflexivity|].
    cbn. destruct Hlr, Hpq; lra.
  - apply Qltb_ge in El.
    assert (Er : Qltb 0 r = true) by (apply Qltb_lt; destruct Hlr; lra).
    rewrite Er. eexists _, _, _. split; [reflexivity|].
    cbn. destruct Hlr, Hpq; lra.
Qed.

End ScrollBlit.

Lemma scrollTo_large_delta_paints_everything_witness :
  exists this' calls,
    scrollTo flat_raster grid_3x2 (of_Z 500) (of_Z 7) = Some (this', calls)
    /\ calls
       = [ paint_call zero zero (of_Z 100) (of_Z 60)
             (_paint (with_scroll (of_Z 500) (of_Z 7) grid_3x2)
                     zero zero (of_Z 100) (of_Z 60)) ]
    /\ blit_count calls = 0%nat
    /\ painted_rects calls = [ (zero, zero, of_Z 100, of_Z 60) ].
Proof.
  apply (scrollTo_large_delta_paints_everything flat_raster grid_3x2
           (of_Z 500) (of_Z 7)).
  - reflexivity.
  - reflexivity.
  - reflexivity.
  - vm_compute. reflexivity.
Defined.

Lemma scrollTo_small_delta_blits_and_paints_margins_witness :
  exists this' srcX srcY imgW imgH dstX dstY rx rw ops,
    scrollTo flat_raster grid_3x2 (of_Z 30) zero
    = Some (this',
            [ canvas_drawImage_canvas srcX srcY imgW imgH dstX dstY imgW imgH;
              paint_call rx zero rw (of_Z 60) ops ])
    /\ same rw (of_Z 30).
Proof.
  destruct (scrollTo_small_delta_blits_and_paints_margins flat_raster
              grid_3x2 (of_Z 30) zero
              eq_refl eq_refl eq_refl eq_refl eq_refl eq_refl)
    as (this' & srcX & srcY & imgW & imgH & dstX & dstY & paints & Hscroll
        & _ & _ & _ & _ & _ & _ & _ & _ & Hstrip).
  destruct (Hstrip eq_refl) as (rx & rw & ops & Hpaints & Hrw).
  rewrite Hpaints in Hscroll.
  exists this', srcX, srcY, imgW, imgH, dstX, dstY, rx, rw, ops.
  split; [exact Hscroll | exact Hrw].
Defined.

(** ** Resizing *)

Lemma Qfloor_half (z : Z) : Qfloor (inject_Z z + (1 # 2)) = z.
Proof.
  unfold Qfloor, inject_Z, Qplus. cbn [Qnum Qden].
  change (Z.pos (1 * 2)) with 2%Z.
  symmetry. apply (Z.div_unique _ 2 z 1); lia.
Qed.

Lemma Math_round_of_Z (z : Z) : Math_round (of_Z z) = of_Z z.
Proof. unfold of_Z. cbn [Math_round]. rewrite Qfloor_half. reflexivity. Qed.

Lemma sub_of_Z (a b : Z) : sub (of_Z a) (of_Z b) = of_Z (a - b).
Proof.
  unfold of_Z, inject_Z. cbn [sub]. unfold Qminus, Qplus, Qopp.
  cbn [Qnum Qden]. f_equal. f_equal. lia.
Qed.

Lemma lt_of_Z (a b : Z) : lt (of_Z a) (of_Z b) = (a <? b)%Z.
Proof.
  unfold of_Z. cbn [lt]. destruct (a <? b)%Z eqn:E.
  - apply Z.ltb_lt in E. apply Qltb_lt. rewrite <- Zlt_Qlt. exact E.
  - apply Z.ltb_ge in E. apply Qltb_ge. rewrite <- Zle_Qle. exact E.
Qed.

Lemma gt_of_Z_zero (a : Z) : gt (of_Z a) zero = (0 <? a)%Z.
Proof. unfold gt, zero. apply lt_of_Z. Qed.

Lemma Math_max_zero_of_Z (a : Z) : Math_max zero (of_Z a) = of_Z (Z.max 0 a).
Proof.
  unfold zero. change (Math_max (of_Z 0) (of_Z a))
    with (if lt (of_Z 0) (of_Z a) then of_Z a else of_Z 0).
  rewrite lt_of_Z. destruct (0 <? a)%Z eqn:E.
  - apply Z.ltb_lt in E. rewrite Z.max_r by lia. reflexivity.
  - apply Z.ltb_ge in E. rewrite Z.max_l by lia. reflexivity.
Qed.

Lemma reflect_unsigned_long_of_Z (default z : Z) :
  (0 <= z <= 2147483647)%Z ->
  Canvas.reflect_unsigned_long default (of_Z z) = z.
Proof.
  intros Hz. unfold Canvas.reflect_unsigned_long, of_Z.
  rewrite (proj2 (Qltb_ge (inject_Z z) 0)).
  - rewrite Qfloor_Z, Z.mod_small by lia.
    rewrite (proj2 (Z.leb_le z 2147483647)) by lia. reflexivity.
  - change 0%Q with (inject_Z 0). rewrite <- Zle_Qle. lia.
Qed.

Lemma over_transparent (p : pixel) : over p transparent = p.
Proof. destruct p; reflexivity. Qed.

Lemma rect_has_of_Z (x y w h : Z) (px py : Q) :
  (0 <= w)%Z -> (0 <= h)%Z ->
  Canvas.rect_has (of_Z x) (of_Z y) (of_Z w) (of_Z h) px py
  = Qle_bool (inject_Z x) px && Qltb px (inject_Z (x + w))
    && Qle_bool (inject_Z y) py && Qltb py (inject_Z (y + h)).
Proof.
  intros Hw Hh. unfold of_Z. rewrite rect_has_nonneg.
  - rewrite !inject_Z_plus. reflexivity.
  - change 0%Q with (inject_Z 0). rewrite <- Zle_Qle. exact Hw.
  - change 0%Q with (inject_Z 0). rewrite <- Zle_Qle. exact Hh.
Qed.

Section Resizing.

Variable raster : list op -> Q -> Q -> pixel.

(** Drawing an image at the origin of a cleared canvas copies the part
    of the image that fits. *)
Lemma drawImage_at_blank (dst src : Canvas.HTMLCanvasElement) :
  (0 < Canvas.width src)%Z -> (0 < Canvas.height src)%Z ->
  (forall px py, Canvas.pixels dst px py = transparent) ->
  exists c,
    Canvas.drawImage_at dst src zero zero = Some c
    /\ Canvas.width c = Canvas.width dst
    /\ Canvas.height c = Canvas.height dst
    /\ forall px py,
         Canvas.pixel_at c px py
         = if Canvas.inside src px py
           then (if Canvas.inside dst px py then Canvas.pixel_at src px py
                 else transparent)
           else transparent.
Proof.
  intros Hw Hh Hblank. unfold Canvas.drawImage_at, zero.
  unfold of_Z at 1 2 5 6. rewrite drawImage_Fin by lia.
  eexists. split; [reflexivity|]. split; [reflexivity|].
  split; [reflexivity|]. intros px py.
  unfold Canvas.pixel_at at 1. cbn [Canvas.pixels].
  change (Fin (inject_Z 0)) with (of_Z 0).
  rewrite rect_has_of_Z by lia. rewrite !Hblank, over_transparent.
  pose proof (Qred_correct px) as Hpx. pose proof (Qred_correct py) as Hpy.
  rewrite (inside_Qeq dst _ _ px py Hpx Hpy).
  rewrite (inside_Qeq src (Qred px - inject_Z 0 + inject_Z 0)
             (Qred py - inject_Z 0 + inject_Z 0) px py)
    by (change (inject_Z 0) with 0%Q; lra).
  rewrite (pixel_Qeq src (Qred px - inject_Z 0 + inject_Z 0)
             (Qred py - inject_Z 0 + inject_Z 0) px py)
    by (change (inject_Z 0) with 0%Q; lra).
  assert (Hrect : Qle_bool (inject_Z 0) (Qred px)
                  && Qltb (Qred px) (inject_Z (0 + Canvas.width src))
                  && Qle_bool (inject_Z 0) (Qred py)
                  && Qltb (Qred py) (inject_Z (0 + Canvas.height src))
                  = Canvas.inside src px py).
  { rewrite <- (inside_Qeq src _ _ px py Hpx Hpy). reflexivity. }
  rewrite Hrect.
  destruct (Canvas.inside src px py), (Canvas.inside dst px py);
    reflexivity.
Qed.

(** [onResize] on a visible widget, for a new size [W'] by [H'] that a
    canvas can take. *)
Lemma onResize_visible (this : GridCanvas) (W' H' : Z) :
  isVisible this = true ->
  (0 <= W' <= 2147483647)%Z -> (0 <= H' <= 2147483647)%Z ->
  let W := Canvas.width (_canvas this) in
  let H := Canvas.height (_canvas this) in
  (0 <= W)%Z -> (0 <= H)%Z ->
  let needBlit := ((0 <? W) && (0 <? H) && (0 <? W') && (0 <? H'))%Z in
  let right_ := Z.max 0 (W' - W) in
  let bottom_ := Z.max 0 (H' - H) in
  exists this' ops1 ops2,
    onResize raster this
      {| ResizeMessage.width := of_Z W'; ResizeMessage.height := of_Z H' |}
    = Some (this',
            (if needBlit then
               [ buffer_drawImage_canvas zero zero;
                 canvas_drawImage_buffer zero zero ]
             else [])
            ++ (if (0 <? right_)%Z then
                  [ paint_call (of_Z W) zero (of_Z right_) (of_Z H') ops1 ]
                else [])
            ++ (if (0 <? bottom_)%Z then
                  [ paint_call zero (of_Z H) (of_Z (W' - right_))
                               (of_Z bottom_) ops2 ]
                else []))
    /\ Canvas.width (_canvas this') = W'
    /\ Canvas.height (_canvas this') = H'
    /\ Canvas.width (_buffer this') = W'
    /\ Canvas.height (_buffer this') = H'
    /\ (forall px py,
          Canvas.inside (_canvas this) px py = true ->
          Canvas.inside (_canvas this') px py = true ->
          Canvas.pixel_at (_canvas this') px py
          = if needBlit then Canvas.pixel_at (_canvas this) px py
            else transparent)
    /\ (forall px py,
          Canvas.inside (_canvas this) px py = true ->
          Canvas.inside (_canvas this') px py = true ->
          Canvas.pixel_at (_buffer this') px py
          = if needBlit then Canvas.pixel_at (_canvas this) px py
            else transparent).
Proof.
  intros Hvis HW' HH' W H HW HH needBlit right_ bottom_.
  unfold onResize. rewrite Hvis. cbn [negb ResizeMessage.width
    ResizeMessage.height].
  rewrite !strict_eq_of_Z.
  rewrite (proj2 (Z.eqb_neq W' (-1))), (proj2 (Z.eqb_neq H' (-1))) by lia.
  rewrite !Math_round_of_Z, !gt_of_Z_zero. fold W H needBlit.
  rewrite !sub_of_Z, !Math_max_zero_of_Z, !gt_of_Z_zero.
  fold right_ bottom_. rewrite !sub_of_Z.
  set (buffer1 := Canvas.set_height (of_Z H')
                    (Canvas.set_width (of_Z W') (_buffer this))).
  set (canvas1 := Canvas.set_height (of_Z H')
                    (Canvas.set_width (of_Z W') (_canvas this))).
  assert (Hb1 : Canvas.width buffer1 = W' /\ Canvas.height buffer1 = H'
                /\ forall px py, Canvas.pixels buffer1 px py = transparent).
  { unfold buffer1, Canvas.set_height, Canvas.set_width.
    cbn [Canvas.width Canvas.height Canvas.pixels].
    rewrite !reflect_unsigned_long_of_Z by lia. auto. }
  assert (Hc1 : Canvas.width canvas1 = W' /\ Canvas.height canvas1 = H'
                /\ forall px py, Canvas.pixels canvas1 px py = transparent).
  { unfold canvas1, Canvas.set_height, Canvas.set_width.
    cbn [Canvas.width Canvas.height Canvas.pixels].
    rewrite !reflect_unsigned_long_of_Z by lia. auto. }
  destruct Hb1 as (Hb1w & Hb1h & Hb1p), Hc1 as (Hc1w & Hc1h & Hc1p).
  assert (Hround : exists buffer2 canvas2,
    (if needBlit then Canvas.drawImage_at buffer1 (_canvas this) zero zero
     else Some buffer1) = Some buffer2
    /\ (if needBlit then Canvas.drawImage_at canvas1 buffer2 zero zero
        else Some canvas1) = Some canvas2
    /\ Canvas.width buffer2 = W' /\ Canvas.height buffer2 = H'
    /\ Canvas.width canvas2 = W' /\ Canvas.height canvas2 = H'
    /\ (forall px py,
          Canvas.inside (_canvas this) px py = true ->
          Canvas.inside canvas2 px py = true ->
          Canvas.pixel_at buffer2 px py
          = if needBlit then Canvas.pixel_at (_canvas this) px py
            else transparent)
    /\ (forall px py,
          Canvas.inside (_canvas this) px py = true ->
          Canvas.inside canvas2 px py = true ->
          Canvas.pixel_at canvas2 px py
          = if needBlit then Canvas.pixel_at (_canvas this) px py
            else transparent)).
  { destruct needBlit eqn:Eblit.
    - unfold needBlit in Eblit.
      apply andb_true_iff in Eblit as [Eblit E4].
      apply andb_true_iff in Eblit as [Eblit E3].
      apply andb_true_iff in Eblit as [E1 E2].
      apply Z.ltb_lt in E1, E2, E3, E4.
      destruct (drawImage_at_blank buffer1 (_canvas this))
        as (buffer2 & Eb & Hb2w & Hb2h & Hb2p); try (fold W H; lia);
        [exact Hb1p|].
      destruct (drawImage_at_blank canvas1 buffer2)
        as (canvas2 & Ec & Hc2w & Hc2h & Hc2p); try lia; [exact Hc1p|].
      exists buffer2, canvas2.
      split; [exact Eb|]. split; [exact Ec|].
      rewrite Hb2w, Hb2h, Hc2w, Hc2h, Hb1w, Hb1h, Hc1w, Hc1h.
      repeat (split; [reflexivity|]).
      assert (Hsame : forall c c',
                Canvas.width c = Canvas.width c' ->
                Canvas.height c = Canvas.height c' ->
                forall px py, Canvas.inside c px py = Canvas.inside c' px py).
      { intros c c' Ew Eh px py. unfold Canvas.inside.
        rewrite Ew, Eh. reflexivity. }
      split; intros px py Hin Hin2.
      + rewrite Hb2p, Hin.
        rewrite (Hsame buffer1 canvas2), Hin2 by congruence. reflexivity.
      + rewrite Hc2p, Hb2p, Hin.
        rewrite (Hsame canvas1 canvas2), (Hsame buffer2 canvas2),
                (Hsame buffer1 canvas2), Hin2 by congruence.
        reflexivity.
    - exists buffer1, canvas1.
      repeat (split; [first [reflexivity | assumption]|]).
      intros px py _ _. unfold Canvas.pixel_at. apply Hc1p. }
  destruct Hround as (buffer2 & canvas2 & -> & -> & Hb2w & Hb2h & Hc2w
                      & Hc2h & Hb2p & Hc2p).
  set (this0 := with_canvas canvas2 (with_buffer buffer2 this)).
  pose proof (paint_if_frame raster (0 <? right_)%Z this0 (of_Z W) zero
                (of_Z right_) (of_Z H')) as F1.
  pose proof (fun px py =>
                paint_if_pixel_at_outside raster (0 <? right_)%Z this0
                  (of_Z W) zero (of_Z right_) (of_Z H') px py) as Q1.
  step_paint_if raster C1 P1 this1 p1.
  pose proof (paint_if_frame raster (0 <? bottom_)%Z this1 zero (of_Z H)
                (of_Z (W' - right_)) (of_Z bottom_)) as F2.
  pose proof (fun px py =>
                paint_if_pixel_at_outside raster (0 <? bottom_)%Z this1
                  zero (of_Z H) (of_Z (W' - right_)) (of_Z bottom_) px py)
    as Q2.
  step_paint_if raster C2 P2 this2 p2.
  cbn [fst] in F1, F2, Q1, Q2.
  destruct F1 as (_ & _ & B1 & W1 & H1), F2 as (_ & _ & B2 & W2 & H2).
  exists this2, (_paint this0 (of_Z W) zero (of_Z right_) (of_Z H')),
    (_paint this1 zero (of_Z H) (of_Z (W' - right_)) (of_Z bottom_)).
  rewrite C1, C2, B2, B1, W2, W1, H2, H1. cbn [_canvas _buffer this0
    with_canvas with_buffer].
  split; [reflexivity|].
  repeat (split; [assumption|]).
  assert (Hin2 : forall px py,
            Canvas.inside (_canvas this2) px py
            = Canvas.inside canvas2 px py).
  { intros px py. unfold Canvas.inside. rewrite W2, W1, H2, H1.
    reflexivity. }
  split; intros px py Hin Hin'; rewrite Hin2 in Hin'.
  - rewrite Q2, Q1; [apply Hc2p; assumption| |];
      change zero with (of_Z 0).
    + rewrite rect_has_of_Z by lia.
      unfold Canvas.inside in Hin. fold W H in Hin.
      apply andb_true_iff in Hin as [Hin D4].
      apply andb_true_iff in Hin as [Hin D3].
      apply andb_true_iff in Hin as [D1 D2].
      apply Qltb_lt in D2.
      rewrite (proj2 (Qle_bool_gt (inject_Z W) px)) by exact D2.
      reflexivity.
    + rewrite rect_has_of_Z by lia.
      unfold Canvas.inside in Hin. fold W H in Hin.
      apply andb_true_iff in Hin as [Hin D4].
      apply Qltb_lt in D4.
      rewrite (proj2 (Qle_bool_gt (inject_Z H) py)) by exact D4.
      rewrite !andb_false_r. reflexivity.
  - apply Hb2p; assumption.
Qed.

Lemma inside_positive (c : Canvas.HTMLCanvasElement) (px py : Q) :
  Canvas.inside c px py = true ->
  (0 < Canvas.width c)%Z /\ (0 < Canvas.height c)%Z.
Proof.
  unfold Canvas.inside. intros Hin.
  apply andb_true_iff in Hin as [Hin D4].
  apply andb_true_iff in Hin as [Hin D3].
  apply andb_true_iff in Hin as [D1 D2].
  apply Qle_bool_iff in D1, D3. apply Qltb_lt in D2, D4.
  rewrite !(Zlt_Qlt 0). change (inject_Z 0) with 0%Q. split; lra.
Qed.

(** C8. A resize of a visible canvas from a size with area to a size
    with area copies the canvas into the resized buffer and the buffer
    back into the resized canvas, and then paints: every pixel of the
    old canvas that lies on the new one is the pixel that was there,
    at the same place from the top-left corner. A resize from [W] by
    [H] to a wider [W'] by [H] paints one rect, the new strip of
    [W' - W] by [H] at the right. (The handler of a hidden widget
    returns at once and keeps every pixel.) *)
Theorem onResize_preserves_old_pixels (this : GridCanvas) (W' H' : Z) :
  let W := Canvas.width (_canvas this) in
  let H := Canvas.height (_canvas this) in
  (0 < W)%Z -> (0 < H)%Z ->
  (0 < W' <= 2147483647)%Z -> (0 < H' <= 2147483647)%Z ->
  exists this' calls,
    onResize raster this
      {| ResizeMessage.width := of_Z W'; ResizeMessage.height := of_Z H' |}
    = Some (this', calls)
    /\ (forall px py,
          Canvas.inside (_canvas this) px py = true ->
          Canvas.inside (_canvas this') px py = true ->
          Canvas.pixel_at (_canvas this') px py
          = Canvas.pixel_at (_canvas this) px py)
    /\ (isVisible this = true ->
        Canvas.width (_canvas this') = W'
        /\ Canvas.height (_canvas this') = H'
        /\ (forall px py,
              Canvas.inside (_canvas this) px py = true ->
              Canvas.inside (_canvas this') px py = true ->
              Canvas.pixel_at (_buffer this') px py
              = Canvas.pixel_at (_canvas this) px py)
        /\ exists paints,
             calls = buffer_drawImage_canvas zero zero
                       :: canvas_drawImage_buffer zero zero :: paints
             /\ blit_count paints = 0%nat
             /\ (H' = H -> (W < W')%Z ->
                 painted_rects paints
                 = [ (of_Z W, zero, of_Z (W' - W), of_Z H) ])).
Proof.
  intros W H HW HH HW' HH'.
  destruct (isVisible this) eqn:Hvis.
  - destruct (onResize_visible this W' H' Hvis) as
      (this' & ops1 & ops2 & Eq & Hcw & Hch & _ & _ & Hcp & Hbp);
      try (fold W H); try lia.
    fold W H in Eq, Hcp, Hbp.
    assert (Eblit : ((0 <? W) && (0 <? H) && (0 <? W') && (0 <? H'))%Z
                    = true).
    { rewrite !(proj2 (Z.ltb_lt 0 _)) by lia. reflexivity. }
    rewrite Eblit in Eq, Hcp, Hbp.
    eexists _, _. split; [exact Eq|].
    split; [exact Hcp|]. intros _.
    split; [exact Hcw|]. split; [exact Hch|]. split; [exact Hbp|].
    eexists. split; [reflexivity|]. split.
    + rewrite blit_count_app.
      destruct (0 <? _)%Z, (0 <? _)%Z; reflexivity.
    + intros -> Hgrow.
      replace (Z.max 0 (H - H)) with 0%Z by lia.
      replace (Z.max 0 (W' - W)) with (W' - W)%Z by lia.
      rewrite (proj2 (Z.ltb_lt 0 (W' - W))) by lia. reflexivity.
  - exists this, []. unfold onResize. rewrite Hvis.
    split; [reflexivity|]. split; [reflexivity | discriminate].
Qed.

(** C9, as the code has it. A resize to the size the canvas has paints
    nothing and keeps the size of the canvas and of the buffer and
    every pixel of the canvas. On a visible widget with area it is not
    a no-op: the canvas is copied into the buffer and the buffer back,
    and the buffer then holds the pixels of the canvas in place of its
    own. *)
Theorem onResize_same_size_keeps_canvas (this : GridCanvas) :
  let W := Canvas.width (_canvas this) in
  let H := Canvas.height (_canvas this) in
  (0 <= W <= 2147483647)%Z -> (0 <= H <= 2147483647)%Z ->
  Canvas.width (_buffer this) = W -> Canvas.height (_buffer this) = H ->
  exists this' calls,
    onResize raster this
      {| ResizeMessage.width := of_Z W; ResizeMessage.height := of_Z H |}
    = Some (this', calls)
    /\ painted_rects calls = []
    /\ Canvas.width (_canvas this') = W
    /\ Canvas.height (_canvas this') = H
    /\ Canvas.width (_buffer this') = W
    /\ Canvas.height (_buffer this') = H
    /\ (forall px py,
          Canvas.inside (_canvas this) px py = true ->
          Canvas.pixel_at (_canvas this') px py
          = Canvas.pixel_at (_canvas this) px py)
    /\ (isVisible this = true ->
        (0 < W)%Z -> (0 < H)%Z ->
        calls = [ buffer_drawImage_canvas zero zero;
                  canvas_drawImage_buffer zero zero ]
        /\ forall px py,
             Canvas.inside (_canvas this) px py = true ->
             Canvas.pixel_at (_buffer this') px py
             = Canvas.pixel_at (_canvas this) px py).
Proof.
  intros W H HW HH Hbw Hbh.
  destruct (isVisible this) eqn:Hvis.
  - destruct (onResize_visible this W H Hvis) as
      (this' & ops1 & ops2 & Eq & Hcw & Hch & Hbw' & Hbh' & Hcp & Hbp);
      try (fold W H); try lia.
    fold W H in Eq, Hcp, Hbp.
    replace (Z.max 0 (W - W)) with 0%Z in Eq by lia.
    replace (Z.max 0 (H - H)) with 0%Z in Eq by lia.
    cbn [Z.ltb Z.compare app] in Eq. rewrite app_nil_r in Eq.
    assert (Hin' : forall px py,
              Canvas.inside (_canvas this') px py
              = Canvas.inside (_canvas this) px py).
    { intros px py. unfold Canvas.inside. rewrite Hcw, Hch. reflexivity. }
    assert (Hblit : forall px py,
              Canvas.inside (_canvas this) px py = true ->
              ((0 <? W) && (0 <? H) && (0 <? W) && (0 <? H))%Z = true).
    { intros px py Hin. apply inside_positive in Hin. fold W H in Hin.
      rewrite !(proj2 (Z.ltb_lt 0 _)) by lia. reflexivity. }
    eexists _, _. split; [exact Eq|].
    split; [destruct (_ && _); reflexivity|].
    repeat (split; [assumption|]).
    split.
    + intros px py Hin. rewrite Hcp; [|exact Hin | rewrite Hin'; exact Hin].
      rewrite (Hblit px py Hin). reflexivity.
    + intros _ HW0 HH0.
      rewrite !(proj2 (Z.ltb_lt 0 _)) by lia. split; [reflexivity|].
      intros px py Hin.
      rewrite Hbp; [|exact Hin | rewrite Hin'; exact Hin].
      rewrite (Hblit px py Hin). reflexivity.
  - exists this, []. unfold onResize. rewrite Hvis.
    do 7 (split; [first [reflexivity | assumption]|]).
    discriminate.
Qed.

End Resizing.

Lemma onResize_preserves_old_pixels_witness :
  exists this' calls,
    onResize flat_raster grid_3x2
      {| ResizeMessage.width := of_Z 130; ResizeMessage.height := of_Z 60 |}
    = Some (this', calls)
    /\ Canvas.pixel_at (_canvas this') 99 59
       = Canvas.pixel_at (_canvas grid_3x2) 99 59
    /\ painted_rects calls = [ (of_Z 100, zero, of_Z 30, of_Z 60) ].
Proof.
  destruct (onResize_preserves_old_pixels flat_raster grid_3x2 130 60
              eq_refl eq_refl ltac:(lia) ltac:(lia))
    as (this' & calls & Eq & Hcp & Hvis).
  destruct (Hvis eq_refl)
    as (Hw & Hh & _ & paints & -> & _ & Hstrip).
  exists this'. eexists. split; [exact Eq|]. split.
  - apply Hcp; [reflexivity|].
    unfold Canvas.inside. rewrite Hw, Hh. reflexivity.
  - exact (Hstrip eq_refl eq_refl).
Defined.

Lemma onResize_same_size_keeps_canvas_witness :
  exists this' calls,
    onResize flat_raster grid_3x2
      {| ResizeMessage.width := of_Z 100; ResizeMessage.height := of_Z 60 |}
    = Some (this', calls)
    /\ painted_rects calls = []
    /\ Canvas.pixel_at (_canvas this') 99 59
       = Canvas.pixel_at (_canvas grid_3x2) 99 59.
Proof.
  destruct (onResize_same_size_keeps_canvas flat_raster grid_3x2
              ltac:(cbn; lia) ltac:(cbn; lia) eq_refl eq_refl)
    as (this' & calls & Eq & Hpaint & _ & _ & _ & _ & Hcp & _).
  exists this', calls. split; [exact Eq|]. split; [exact Hpaint|].
  apply Hcp. reflexivity.
Defined.

(** C9 refuted as stated: a resize of a visible canvas of 100 by 60 to
    100 by 60 makes two [drawImage] calls and replaces the pixels of the
    buffer (cleared when the canvas was fitted) by those of the canvas. *)
Lemma onResize_same_size_overwrites_buffer :
  exists this',
    onResize flat_raster grid_3x2
      {| ResizeMessage.width := of_Z 100; ResizeMessage.height := of_Z 60 |}
    = Some (this',
            [ buffer_drawImage_canvas zero zero;
              canvas_drawImage_buffer zero zero ])
    /\ Canvas.pixel_at (_buffer grid_3x2) 0 0 = transparent
    /\ Canvas.pixel_at (_buffer this') 0 0 = opaque 13948116.
Proof.
  destruct (onResize_visible flat_raster grid_3x2 100 60 eq_refl
              ltac:(lia) ltac:(lia) ltac:(cbn; lia) ltac:(cbn; lia))
    as (this' & ops1 & ops2 & Eq & Hcw & Hch & _ & _ & _ & Hbp).
  exists this'. split; [exact Eq|]. split; [reflexivity|].
  rewrite Hbp.
  - reflexivity.
  - reflexivity.
  - unfold Canvas.inside. rewrite Hcw, Hch. reflexivity.
Qed.

(** * Further properties *)

(** ** The cells a pass paints *)

Lemma painted_by_nil
    (P : CellRenderer.ICellRenderer -> CellRenderer.ICellConfig -> Prop) :
  painted_by P [].
Proof. intros r config []. Qed.

Lemma painted_by_app
    (P : CellRenderer.ICellRenderer -> CellRenderer.ICellConfig -> Prop)
    (t1 t2 : list op) :
  painted_by P t1 -> painted_by P t2 -> painted_by P (t1 ++ t2).
Proof.
  intros H1 H2 r config Hin. apply in_app_or in Hin as [Hin | Hin].
  - exact (H1 r config Hin).
  - exact (H2 r config Hin).
Qed.

Lemma painted_by_weaken
    (P Q : CellRenderer.ICellRenderer -> CellRenderer.ICellConfig -> Prop)
    (t : list op) :
  (forall r config, P r config -> Q r config) ->
  painted_by P t -> painted_by Q t.
Proof. intros HPQ H r config Hin. exact (HPQ r config (H r config Hin)). Qed.

Lemma same_sym (a b : number) : same a b -> same b a.
Proof. destruct a, b; cbn; auto. intros H. symmetry. exact H. Qed.

Lemma same_trans (a b c : number) : same a b -> same b c -> same a c.
Proof.
  destruct a, b, c; cbn; auto; try contradiction.
  intros H1 H2. rewrite H1. exact H2.
Qed.

Lemma same_add_l (a b s : number) : same a b -> same (add a s) (add b s).
Proof.
  destruct a, b; cbn [same]; try contradiction; intros H;
    try apply same_refl.
  destruct s; cbn; auto. rewrite H. reflexivity.
Qed.

Lemma same_fold_add (sizes : list number) :
  forall a b, same a b -> same (fold_left add sizes a) (fold_left add sizes b).
Proof.
  induction sizes as [|s sizes IH]; intros a b H; cbn.
  - exact H.
  - apply IH. apply same_add_l. exact H.
Qed.

(** Adding a size that is zero leaves a coordinate the same. *)
Lemma same_add_zero (a s : number) :
  strict_eq s zero = true -> same (add a s) a.
Proof.
  destruct s as [| | |q]; cbn [strict_eq zero of_Z]; try discriminate.
  intros H. apply Qeq_bool_iff in H. change (inject_Z 0) with 0%Q in H.
  destruct a; cbn; auto. lra.
Qed.

Section PaintedCells.

Variable model : DataModel.model.
Variable cellRenderers : gmap string CellRenderer.ICellRenderer.
Variables firstRow firstCol : Z.

Lemma drawCells_rows_painted (column : Z) (x width : number)
    (rest : list number) :
  forall (j : Z) (y : number) (c : renderer_cache),
    cache_ok cellRenderers c ->
    let res := _drawCells_rows model cellRenderers firstRow column x width
                               rest j y c in
    cache_ok cellRenderers (fst res)
    /\ painted_by (painted_in_column model cellRenderers firstRow column x
                                    width rest j) (snd res).
Proof.
  induction rest as [|height rest IH]; intros j y c Hc; cbn zeta.
  - split; [exact Hc | apply painted_by_nil].
  - cbn [_drawCells_rows].
    assert (Hshift : forall t,
              painted_by (painted_in_column model cellRenderers firstRow
                                            column x width rest (j + 1)) t ->
              painted_by (painted_in_column model cellRenderers firstRow
                                            column x width (height :: rest) j)
                         t).
    { intros t. apply painted_by_weaken.
      intros r config (k & h & Hk & Hh & Hrow & Hrest).
      exists (S k), h. split; [exact Hk|]. split; [exact Hh|].
      split; [lia | exact Hrest]. }
    destruct (strict_eq height zero) eqn:Ezero.
    { destruct (IH (j + 1)%Z y c Hc) as [H1 H2].
      split; [exact H1 | apply Hshift, H2]. }
    cbv zeta. fold reset_data.
    set (row := (j + firstRow)%Z).
    set (data := DataModel.cellData model row column reset_data).
    set (fetch := negb (String.eqb (DataModel.renderer data)
                                   (rendererName c))).
    set (c' := if fetch then
                 {| rendererName := DataModel.renderer data;
                    renderer := cellRenderers !! DataModel.renderer data |}
               else c).
    assert (Hc' : cache_ok cellRenderers c').
    { unfold c'. destruct fetch; [right; reflexivity | exact Hc]. }
    assert (Hname : renderer c' <> None ->
                    rendererName c' = cell_name model row column).
    { unfold c', fetch.
      destruct (String.eqb (DataModel.renderer data) (rendererName c)) eqn:E;
        cbn [negb]; intros _.
      - apply String.eqb_eq in E. symmetry. exact E.
      - reflexivity. }
    assert (Hloaded : forall t,
              painted_by (painted_in_column model cellRenderers firstRow
                                            column x width (height :: rest) j)
                         t ->
              painted_by (painted_in_column model cellRenderers firstRow
                                            column x width (height :: rest) j)
                         ((model_cellData row column
                             :: (if fetch
                                 then [cellRenderers_get
                                         (DataModel.renderer data)]
                                 else [])) ++ t)).
    { intros t Ht. apply painted_by_app; [|exact Ht].
      intros r config [Hin | Hin]; [discriminate Hin|].
      destruct fetch; [destruct Hin as [Hin | []]; discriminate Hin
                      | destruct Hin]. }
    destruct (renderer c') as [r|] eqn:Er.
    + destruct (IH (j + 1)%Z (add y height) c' Hc') as [H1 H2].
      destruct (_drawCells_rows _ _ _ _ _ _ rest _ _ c') as [c'' t].
      cbn [fst snd] in *. split; [exact H1|].
      apply Hloaded.
      intros r0 config [Hin | Hin].
      * injection Hin as <- <-.
        exists 0%nat, height. cbn [CellRenderer.row CellRenderer.column
          CellRenderer.x CellRenderer.width CellRenderer.height
          CellRenderer.value CellRenderer.options].
        split; [reflexivity|]. split; [exact Ezero|].
        split; [unfold row; lia|].
        repeat (split; [reflexivity|]).
        split; [|split; reflexivity].
        rewrite <- Hname by discriminate.
        destruct Hc' as [Hc' | Hc']; congruence.
      * exact (Hshift t H2 r0 config Hin).
    + destruct (IH (j + 1)%Z y c' Hc') as [H1 H2].
      destruct (_drawCells_rows _ _ _ _ _ _ rest _ _ c') as [c'' t].
      cbn [fst snd] in *. split; [exact H1|].
      apply Hloaded, Hshift, H2.
Qed.

Lemma drawCells_columns_painted (startY : number) (rowSizes : list number)
    (rest : list number) :
  forall (i : Z) (x : number) (c : renderer_cache),
    cache_ok cellRenderers c ->
    let res := _drawCells_columns model cellRenderers firstRow firstCol
                                  startY rowSizes rest i x c in
    cache_ok cellRenderers (fst res)
    /\ painted_by (painted_in_columns model cellRenderers firstRow firstCol
                                      rowSizes rest i x) (snd res).
Proof.
  induction rest as [|width rest IH]; intros i x c Hc; cbn zeta.
  - split; [exact Hc | apply painted_by_nil].
  - cbn [_drawCells_columns].
    destruct (strict_eq width zero) eqn:Ezero.
    + destruct (IH (i + 1)%Z x c Hc) as [H1 H2].
      split; [exact H1|]. revert H2. apply painted_by_weaken.
      intros r config (n & w & Hn & Hw & Hx & Hcol).
      exists (S n), w. split; [exact Hn|]. split; [exact Hw|]. split.
      * cbn [take fold_left].
        apply (same_trans _ _ _ Hx). apply same_fold_add.
        apply same_sym, same_add_zero, Ezero.
      * replace (i + Z.of_nat (S n) + firstCol)%Z
          with (i + 1 + Z.of_nat n + firstCol)%Z by lia.
        exact Hcol.
    + pose proof (drawCells_rows_painted (i + firstCol) x width rowSizes
                    0 startY c Hc) as Hrows.
      cbn zeta in Hrows.
      destruct (_drawCells_rows _ _ _ _ _ _ rowSizes _ _ c) as [c' t].
      cbn [fst snd] in Hrows. destruct Hrows as [Hc' Ht].
      destruct (IH (i + 1)%Z (add x width) c' Hc') as [H1 H2].
      destruct (_drawCells_columns _ _ _ _ _ _ rest _ _ c') as [c'' t'].
      cbn [fst snd] in *. split; [exact H1|].
      apply painted_by_app.
      * revert Ht. apply painted_by_weaken.
        intros r config Hcol.
        assert (Hx : CellRenderer.x config = x).
        { destruct Hcol as (k & h & _ & _ & _ & _ & Hx & _). exact Hx. }
        exists 0%nat, width. split; [reflexivity|]. split; [exact Ezero|].
        split; [rewrite Hx; apply same_refl|].
        rewrite Hx. replace (i + Z.of_nat 0 + firstCol)%Z
          with (i + firstCol)%Z by lia.
        exact Hcol.
      * revert H2. apply painted_by_weaken.
        intros r config (n & w & Hn & Hw & Hx & Hcol).
        exists (S n), w. split; [exact Hn|]. split; [exact Hw|].
        split; [exact Hx|].
        replace (i + Z.of_nat (S n) + firstCol)%Z
          with (i + 1 + Z.of_nat n + firstCol)%Z by lia.
        exact Hcol.
Qed.

End PaintedCells.

(** Every cell a pass paints, by the column and the row it has in the
    region. *)
Lemma drawCells_painted (model : DataModel.model)
    (cellRenderers : gmap string CellRenderer.ICellRenderer)
    (rgn : Private.IRegion) :
  painted_by
    (painted_in_columns model cellRenderers (Private.firstRow rgn)
       (Private.firstColumn rgn) (Private.rowSizes rgn)
       (Private.columnSizes rgn) 0 (Private.x rgn))
    (_drawCells model cellRenderers rgn).
Proof.
  unfold _drawCells.
  apply (drawCells_columns_painted model cellRenderers).
  left. reflexivity.
Qed.

(** X1. The renderer that paints a cell is the one registered under the
    name the model gives that cell, also when the lookup was skipped
    because the name is the cached one; and the renderer receives the
    value and the options the model gave for that cell. *)
Theorem drawCells_paints_with_registered_renderer
    (model : DataModel.model)
    (cellRenderers : gmap string CellRenderer.ICellRenderer)
    (rgn : Private.IRegion)
    (r : CellRenderer.ICellRenderer) (config : CellRenderer.ICellConfig) :
  In (renderer_paint r config) (_drawCells model cellRenderers rgn) ->
  let data :=
    DataModel.cellData model (CellRenderer.row config)
                       (CellRenderer.column config) reset_data in
  cellRenderers !! DataModel.renderer data = Some r
  /\ CellRenderer.value config = DataModel.value data
  /\ CellRenderer.options config = DataModel.options data.
Proof.
  intros Hin.
  destruct (drawCells_painted model cellRenderers rgn r config Hin)
    as (n & w & _ & _ & _ & k & h & _ & _ & _ & Hcol & _ & _ & _ & Hr
        & Hv & Ho).
  cbn zeta. rewrite Hcol. repeat split; assumption.
Qed.

(** X2. A cell handed to a renderer is a cell of the region: its column
    and its row are those of a section of the region, its width and its
    height are the sizes of those sections, and neither is zero. No cell
    of a zero-size row or column is painted. *)
Theorem drawCells_paints_cells_of_region
    (model : DataModel.model)
    (cellRenderers : gmap string CellRenderer.ICellRenderer)
    (rgn : Private.IRegion)
    (r : CellRenderer.ICellRenderer) (config : CellRenderer.ICellConfig) :
  In (renderer_paint r config) (_drawCells model cellRenderers rgn) ->
  exists i k : nat,
    CellRenderer.column config = (Private.firstColumn rgn + Z.of_nat i)%Z
    /\ CellRenderer.row config = (Private.firstRow rgn + Z.of_nat k)%Z
    /\ Private.columnSizes rgn !! i = Some (CellRenderer.width config)
    /\ Private.rowSizes rgn !! k = Some (CellRenderer.height config)
    /\ strict_eq (CellRenderer.width config) zero = false
    /\ strict_eq (CellRenderer.height config) zero = false.
Proof.
  intros Hin.
  destruct (drawCells_painted model cellRenderers rgn r config Hin)
    as (n & w & Hn & Hw & _ & k & h & Hk & Hh & Hrow & Hcol & _ & Hcw & Hch
        & _).
  exists n, k. rewrite Hcw, Hch, Hcol, Hrow.
  repeat split; try assumption; lia.
Qed.

(** X3. The x coordinate handed to a renderer is the same value as the
    region origin plus the sizes of all the columns before the cell's,
    added in order; the columns of size zero, which are skipped, add
    nothing. *)
Theorem drawCells_x_is_sum_of_preceding_columns
    (model : DataModel.model)
    (cellRenderers : gmap string CellRenderer.ICellRenderer)
    (rgn : Private.IRegion)
    (r : CellRenderer.ICellRenderer) (config : CellRenderer.ICellConfig) :
  In (renderer_paint r config) (_drawCells model cellRenderers rgn) ->
  exists i : nat,
    CellRenderer.column config = (Private.firstColumn rgn + Z.of_nat i)%Z
    /\ same (CellRenderer.x config)
            (fold_left add (take i (Private.columnSizes rgn))
                       (Private.x rgn)).
Proof.
  intros Hin.
  destruct (drawCells_painted model cellRenderers rgn r config Hin)
    as (n & w & _ & _ & Hx & k & h & _ & _ & _ & Hcol & _).
  exists n. split; [rewrite Hcol; lia | exact Hx].
Qed.

Lemma drawCells_paints_with_registered_renderer_witness :
  default_renderers !! "default"%string
  = Some CellRenderer.SimpleCellRenderer.
Proof.
  refine (proj1 (drawCells_paints_with_registered_renderer
                   default_model default_renderers region_with_hidden_column
                   CellRenderer.SimpleCellRenderer config_4_9 _)).
  vm_compute. auto 10.
Defined.

Lemma drawCells_paints_cells_of_region_witness :
  exists i k : nat,
    (9 = 7 + Z.of_nat i)%Z /\ (4 = 4 + Z.of_nat k)%Z
    /\ [ of_Z 50; of_Z 0; of_Z 50 ] !! i = Some (of_Z 50)
    /\ [ of_Z 20 ] !! k = Some (of_Z 20)
    /\ strict_eq (of_Z 50) zero = false
    /\ strict_eq (of_Z 20) zero = false.
Proof.
  refine (drawCells_paints_cells_of_region
            default_model default_renderers region_with_hidden_column
            CellRenderer.SimpleCellRenderer config_4_9 _).
  vm_compute. auto 10.
Defined.

Lemma drawCells_x_is_sum_of_preceding_columns_witness :
  exists i : nat,
    (9 = 7 + Z.of_nat i)%Z
    /\ same (Fin (60 # 1))
            (fold_left add (take i [ of_Z 50; of_Z 0; of_Z 50 ]) (of_Z 10)).
Proof.
  refine (drawCells_x_is_sum_of_preceding_columns
            default_model default_renderers region_with_hidden_column
            CellRenderer.SimpleCellRenderer config_4_9 _).
  vm_compute. auto 10.
Defined.

Lemma loaded_cells_app (t1 t2 : list op) :
  loaded_cells (t1 ++ t2) = loaded_cells t1 ++ loaded_cells t2.
Proof.
  induction t1 as [|o t1 IH]; cbn; [reflexivity|].
  destruct o; cbn; rewrite ?IH; reflexivity.
Qed.

Lemma painted_cells_app (t1 t2 : list op) :
  painted_cells (t1 ++ t2) = painted_cells t1 ++ painted_cells t2.
Proof.
  induction t1 as [|o t1 IH]; cbn; [reflexivity|].
  destruct o; cbn; rewrite ?IH; reflexivity.
Qed.

Section LoadedCells.

Variable model : DataModel.model.
Variable cellRenderers : gmap string CellRenderer.ICellRenderer.
Variables firstRow firstCol : Z.

Lemma drawCells_rows_loaded (column : Z) (x width : number)
    (rest : list number) :
  forall (j : Z) (y : number) (c : renderer_cache),
    loaded_cells
      (snd (_drawCells_rows model cellRenderers firstRow column x width
                            rest j y c))
    = map (fun j' => ((j' + firstRow)%Z, column)) (visible_from j rest).
Proof.
  induction rest as [|height rest IH]; intros j y c.
  - reflexivity.
  - cbn [_drawCells_rows visible_from].
    destruct (strict_eq height zero); [apply IH|].
    cbv zeta.
    destruct (negb _);
      destruct (renderer _);
      match goal with
      | |- context [_drawCells_rows ?m ?cr ?fr ?col ?x0 ?w ?l ?j0 ?y0 ?c0] =>
          specialize (IH j0 y0 c0);
          destruct (_drawCells_rows m cr fr col x0 w l j0 y0 c0) as [c'' t]
      end;
      cbn [snd] in *; rewrite loaded_cells_app; cbn; rewrite IH;
      reflexivity.
Qed.

Lemma drawCells_columns_loaded (startY : number) (rowSizes : list number)
    (rest : list number) :
  forall (i : Z) (x : number) (c : renderer_cache),
    loaded_cells
      (snd (_drawCells_columns model cellRenderers firstRow firstCol startY
                               rowSizes rest i x c))
    = flat_map
        (fun i' => map (fun j' => ((j' + firstRow)%Z, (i' + firstCol)%Z))
                       (visible_from 0 rowSizes))
        (visible_from i rest).
Proof.
  induction rest as [|width rest IH]; intros i x c.
  - reflexivity.
  - cbn [_drawCells_columns visible_from].
    destruct (strict_eq width zero); [apply IH|].
    pose proof (drawCells_rows_loaded (i + firstCol) x width rowSizes
                  0 startY c) as Hrows.
    destruct (_drawCells_rows _ _ _ _ _ _ rowSizes _ _ c) as [c' t].
    specialize (IH (i + 1)%Z (add x width) c').
    destruct (_drawCells_columns _ _ _ _ _ _ rest _ _ c') as [c'' t'].
    cbn [snd flat_map] in *.
    rewrite loaded_cells_app, Hrows, IH. reflexivity.
Qed.

End LoadedCells.

(** X4. Whatever the renderers, a pass asks the model for each cell of
    the region whose row and column both have a size that is not zero,
    once, column by column and from the first row to the last within a
    column; and for no other cell. *)
Theorem drawCells_loads_each_visible_cell_once
    (model : DataModel.model)
    (cellRenderers : gmap string CellRenderer.ICellRenderer)
    (rgn : Private.IRegion) :
  loaded_cells (_drawCells model cellRenderers rgn)
  = flat_map
      (fun i => map (fun j => ((j + Private.firstRow rgn)%Z,
                               (i + Private.firstColumn rgn)%Z))
                    (visible_from 0 (Private.rowSizes rgn)))
      (visible_from 0 (Private.columnSizes rgn)).
Proof. unfold _drawCells. apply drawCells_columns_loaded. Qed.

Section PlacedCells.

Variable model : DataModel.model.
Variable cellRenderers : gmap string CellRenderer.ICellRenderer.
Variables firstRow firstCol : Z.

(** Every cell of the model names, with a name that is not empty, a
    renderer that is registered. *)
Hypothesis names_registered :
  forall row column,
    cell_name model row column <> EmptyString
    /\ is_Some (cellRenderers !! cell_name model row column).

Lemma drawCells_rows_placed (column : Z) (x width : number)
    (rest : list number) :
  forall (j : Z) (y : number) (c : renderer_cache),
    cache_fetched cellRenderers c ->
    let res := _drawCells_rows model cellRenderers firstRow column x width
                               rest j y c in
    cache_fetched cellRenderers (fst res)
    /\ map cell_of (painted_cells (snd res)) = loaded_cells (snd res)
    /\ painted_by
         (fun _ config =>
            exists k : nat,
              CellRenderer.row config = (j + Z.of_nat k + firstRow)%Z
              /\ same (CellRenderer.y config)
                      (fold_left add (take k rest) y))
         (snd res).
Proof.
  induction rest as [|height rest IH]; intros j y c Hc; cbn zeta.
  - split; [exact Hc|]. split; [reflexivity | apply painted_by_nil].
  - cbn [_drawCells_rows].
    destruct (strict_eq height zero) eqn:Ezero.
    { destruct (IH (j + 1)%Z y c Hc) as (H1 & H2 & H3).
      split; [exact H1|]. split; [exact H2|].
      revert H3. apply painted_by_weaken.
      intros _ config (k & Hrow & Hy).
      exists (S k). split; [lia|]. cbn [take fold_left].
      apply (same_trans _ _ _ Hy). apply same_fold_add.
      apply same_sym, same_add_zero, Ezero. }
    cbv zeta. fold reset_data.
    set (row := (j + firstRow)%Z).
    set (data := DataModel.cellData model row column reset_data).
    destruct (names_registered row column) as [Hnonempty [r Hr]].
    change (cell_name model row column) with (DataModel.renderer data)
      in Hnonempty, Hr.
    set (fetch := negb (String.eqb (DataModel.renderer data)
                                   (rendererName c))).
    set (c' := if fetch then
                 {| rendererName := DataModel.renderer data;
                    renderer := cellRenderers !! DataModel.renderer data |}
               else c).
    assert (Hc' : renderer c' = Some r
                  /\ renderer c' = cellRenderers !! rendererName c').
    { unfold c', fetch.
      destruct (String.eqb (DataModel.renderer data) (rendererName c)) eqn:E;
        cbn [negb].
      - apply String.eqb_eq in E. destruct Hc as [-> | Hc].
        + cbn in E. contradiction.
        + rewrite Hc, <- E. split; [exact Hr | reflexivity].
      - split; [exact Hr | reflexivity]. }
    destruct Hc' as [Er Hfetched]. rewrite Er.
    destruct (IH (j + 1)%Z (add y height) c' (or_intror Hfetched))
      as (H1 & H2 & H3).
    destruct (_drawCells_rows _ _ _ _ _ _ rest _ _ c') as [c'' t].
    cbn [fst snd] in *. split; [exact H1|].
    split.
    + rewrite painted_cells_app, loaded_cells_app.
      destruct fetch; cbn; rewrite H2; reflexivity.
    + apply painted_by_app.
      * intros r0 config [Hin | Hin]; [discriminate Hin|].
        destruct fetch; [destruct Hin as [Hin | []]; discriminate Hin
                        | destruct Hin].
      * intros r0 config [Hin | Hin].
        -- injection Hin as _ <-. exists 0%nat.
           split; [cbn; unfold row; lia | apply same_refl].
        -- destruct (H3 r0 config Hin) as (k & Hrow & Hy).
           exists (S k). split; [lia | exact Hy].
Qed.

Lemma drawCells_columns_placed (startY : number) (rowSizes : list number)
    (rest : list number) :
  forall (i : Z) (x : number) (c : renderer_cache),
    cache_fetched cellRenderers c ->
    let res := _drawCells_columns model cellRenderers firstRow firstCol
                                  startY rowSizes rest i x c in
    cache_fetched cellRenderers (fst res)
    /\ map cell_of (painted_cells (snd res)) = loaded_cells (snd res)
    /\ painted_by
         (fun _ config =>
            exists k : nat,
              CellRenderer.row config = (Z.of_nat k + firstRow)%Z
              /\ same (CellRenderer.y config)
                      (fold_left add (take k rowSizes) startY))
         (snd res).
Proof.
  induction rest as [|width rest IH]; intros i x c Hc; cbn zeta.
  - split; [exact Hc|]. split; [reflexivity | apply painted_by_nil].
  - cbn [_drawCells_columns].
    destruct (strict_eq width zero); [apply IH; exact Hc|].
    pose proof (drawCells_rows_placed (i + firstCol) x width rowSizes
                  0 startY c Hc) as Hrows.
    cbn zeta in Hrows.
    destruct (_drawCells_rows _ _ _ _ _ _ rowSizes _ _ c) as [c' t].
    cbn [fst snd] in Hrows. destruct Hrows as (Hc' & Ht1 & Ht2).
    destruct (IH (i + 1)%Z (add x width) c' Hc') as (H1 & H2 & H3).
    destruct (_drawCells_columns _ _ _ _ _ _ rest _ _ c') as [c'' t'].
    cbn [fst snd] in *. split; [exact H1|].
    split.
    + rewrite painted_cells_app, loaded_cells_app, map_app, Ht1, H2.
      reflexivity.
    + apply painted_by_app; [|exact H3].
      revert Ht2. apply painted_by_weaken.
      intros _ config (k & Hrow & Hy). exists k. split; [lia | exact Hy].
Qed.

End PlacedCells.

(** X5. When every cell of the model names a registered renderer and
    none has the empty name, every cell the pass loads is painted, in
    the same order, and the y coordinate handed to the renderer is the
    same value as the region origin plus the sizes of all the rows
    before the cell's, added in order. *)
Theorem drawCells_y_is_sum_of_preceding_rows
    (model : DataModel.model)
    (cellRenderers : gmap string CellRenderer.ICellRenderer)
    (rgn : Private.IRegion) :
  (forall row column,
     cell_name model row column <> EmptyString
     /\ is_Some (cellRenderers !! cell_name model row column)) ->
  map cell_of (painted_cells (_drawCells model cellRenderers rgn))
  = loaded_cells (_drawCells model cellRenderers rgn)
  /\ forall r config,
       In (renderer_paint r config) (_drawCells model cellRenderers rgn) ->
       exists k : nat,
         CellRenderer.row config = (Private.firstRow rgn + Z.of_nat k)%Z
         /\ same (CellRenderer.y config)
                 (fold_left add (take k (Private.rowSizes rgn))
                            (Private.y rgn)).
Proof.
  intros Hreg. unfold _drawCells.
  destruct (drawCells_columns_placed model cellRenderers
              (Private.firstRow rgn) (Private.firstColumn rgn) Hreg
              (Private.y rgn) (Private.rowSizes rgn)
              (Private.columnSizes rgn) 0 (Private.x rgn)
              {| rendererName := EmptyString; renderer := None |}
              (or_introl eq_refl)) as (_ & H2 & H3).
  split; [exact H2|].
  intros r config Hin. destruct (H3 r config Hin) as (k & Hrow & Hy).
  exists k. split; [lia | exact Hy].
Qed.

Lemma drawCells_y_is_sum_of_preceding_rows_witness :
  map cell_of
      (painted_cells
         (_drawCells default_model default_renderers (region_at_origin 3 2)))
  = loaded_cells
      (_drawCells default_model default_renderers (region_at_origin 3 2)).
Proof.
  refine (proj1 (drawCells_y_is_sum_of_preceding_rows
                   default_model default_renderers (region_at_origin 3 2) _)).
  intros row column. split; [discriminate|].
  exists CellRenderer.SimpleCellRenderer. reflexivity.
Defined.

(** ** The clip of a paint *)

Lemma drawGridLines_vertical_no_clip (y1 y2 : number)
    (colSizes : list number) :
  forall x,
    forallb (fun o => negb (clip_op o))
            (_drawGridLines_vertical x y1 y2 colSizes) = true.
Proof.
  induction colSizes as [|s colSizes IH]; intros x; cbn; [reflexivity|].
  apply IH.
Qed.

Lemma drawGridLines_horizontal_no_clip (x1 x2 : number)
    (rowSizes : list number) :
  forall y,
    forallb (fun o => negb (clip_op o))
            (_drawGridLines_horizontal y x1 x2 rowSizes) = true.
Proof.
  induction rowSizes as [|s rowSizes IH]; intros y; cbn; [reflexivity|].
  apply IH.
Qed.

Lemma drawCells_rows_no_clip (model : DataModel.model)
    (cellRenderers : gmap string CellRenderer.ICellRenderer)
    (firstRow column : Z) (x width : number) (rest : list number) :
  forall (j : Z) (y : number) (c : renderer_cache),
    forallb (fun o => negb (clip_op o))
            (snd (_drawCells_rows model cellRenderers firstRow column x
                                  width rest j y c)) = true.
Proof.
  induction rest as [|height rest IH]; intros j y c; [reflexivity|].
  cbn [_drawCells_rows].
  destruct (strict_eq height zero); [apply IH|].
  cbv zeta.
  destruct (negb _);
    destruct (renderer _);
    match goal with
    | |- context [_drawCells_rows ?m ?cr ?fr ?col ?x0 ?w ?l ?j0 ?y0 ?c0] =>
        specialize (IH j0 y0 c0);
        destruct (_drawCells_rows m cr fr col x0 w l j0 y0 c0) as [c'' t]
    end;
    cbn [snd] in *; cbn; exact IH.
Qed.

Lemma drawCells_columns_no_clip (model : DataModel.model)
    (cellRenderers : gmap string CellRenderer.ICellRenderer)
    (firstRow firstCol : Z) (startY : number) (rowSizes : list number)
    (rest : list number) :
  forall (i : Z) (x : number) (c : renderer_cache),
    forallb (fun o => negb (clip_op o))
            (snd (_drawCells_columns model cellRenderers firstRow firstCol
                                     startY rowSizes rest i x c)) = true.
Proof.
  induction rest as [|width rest IH]; intros i x c; [reflexivity|].
  cbn [_drawCells_columns].
  destruct (strict_eq width zero); [apply IH|].
  pose proof (drawCells_rows_no_clip model cellRenderers firstRow
                (i + firstCol) x width rowSizes 0 startY c) as Hrows.
  destruct (_drawCells_rows _ _ _ _ _ _ rowSizes _ _ c) as [c' t].
  specialize (IH (i + 1)%Z (add x width) c').
  destruct (_drawCells_columns _ _ _ _ _ _ rest _ _ c') as [c'' t'].
  cbn [snd] in *. rewrite forallb_app, Hrows, IH. reflexivity.
Qed.

(** X6. A paint either stops after the void fill, or goes on with
    [save], a clip to the dirty rect, the drawing of the region and
    [restore] as its last call. None of the calls between the clip and
    that [restore] saves or restores the context or changes the clip:
    the background, the grid lines and every cell are drawn under the
    clip to the dirty rect, and the clip is removed at the end. *)
Theorem paint_draws_region_under_clip
    (this : GridCanvas) (rx ry rw rh : number) :
  exists body,
    forallb (fun o => negb (clip_op o)) body = true
    /\ (_paint this rx ry rw rh
        = [ gc_fillStyle "#D4D4D4"; gc_fillRect rx ry rw rh ]
        \/ _paint this rx ry rw rh
           = [ gc_fillStyle "#D4D4D4"; gc_fillRect rx ry rw rh;
               gc_save; gc_beginPath; gc_rect rx ry rw rh; gc_clip ]
             ++ body ++ [ gc_restore ]).
Proof.
  unfold _paint.
  destruct (_model this) as [model|];
    [|exists []; split; [reflexivity | left; reflexivity]].
  destruct (_rowHeader this) as [rowHeader|];
    [|exists []; split; [reflexivity | left; reflexivity]].
  destruct (_columnHeader this) as [columnHeader|];
    [|exists []; split; [reflexivity | left; reflexivity]].
  destruct (_paint_region this model rowHeader columnHeader rx ry rw rh)
    as [rgn|]; [|exists []; split; [reflexivity | left; reflexivity]].
  exists (_drawBackground rgn ++ _drawGridLines rgn
          ++ _drawCells model (_cellRenderers this) rgn).
  split.
  - rewrite !forallb_app. unfold _drawGridLines, _drawCells.
    rewrite !forallb_app, drawGridLines_vertical_no_clip,
            drawGridLines_horizontal_no_clip, drawCells_columns_no_clip.
    reflexivity.
  - right. cbn [app]. rewrite <- !app_assoc. reflexivity.
Qed.

(** ** What a scroll changes *)

Lemma with_canvas_id (this : GridCanvas) :
  with_canvas (_canvas this) this = this.
Proof. destruct this; reflexivity. Qed.

Lemma with_scroll_id (this : GridCanvas) :
  with_scroll (_scrollX this) (_scrollY this) this = this.
Proof. destruct this; reflexivity. Qed.

Lemma paint_with_canvas (c : Canvas.HTMLCanvasElement) (this : GridCanvas)
    (rx ry rw rh : number) :
  _paint (with_canvas c this) rx ry rw rh = _paint this rx ry rw rh.
Proof. reflexivity. Qed.

Lemma coerced_same (a b : number) : same a b -> coerced b -> coerced a.
Proof.
  destruct a, b; cbn; auto; try contradiction.
  intros H (z & Hz & Hq). exists z. split; [exact Hz|]. rewrite H. exact Hq.
Qed.

Lemma coerced_Math_max_round (a : number) :
  coerced (Math_max zero (Math_round a)).
Proof.
  pose proof (coerced_scroll_position a) as H.
  destruct (Math_max zero (Math_round a)); cbn; auto.
  destruct H as (n & Hn & ->). exists n. split; [exact Hn | reflexivity].
Qed.

(** Coercing a coerced coordinate gives the same coordinate. *)
Lemma coerced_fixed (a : number) :
  coerced a -> same (Math_max zero (Math_round a)) a.
Proof.
  destruct a as [| | |q]; cbn [coerced]; try contradiction; try exact (fun _ => I).
  intros (z & Hz & Hq). cbn [Math_round].
  assert (Hfloor : Qfloor (q + (1 # 2)) = z).
  { rewrite <- (Qfloor_half z). apply Qfloor_comp. rewrite Hq. reflexivity. }
  rewrite Hfloor, Math_max_zero_of_Z, Z.max_r by lia.
  cbn. symmetry. exact Hq.
Qed.

Section ScrollResult.

Variable raster : list op -> Q -> Q -> pixel.

Lemma paint_if_result (cond : bool) (this0 : GridCanvas)
    (c : Canvas.HTMLCanvasElement) (rx ry rw rh : number) :
  let res := paint_if raster cond (with_canvas c this0) rx ry rw rh in
  fst res = with_canvas (_canvas (fst res)) this0
  /\ Canvas.width (_canvas (fst res)) = Canvas.width c
  /\ Canvas.height (_canvas (fst res)) = Canvas.height c
  /\ snd res
     = if cond then [ paint_call rx ry rw rh (_paint this0 rx ry rw rh) ]
       else [].
Proof. destruct cond; cbn; repeat split; reflexivity. Qed.

(** The result of [scrollTo]: the state but for the position and the
    canvas, the position, the size of the canvas and the calls. *)
Lemma scrollTo_result (this : GridCanvas) (x y : number) :
  let x' := Math_max zero (Math_round x) in
  let y' := Math_max zero (Math_round y) in
  exists this' calls,
    scrollTo raster this x y = Some (this', calls)
    /\ this' = with_canvas (_canvas this')
                 (with_scroll (_scrollX this') (_scrollY this') this)
    /\ same (_scrollX this') x'
    /\ same (_scrollY this') y'
    /\ Canvas.width (_canvas this') = Canvas.width (_canvas this)
    /\ Canvas.height (_canvas this') = Canvas.height (_canvas this)
    /\ Forall (fun c =>
                 match c with
                 | paint_call rx ry rw rh ops =>
                     ops = _paint (with_scroll x' y' this) rx ry rw rh
                 | _ => True
                 end) calls
    /\ (isVisible this = false
        \/ Canvas.width (_canvas this) = 0%Z
        \/ Canvas.height (_canvas this) = 0%Z ->
        calls = [] /\ _canvas this' = _canvas this).
Proof.
  intros x' y'. unfold scrollTo. fold x' y'.
  destruct (strict_eq (sub x' (_scrollX this)) zero
            && strict_eq (sub y' (_scrollY this)) zero) eqn:E0.
  { apply andb_true_iff in E0 as [Ex Ey].
    exists this, []. split; [reflexivity|].
    split; [rewrite with_scroll_id, with_canvas_id; reflexivity|].
    split; [apply strict_eq_sub_zero; exact Ex|].
    split; [apply strict_eq_sub_zero; exact Ey|].
    repeat split; constructor. }
  set (this0 := with_scroll x' y' this).
  assert (Hplain : this0 = with_canvas (_canvas this0)
                             (with_scroll (_scrollX this0) (_scrollY this0)
                                          this)) by reflexivity.
  cbn [isVisible with_scroll this0].
  destruct (isVisible this) eqn:Hvis; cbn [negb].
  2:{ exists this0, []. split; [reflexivity|]. split; [exact Hplain|].
      split; [apply same_refl|]. split; [apply same_refl|].
      repeat split; constructor. }
  change (_canvas this0) with (_canvas this). rewrite !strict_eq_of_Z_zero.
  destruct ((Canvas.width (_canvas this) =? 0)%Z
            || (Canvas.height (_canvas this) =? 0)%Z) eqn:E1.
  { exists this0, []. split; [reflexivity|]. split; [exact Hplain|].
    split; [apply same_refl|]. split; [apply same_refl|].
    repeat split; constructor. }
  apply orb_false_iff in E1 as [Hw Hh]. apply Z.eqb_neq in Hw, Hh.
  assert (Hnot : true = false
                 \/ Canvas.width (_canvas this) = 0%Z
                 \/ Canvas.height (_canvas this) = 0%Z -> False).
  { intros [H | [H | H]]; [discriminate | |]; contradiction. }
  destruct (ge _ _ || ge _ _).
  { unfold paint. cbn beta iota zeta.
    eexists _, _. split; [reflexivity|].
    split; [reflexivity|]. split; [apply same_refl|].
    split; [apply same_refl|]. split; [reflexivity|]. split; [reflexivity|].
    split; [repeat constructor | intros H; destruct (Hnot H)]. }
  destruct (if lt (sub x' (_scrollX this)) zero then _ else _)
    as [[[[left_ right_] srcX] dstX] imgW].
  destruct (if lt (sub y' (_scrollY this)) zero then _ else _)
    as [[[[top_ bottom_] srcY] dstY] imgH].
  destruct (drawImage_some (_canvas this) (_canvas this)
              srcX srcY imgW imgH dstX dstY Hw Hh) as (c & -> & Wc & Hc).
  set (width := of_Z (Canvas.width (_canvas this))).
  set (height := of_Z (Canvas.height (_canvas this))).
  pose proof (paint_if_result (gt left_ zero) this0 c zero zero left_ height)
    as R1.
  destruct (paint_if raster (gt left_ zero) (with_canvas c this0) _ _ _ _)
    as [this1 p1].
  cbn [fst snd] in R1. destruct R1 as (E1 & W1 & H1 & C1). rewrite E1.
  pose proof (paint_if_result (gt right_ zero) this0 (_canvas this1)
                (sub width right_) zero right_ height) as R2.
  destruct (paint_if raster (gt right_ zero) _ _ _ _ _) as [this2 p2].
  cbn [fst snd] in R2. destruct R2 as (E2 & W2 & H2 & C2). rewrite E2.
  pose proof (paint_if_result (gt top_ zero) this0 (_canvas this2)
                left_ zero (sub (sub width left_) right_) top_) as R3.
  destruct (paint_if raster (gt top_ zero) _ _ _ _ _) as [this3 p3].
  cbn [fst snd] in R3. destruct R3 as (E3 & W3 & H3 & C3). rewrite E3.
  pose proof (paint_if_result (gt bottom_ zero) this0 (_canvas this3)
                left_ (sub height bottom_)
                (sub (sub width left_) right_) bottom_) as R4.
  destruct (paint_if raster (gt bottom_ zero) _ _ _ _ _) as [this4 p4].
  cbn [fst snd] in R4. destruct R4 as (E4 & W4 & H4 & C4).
  assert (Sx : _scrollX this4 = x') by (rewrite E4; reflexivity).
  assert (Sy : _scrollY this4 = y') by (rewrite E4; reflexivity).
  eexists _, _. split; [reflexivity|].
  rewrite Sx, Sy. split; [exact E4|].
  split; [apply same_refl|]. split; [apply same_refl|].
  split; [congruence|]. split; [congruence|].
  split; [|intros H; destruct (Hnot H)].
  constructor; [exact I|].
  rewrite C1, C2, C3, C4.
  destruct (gt left_ zero), (gt right_ zero), (gt top_ zero),
    (gt bottom_ zero); repeat constructor.
Qed.

End ScrollResult.

Lemma same_strict_eq_sub (s : number) (q : Q) :
  same s (Fin q) -> strict_eq (sub (Fin q) s) zero = true.
Proof.
  destruct s as [| | |p]; cbn [same]; try contradiction.
  intros H. cbn. apply Qeq_bool_iff. change (inject_Z 0) with 0%Q. lra.
Qed.

Lemma Math_max_round_Fin (q : Q) :
  exists p, Math_max zero (Math_round (Fin q)) = Fin p.
Proof.
  cbn [Math_round]. rewrite Math_max_zero_of_Z. eexists. reflexivity.
Qed.

Section ScrollExtras.

Variable raster : list op -> Q -> Q -> pixel.

(** X7. A scroll changes the stored position and the pixels of the
    canvas and nothing else: the buffer, the size of the canvas, the
    model, the headers, the renderer map, the visibility and the
    measured size of the node are those of before. *)
Theorem scrollTo_keeps_all_but_position_and_pixels
    (this : GridCanvas) (x y : number) :
  exists this' calls,
    scrollTo raster this x y = Some (this', calls)
    /\ _buffer this' = _buffer this
    /\ Canvas.width (_canvas this') = Canvas.width (_canvas this)
    /\ Canvas.height (_canvas this') = Canvas.height (_canvas this)
    /\ _model this' = _model this
    /\ _rowHeader this' = _rowHeader this
    /\ _columnHeader this' = _columnHeader this
    /\ _cellRenderers this' = _cellRenderers this
    /\ isVisible this' = isVisible this
    /\ offsetWidth this' = offsetWidth this
    /\ offsetHeight this' = offsetHeight this.
Proof.
  destruct (scrollTo_result raster this x y)
    as (this' & calls & Eq & Eframe & _ & _ & Hw & Hh & _).
  exists this', calls. split; [exact Eq|].
  split; [rewrite Eframe; reflexivity|].
  split; [exact Hw|]. split; [exact Hh|].
  repeat split; rewrite Eframe; reflexivity.
Qed.

(** X8. On a hidden widget, or on a canvas without area, a scroll moves
    the stored position and makes no call at all: no pixel of the
    canvas changes. *)
Theorem scrollTo_without_surface_only_moves
    (this : GridCanvas) (x y : number) :
  isVisible this = false
  \/ Canvas.width (_canvas this) = 0%Z
  \/ Canvas.height (_canvas this) = 0%Z ->
  exists this',
    scrollTo raster this x y = Some (this', [])
    /\ _canvas this' = _canvas this
    /\ same (_scrollX this') (Math_max zero (Math_round x))
    /\ same (_scrollY this') (Math_max zero (Math_round y)).
Proof.
  intros Hno.
  destruct (scrollTo_result raster this x y)
    as (this' & calls & Eq & _ & Hx & Hy & _ & _ & _ & Hnone).
  destruct (Hnone Hno) as [-> Hcanvas].
  exists this'. repeat split; assumption.
Qed.

(** X9. Every paint of a scroll is made with the new position already
    stored: the calls of each [_paint] are those of [_paint] on the same
    rect in the state that has the new position (they do not depend on
    the pixels of the canvas). *)
Theorem scrollTo_paints_at_new_position
    (this : GridCanvas) (x y : number) :
  exists this' calls,
    scrollTo raster this x y = Some (this', calls)
    /\ Forall (fun c =>
                 match c with
                 | paint_call rx ry rw rh ops =>
                     ops = _paint (with_scroll
                                     (Math_max zero (Math_round x))
                                     (Math_max zero (Math_round y)) this)
                                  rx ry rw rh
                 | _ => True
                 end) calls.
Proof.
  destruct (scrollTo_result raster this x y)
    as (this' & calls & Eq & _ & _ & _ & _ & _ & Hcalls & _).
  exists this', calls. split; assumption.
Qed.

(** X10. A scroll to a finite position, made twice, does nothing the
    second time: no call, and the state is the one the first left. *)
Theorem scrollTo_twice_is_once (this : GridCanvas) (qx qy : Q) :
  exists this' calls,
    scrollTo raster this (Fin qx) (Fin qy) = Some (this', calls)
    /\ scrollTo raster this' (Fin qx) (Fin qy) = Some (this', []).
Proof.
  destruct (scrollTo_result raster this (Fin qx) (Fin qy))
    as (this' & calls & Eq & _ & Hx & Hy & _).
  exists this', calls. split; [exact Eq|].
  cbn zeta in Hx, Hy.
  destruct (Math_max_round_Fin qx) as (px & Epx).
  destruct (Math_max_round_Fin qy) as (py & Epy).
  unfold scrollTo. rewrite Epx, Epy in *.
  rewrite (same_strict_eq_sub _ _ Hx), (same_strict_eq_sub _ _ Hy).
  reflexivity.
Qed.

(** X11. Assigning one scroll coordinate keeps the other, when the
    other is a coordinate that [scrollTo] could have stored: [scrollX =
    v] leaves [scrollY] the same value and [scrollY = v] leaves
    [scrollX] the same value. *)
Theorem set_scroll_keeps_other_coordinate (this : GridCanvas) (v : number) :
  (coerced (_scrollY this) ->
   exists this' calls,
     set_scrollX raster this v = Some (this', calls)
     /\ same (_scrollX this') (Math_max zero (Math_round v))
     /\ same (_scrollY this') (_scrollY this))
  /\ (coerced (_scrollX this) ->
      exists this' calls,
        set_scrollY raster this v = Some (this', calls)
        /\ same (_scrollX this') (_scrollX this)
        /\ same (_scrollY this') (Math_max zero (Math_round v))).
Proof.
  split; intros Hc.
  - destruct (scrollTo_result raster this v (_scrollY this))
      as (this' & calls & Eq & _ & Hx & Hy & _).
    exists this', calls. split; [exact Eq|]. split; [exact Hx|].
    exact (same_trans _ _ _ Hy (coerced_fixed _ Hc)).
  - destruct (scrollTo_result raster this (_scrollX this) v)
      as (this' & calls & Eq & _ & Hx & Hy & _).
    exists this', calls. split; [exact Eq|]. split; [|exact Hy].
    exact (same_trans _ _ _ Hx (coerced_fixed _ Hc)).
Qed.

(** X12. A scroll to [(NaN, NaN)] on a visible canvas with area stores
    [NaN] for both coordinates, draws the whole canvas onto itself and
    paints nothing: every pixel stays as it was, whatever the scroll
    position was before. *)
Theorem scrollTo_NaN_blits_canvas_onto_itself (this : GridCanvas) :
  isVisible this = true ->
  (0 < Canvas.width (_canvas this))%Z ->
  (0 < Canvas.height (_canvas this))%Z ->
  let width := of_Z (Canvas.width (_canvas this)) in
  let height := of_Z (Canvas.height (_canvas this)) in
  exists this',
    scrollTo raster this NaN NaN
    = Some (this',
            [ canvas_drawImage_canvas zero zero width height
                                      zero zero width height ])
    /\ _scrollX this' = NaN
    /\ _scrollY this' = NaN
    /\ forall px py,
         Canvas.pixel_at (_canvas this') px py
         = Canvas.pixel_at (_canvas this) px py.
Proof.
  intros Hvis HW HH width height.
  unfold scrollTo.
  change (Math_max zero (Math_round NaN)) with NaN.
  change (sub NaN (_scrollX this)) with NaN.
  change (sub NaN (_scrollY this)) with NaN.
  change (strict_eq NaN zero) with false. cbn [andb].
  cbn [isVisible with_scroll _canvas]. rewrite Hvis. cbn [negb].
  rewrite !strict_eq_of_Z_zero.
  rewrite (proj2 (Z.eqb_neq _ 0)), (proj2 (Z.eqb_neq _ 0)) by lia.
  change (lt NaN zero) with false. change (gt NaN zero) with false.
  change (ge (Math_abs NaN) width) with false.
  change (ge (Math_abs NaN) height) with false.
  cbn [orb]. cbv beta iota zeta.
  change (gt zero zero) with false. unfold paint_if. cbn [app].
  fold width height.
  assert (Hblit := drawImage_Fin (_canvas this) (_canvas this)
                     (inject_Z 0) (inject_Z 0) width height
                     (inject_Z 0) (inject_Z 0)).
  change (Fin (inject_Z 0)) with zero in Hblit.
  rewrite Hblit by lia. clear Hblit.
  eexists. split; [reflexivity|].
  split; [reflexivity|]. split; [reflexivity|].
  intros px py. unfold Canvas.pixel_at at 1.
  cbn [_canvas with_canvas Canvas.pixels].
  set (rpx := Qred px). set (rpy := Qred py).
  assert (Hsame : Canvas.pixel_at (_canvas this)
                    (rpx - inject_Z 0 + inject_Z 0)
                    (rpy - inject_Z 0 + inject_Z 0)
                  = Canvas.pixel_at (_canvas this) px py).
  { apply pixel_Qeq; change (inject_Z 0) with 0%Q.
    - unfold rpx. rewrite (Qred_correct px). lra.
    - unfold rpy. rewrite (Qred_correct py). lra. }
  rewrite Hsame. unfold Canvas.pixel_at. fold rpx rpy.
  destruct (_ && _ && _); [|reflexivity].
  destruct (Canvas.pixels (_canvas this) rpx rpy); reflexivity.
Qed.

End ScrollExtras.

Lemma scrollTo_without_surface_only_moves_witness :
  exists this',
    scrollTo flat_raster new_GridCanvas (of_Z 10) (Fin (-7 # 2))
    = Some (this', [])
    /\ _canvas this' = _canvas new_GridCanvas
    /\ same (_scrollX this') (of_Z 10)
    /\ same (_scrollY this') (of_Z 0).
Proof.
  apply (scrollTo_without_surface_only_moves flat_raster new_GridCanvas
           (of_Z 10) (Fin (-7 # 2))).
  left. reflexivity.
Defined.

Lemma set_scroll_keeps_other_coordinate_witness :
  (exists this' calls,
     set_scrollX flat_raster (bare_canvas 100 60 5 7) (of_Z 30)
     = Some (this', calls)
     /\ same (_scrollX this') (of_Z 30)
     /\ same (_scrollY this') (of_Z 7))
  /\ (exists this' calls,
        set_scrollY flat_raster (bare_canvas 100 60 5 7) (of_Z 30)
        = Some (this', calls)
        /\ same (_scrollX this') (of_Z 5)
        /\ same (_scrollY this') (of_Z 30)).
Proof.
  destruct (set_scroll_keeps_other_coordinate flat_raster
              (bare_canvas 100 60 5 7) (of_Z 30)) as [Hx Hy].
  split.
  - apply Hx. exists 7%Z. split; [lia | reflexivity].
  - apply Hy. exists 5%Z. split; [lia | reflexivity].
Defined.

Lemma scrollTo_NaN_blits_canvas_onto_itself_witness :
  exists this',
    scrollTo flat_raster (bare_canvas 100 60 5 7) NaN NaN
    = Some (this',
            [ canvas_drawImage_canvas zero zero (of_Z 100) (of_Z 60)
                                      zero zero (of_Z 100) (of_Z 60) ])
    /\ _scrollX this' = NaN
    /\ _scrollY this' = NaN
    /\ forall px py,
         Canvas.pixel_at (_canvas this') px py
         = Canvas.pixel_at (_canvas (bare_canvas 100 60 5 7)) px py.
Proof.
  apply (scrollTo_NaN_blits_canvas_onto_itself flat_raster
           (bare_canvas 100 60 5 7)); reflexivity.
Defined.

(** ** Update and fit requests *)

Section UpdateAndFit.

Variable raster : list op -> Q -> Q -> pixel.

Lemma rect_has_canvas (c : Canvas.HTMLCanvasElement) (px py : Q) :
  (0 <= Canvas.width c)%Z -> (0 <= Canvas.height c)%Z ->
  Canvas.rect_has zero zero (of_Z (Canvas.width c)) (of_Z (Canvas.height c))
                  px py
  = Canvas.inside c px py.
Proof.
  intros Hw Hh. change zero with (of_Z 0).
  rewrite rect_has_of_Z by assumption. reflexivity.
Qed.

Lemma draw_within_whole (c : Canvas.HTMLCanvasElement)
    (shade : Q -> Q -> pixel) (px py : Q) :
  (0 <= Canvas.width c)%Z -> (0 <= Canvas.height c)%Z ->
  Canvas.inside c px py = true ->
  Canvas.pixel_at
    (Canvas.draw_within zero zero (of_Z (Canvas.width c))
                        (of_Z (Canvas.height c)) shade c) px py
  = shade (Qred px) (Qred py).
Proof.
  intros Hw Hh Hin. unfold Canvas.pixel_at, Canvas.draw_within.
  cbn [Canvas.pixels]. rewrite rect_has_canvas by assumption.
  rewrite (inside_Qeq _ _ _ px py (Qred_correct px) (Qred_correct py)), Hin.
  reflexivity.
Qed.

(** [onUpdateRequest] on a visible canvas with area. *)
Lemma onUpdateRequest_visible (this : GridCanvas) :
  isVisible this = true ->
  Canvas.width (_canvas this) <> 0%Z ->
  Canvas.height (_canvas this) <> 0%Z ->
  let width := of_Z (Canvas.width (_canvas this)) in
  let height := of_Z (Canvas.height (_canvas this)) in
  let ops := _paint this zero zero width height in
  onUpdateRequest raster this
  = (with_canvas
       (Canvas.draw_within zero zero width height (raster ops)
                           (_canvas this)) this,
     [ paint_call zero zero width height ops ]).
Proof.
  intros Hvis HW HH width height ops. unfold onUpdateRequest.
  rewrite Hvis. cbn [negb]. rewrite !strict_eq_of_Z_zero.
  rewrite (proj2 (Z.eqb_neq _ 0) HW), (proj2 (Z.eqb_neq _ 0) HH).
  reflexivity.
Qed.

(** [onUpdateRequest] on a hidden canvas or one without area. *)
Lemma onUpdateRequest_idle (this : GridCanvas) :
  isVisible this = false
  \/ ((Canvas.width (_canvas this) =? 0)%Z
      || (Canvas.height (_canvas this) =? 0)%Z) = true ->
  onUpdateRequest raster this = (this, []).
Proof.
  intros H. unfold onUpdateRequest.
  destruct (isVisible this); [|reflexivity].
  destruct H as [H | H]; [discriminate|].
  cbn [negb]. rewrite !strict_eq_of_Z_zero, H. reflexivity.
Qed.

(** X13. An update request on a visible canvas with area makes one
    call, the paint of the whole canvas, and every pixel of the canvas
    is drawn anew by that paint; the position, the buffer and the size
    of the canvas are kept. *)
Theorem onUpdateRequest_repaints_whole_canvas (this : GridCanvas) :
  isVisible this = true ->
  (0 < Canvas.width (_canvas this))%Z ->
  (0 < Canvas.height (_canvas this))%Z ->
  let width := of_Z (Canvas.width (_canvas this)) in
  let height := of_Z (Canvas.height (_canvas this)) in
  let ops := _paint this zero zero width height in
  exists this',
    onUpdateRequest raster this
    = (this', [ paint_call zero zero width height ops ])
    /\ this' = with_canvas (_canvas this') this
    /\ Canvas.width (_canvas this') = Canvas.width (_canvas this)
    /\ Canvas.height (_canvas this') = Canvas.height (_canvas this)
    /\ forall px py,
         Canvas.inside (_canvas this) px py = true ->
         Canvas.pixel_at (_canvas this') px py
         = raster ops (Qred px) (Qred py).
Proof.
  intros Hvis HW HH width height ops.
  rewrite (onUpdateRequest_visible this Hvis) by lia.
  eexists. split; [reflexivity|].
  split; [reflexivity|]. split; [reflexivity|]. split; [reflexivity|].
  intros px py Hin. cbn [_canvas with_canvas].
  apply draw_within_whole; [lia | lia | exact Hin].
Qed.

(** X14. A second update request, right after a first, makes the same
    calls and leaves every pixel as the first left it. *)
Theorem onUpdateRequest_twice_is_once (this : GridCanvas) :
  let first := onUpdateRequest raster this in
  let second := onUpdateRequest raster (fst first) in
  snd second = snd first
  /\ forall px py,
       Canvas.pixel_at (_canvas (fst second)) px py
       = Canvas.pixel_at (_canvas (fst first)) px py.
Proof.
  cbn zeta.
  destruct (isVisible this) eqn:Hvis.
  2:{ rewrite !(onUpdateRequest_idle this) by (left; exact Hvis).
      cbn [fst snd].
      rewrite !(onUpdateRequest_idle this) by (left; exact Hvis).
      split; reflexivity. }
  destruct ((Canvas.width (_canvas this) =? 0)%Z
            || (Canvas.height (_canvas this) =? 0)%Z) eqn:E.
  { rewrite !(onUpdateRequest_idle this) by (right; exact E).
    cbn [fst snd].
    rewrite !(onUpdateRequest_idle this) by (right; exact E).
    split; reflexivity. }
  apply orb_false_iff in E as [Ew Eh]. apply Z.eqb_neq in Ew, Eh.
  rewrite (onUpdateRequest_visible this Hvis Ew Eh). cbn [fst snd].
  erewrite onUpdateRequest_visible; [| exact Hvis | exact Ew | exact Eh].
  cbn [fst snd _canvas with_canvas Canvas.draw_within Canvas.width
       Canvas.height].
  split; [reflexivity|].
  intros px py. unfold Canvas.pixel_at, Canvas.draw_within, Canvas.inside.
  cbn [Canvas.pixels Canvas.width Canvas.height].
  rewrite paint_with_canvas.
  destruct (Canvas.rect_has _ _ _ _ _ _ && _); reflexivity.
Qed.

(** X15. A fit request on a visible widget gives the buffer and the
    canvas the measured size of the node and clears both; the buffer
    stays cleared, and the canvas, when it has area, is painted whole
    by one paint: no pixel of before the fit is kept. Without area no
    call is made. *)
Theorem onFitRequest_resizes_clears_and_repaints
    (this : GridCanvas) (w h : Z) :
  isVisible this = true ->
  offsetWidth this = of_Z w -> offsetHeight this = of_Z h ->
  (0 <= w <= 2147483647)%Z -> (0 <= h <= 2147483647)%Z ->
  let ops := _paint this zero zero (of_Z w) (of_Z h) in
  exists this',
    onFitRequest raster this
    = (this',
       if ((0 <? w) && (0 <? h))%Z
       then [ paint_call zero zero (of_Z w) (of_Z h) ops ] else [])
    /\ Canvas.width (_canvas this') = w
    /\ Canvas.height (_canvas this') = h
    /\ Canvas.width (_buffer this') = w
    /\ Canvas.height (_buffer this') = h
    /\ (forall px py, Canvas.pixel_at (_buffer this') px py = transparent)
    /\ (forall px py,
          Canvas.inside (_canvas this') px py = true ->
          Canvas.pixel_at (_canvas this') px py
          = raster ops (Qred px) (Qred py)).
Proof.
  intros Hvis Ew Eh Hw Hh ops. unfold onFitRequest.
  rewrite Hvis, Ew, Eh, !Math_round_of_Z. cbn [negb].
  set (buffer := Canvas.set_height (of_Z h)
                   (Canvas.set_width (of_Z w) (_buffer this))).
  set (canvas := Canvas.set_height (of_Z h)
                   (Canvas.set_width (of_Z w) (_canvas this))).
  assert (Hcw : Canvas.width canvas = w).
  { unfold canvas, Canvas.set_height, Canvas.set_width. cbn [Canvas.width].
    apply reflect_unsigned_long_of_Z, Hw. }
  assert (Hch : Canvas.height canvas = h).
  { unfold canvas, Canvas.set_height, Canvas.set_width. cbn [Canvas.height].
    apply reflect_unsigned_long_of_Z, Hh. }
  assert (Hbw : Canvas.width buffer = w).
  { unfold buffer, Canvas.set_height, Canvas.set_width. cbn [Canvas.width].
    apply reflect_unsigned_long_of_Z, Hw. }
  assert (Hbh : Canvas.height buffer = h).
  { unfold buffer, Canvas.set_height, Canvas.set_width. cbn [Canvas.height].
    apply reflect_unsigned_long_of_Z, Hh. }
  assert (Hbuf : forall px py, Canvas.pixel_at buffer px py = transparent)
    by reflexivity.
  set (this0 := with_canvas canvas (with_buffer buffer this)).
  destruct ((0 <? w) && (0 <? h))%Z eqn:Earea.
  - apply andb_true_iff in Earea as [E1 E2]. apply Z.ltb_lt in E1, E2.
    rewrite (onUpdateRequest_visible this0 Hvis)
      by (cbn [_canvas this0 with_canvas]; lia).
    cbn [_canvas this0 with_canvas].
    change (_paint this0) with (_paint this).
    eexists. split; [rewrite Hcw, Hch; reflexivity|].
    cbn [_canvas _buffer with_canvas with_buffer Canvas.draw_within
         Canvas.width Canvas.height].
    repeat (split; [assumption|]).
    intros px py Hin. unfold ops. rewrite <- Hcw, <- Hch.
    apply draw_within_whole; [lia | lia | exact Hin].
  - exists this0. unfold onUpdateRequest.
    cbn [isVisible this0 with_canvas with_buffer _canvas]. rewrite Hvis.
    cbn [negb]. rewrite !strict_eq_of_Z_zero, Hcw, Hch.
    assert (Ezero : ((w =? 0) || (h =? 0))%Z = true).
    { apply andb_false_iff in Earea as [E | E]; apply Z.ltb_ge in E;
        apply orb_true_iff; [left | right]; apply Z.eqb_eq; lia. }
    rewrite Ezero. split; [reflexivity|].
    cbn [_canvas _buffer this0 with_canvas with_buffer].
    repeat (split; [first [assumption | reflexivity]|]).
    intros px py Hin. apply inside_positive in Hin.
    rewrite Hcw, Hch in Hin.
    apply orb_true_iff in Ezero as [E | E]; apply Z.eqb_eq in E; lia.
Qed.

End UpdateAndFit.

Lemma onUpdateRequest_repaints_whole_canvas_witness :
  exists this',
    onUpdateRequest flat_raster grid_3x2
    = (this',
       [ paint_call zero zero (of_Z 100) (of_Z 60)
           (_paint grid_3x2 zero zero (of_Z 100) (of_Z 60)) ])
    /\ Canvas.pixel_at (_canvas this') 99 59 = opaque 16777215.
Proof.
  destruct (onUpdateRequest_repaints_whole_canvas flat_raster grid_3x2
              eq_refl eq_refl eq_refl)
    as (this' & Eq & _ & _ & _ & Hpix).
  exists this'. split; [exact Eq|].
  exact (Hpix 99%Q 59%Q eq_refl).
Defined.

Lemma onFitRequest_resizes_clears_and_repaints_witness :
  exists this',
    onFitRequest flat_raster (bare_canvas 100 60 5 7)
    = (this',
       [ paint_call zero zero (of_Z 100) (of_Z 60)
           (_paint (bare_canvas 100 60 5 7) zero zero (of_Z 100)
                   (of_Z 60)) ])
    /\ Canvas.width (_canvas this') = 100%Z
    /\ Canvas.pixel_at (_buffer this') 3 4 = transparent.
Proof.
  destruct (onFitRequest_resizes_clears_and_repaints flat_raster
              (bare_canvas 100 60 5 7) 100 60
              eq_refl eq_refl eq_refl ltac:(lia) ltac:(lia))
    as (this' & Eq & Hw & _ & _ & _ & Hbuf & _).
  exists this'. split; [exact Eq|]. split; [exact Hw | apply Hbuf].
Defined.

(** ** Resizing: what is painted *)

Ltac split_axis p a b :=
  destruct (Qlt_le_dec p 0);
  [| destruct (Qlt_le_dec p a), (Qlt_le_dec p b)].

(** The right and bottom margins of a resize cover the points of the new
    canvas that the old one did not have, each once. *)
Lemma resize_margins_cover (W H W' H' : Z) (px py : Q) :
  (0 <= W)%Z -> (0 <= H)%Z -> (0 <= W')%Z -> (0 <= H')%Z ->
  let right_ := Z.max 0 (W' - W) in
  let bottom_ := Z.max 0 (H' - H) in
  (((if ((0 <? right_)%Z
         && Canvas.rect_has (of_Z W) zero (of_Z right_) (of_Z H') px py)
     then 1 else 0)
    + (if ((0 <? bottom_)%Z
           && Canvas.rect_has zero (of_Z H) (of_Z (W' - right_))
                              (of_Z bottom_) px py)
       then 1 else 0))%nat
   = if (Qle_bool 0 px && Qltb px (inject_Z W')
         && Qle_bool 0 py && Qltb py (inject_Z H'))
        && negb (Qle_bool 0 px && Qltb px (inject_Z W)
                 && Qle_bool 0 py && Qltb py (inject_Z H))
     then 1%nat else 0%nat).
Proof.
  intros HW HH HW' HH' right_ bottom_.
  assert (Hr : (right_ = 0 /\ W' <= W \/ right_ = W' - W /\ W < W')%Z)
    by (unfold right_; lia).
  assert (Hb : (bottom_ = 0 /\ H' <= H \/ bottom_ = H' - H /\ H < H')%Z)
    by (unfold bottom_; lia).
  clearbody right_ bottom_.
  change zero with (of_Z 0).
  assert (Qw : (0 <= inject_Z W)%Q)
    by (change 0%Q with (inject_Z 0); rewrite <- Zle_Qle; lia).
  assert (Qh : (0 <= inject_Z H)%Q)
    by (change 0%Q with (inject_Z 0); rewrite <- Zle_Qle; lia).
  assert (Qw' : (0 <= inject_Z W')%Q)
    by (change 0%Q with (inject_Z 0); rewrite <- Zle_Qle; lia).
  assert (Qh' : (0 <= inject_Z H')%Q)
    by (change 0%Q with (inject_Z 0); rewrite <- Zle_Qle; lia).
  destruct Hr as [[-> Hr] | [-> Hr]], Hb as [[-> Hb] | [-> Hb]];
    change (0 <? 0)%Z with false;
    rewrite ?(proj2 (Z.ltb_lt 0 (W' - W))), ?(proj2 (Z.ltb_lt 0 (H' - H)))
      by lia;
    cbn [andb]; rewrite ?rect_has_of_Z by lia;
    rewrite ?Z.sub_0_r, ?Z.add_0_l, ?Zplus_minus;
    replace (W' - (W' - W))%Z with W by lia;
    change (inject_Z 0) with 0%Q.
  - assert (Ow : (inject_Z W' <= inject_Z W)%Q) by (rewrite <- Zle_Qle; lia).
    assert (Oh : (inject_Z H' <= inject_Z H)%Q) by (rewrite <- Zle_Qle; lia).
    revert Qw Qh Qw' Qh' Ow Oh.
    generalize (inject_Z W), (inject_Z H), (inject_Z W'), (inject_Z H').
    intros w h w' h' Qw Qh Qw' Qh' Ow Oh.
    split_axis px w' w; split_axis py h' h;
      try (exfalso; lra); repeat decide_atom; reflexivity.
  - assert (Ow : (inject_Z W' <= inject_Z W)%Q) by (rewrite <- Zle_Qle; lia).
    assert (Oh : (inject_Z H < inject_Z H')%Q) by (rewrite <- Zlt_Qlt; lia).
    revert Qw Qh Qw' Qh' Ow Oh.
    generalize (inject_Z W), (inject_Z H), (inject_Z W'), (inject_Z H').
    intros w h w' h' Qw Qh Qw' Qh' Ow Oh.
    split_axis px w' w; split_axis py h h';
      try (exfalso; lra); repeat decide_atom; reflexivity.
  - assert (Ow : (inject_Z W < inject_Z W')%Q) by (rewrite <- Zlt_Qlt; lia).
    assert (Oh : (inject_Z H' <= inject_Z H)%Q) by (rewrite <- Zle_Qle; lia).
    revert Qw Qh Qw' Qh' Ow Oh.
    generalize (inject_Z W), (inject_Z H), (inject_Z W'), (inject_Z H').
    intros w h w' h' Qw Qh Qw' Qh' Ow Oh.
    split_axis px w w'; split_axis py h' h;
      try (exfalso; lra); repeat decide_atom; reflexivity.
  - assert (Ow : (inject_Z W < inject_Z W')%Q) by (rewrite <- Zlt_Qlt; lia).
    assert (Oh : (inject_Z H < inject_Z H')%Q) by (rewrite <- Zlt_Qlt; lia).
    revert Qw Qh Qw' Qh' Ow Oh.
    generalize (inject_Z W), (inject_Z H), (inject_Z W'), (inject_Z H').
    intros w h w' h' Qw Qh Qw' Qh' Ow Oh.
    split_axis px w w'; split_axis py h h';
      try (exfalso; lra); repeat decide_atom; reflexivity.
Qed.

Section ResizeExtras.

Variable raster : list op -> Q -> Q -> pixel.

Lemma paint_if_pixel_at_inside (this : GridCanvas)
    (rx ry rw rh : number) (px py : Q) :
  Canvas.rect_has rx ry rw rh px py = true ->
  Canvas.inside (_canvas this) px py = true ->
  Canvas.pixel_at (_canvas (fst (paint_if raster true this rx ry rw rh)))
                  px py
  = raster (_paint this rx ry rw rh) (Qred px) (Qred py).
Proof.
  intros Hr Hin. unfold Canvas.pixel_at, paint_if, paint.
  cbn [fst _canvas with_canvas Canvas.draw_within Canvas.pixels].
  rewrite (rect_has_Qeq _ _ _ _ _ _ px py
             (Qred_correct px) (Qred_correct py)), Hr.
  rewrite (inside_Qeq _ _ _ px py (Qred_correct px) (Qred_correct py)), Hin.
  reflexivity.
Qed.

(** X16. A resize of a visible canvas paints each point that the new
    canvas has and the old one had not exactly once, and no other
    point; a resize that grows neither dimension paints nothing. *)
Theorem onResize_paints_new_area_once (this : GridCanvas) (W' H' : Z) :
  isVisible this = true ->
  (0 <= W' <= 2147483647)%Z -> (0 <= H' <= 2147483647)%Z ->
  (0 <= Canvas.width (_canvas this))%Z ->
  (0 <= Canvas.height (_canvas this))%Z ->
  exists this' calls,
    onResize raster this
      {| ResizeMessage.width := of_Z W'; ResizeMessage.height := of_Z H' |}
    = Some (this', calls)
    /\ Canvas.width (_canvas this') = W'
    /\ Canvas.height (_canvas this') = H'
    /\ (forall px py,
          cover_count (painted_rects calls) px py
          = if Canvas.inside (_canvas this') px py
               && negb (Canvas.inside (_canvas this) px py)
            then 1%nat else 0%nat)
    /\ ((W' <= Canvas.width (_canvas this))%Z ->
        (H' <= Canvas.height (_canvas this))%Z ->
        painted_rects calls = []).
Proof.
  intros Hvis HW' HH' HW HH.
  destruct (onResize_visible raster this W' H' Hvis HW' HH' HW HH)
    as (this' & ops1 & ops2 & Eq & Hcw & Hch & _).
  eexists _, _. split; [exact Eq|].
  split; [exact Hcw|]. split; [exact Hch|].
  rewrite !painted_rects_app.
  assert (Hblits : forall b : bool,
            painted_rects
              (if b then [ buffer_drawImage_canvas zero zero;
                           canvas_drawImage_buffer zero zero ]
               else []) = []) by (intros []; reflexivity).
  rewrite Hblits. cbn [app]. split.
  - intros px py. rewrite cover_count_app, !cover_count_single.
    rewrite !inside_spec, Hcw, Hch.
    apply resize_margins_cover; lia.
  - intros Lw Lh. rewrite Z.max_l, Z.max_l by lia. reflexivity.
Qed.

(** X17. After a resize of a visible canvas every point that the new
    canvas has and the old one had not shows what a paint left there:
    the paint of the right margin from the old width on, the paint of
    the bottom margin left of it. *)
Theorem onResize_new_area_is_painted (this : GridCanvas) (W' H' : Z) :
  isVisible this = true ->
  (0 <= W' <= 2147483647)%Z -> (0 <= H' <= 2147483647)%Z ->
  let W := Canvas.width (_canvas this) in
  let H := Canvas.height (_canvas this) in
  (0 <= W)%Z -> (0 <= H)%Z ->
  let right_ := Z.max 0 (W' - W) in
  let bottom_ := Z.max 0 (H' - H) in
  let ops1 := _paint this (of_Z W) zero (of_Z right_) (of_Z H') in
  let ops2 :=
    _paint this zero (of_Z H) (of_Z (W' - right_)) (of_Z bottom_) in
  exists this' calls,
    onResize raster this
      {| ResizeMessage.width := of_Z W'; ResizeMessage.height := of_Z H' |}
    = Some (this', calls)
    /\ Canvas.width (_canvas this') = W'
    /\ Canvas.height (_canvas this') = H'
    /\ forall px py,
         Canvas.inside (_canvas this') px py = true ->
         Canvas.inside (_canvas this) px py = false ->
         Canvas.pixel_at (_canvas this') px py
         = raster (if Qle_bool (inject_Z W) px then ops1 else ops2)
                  (Qred px) (Qred py).
Proof.
  intros Hvis HW' HH' W H HW HH right_ bottom_ ops1 ops2.
  unfold onResize. rewrite Hvis. cbn [negb ResizeMessage.width
    ResizeMessage.height].
  rewrite !strict_eq_of_Z.
  rewrite (proj2 (Z.eqb_neq W' (-1))), (proj2 (Z.eqb_neq H' (-1))) by lia.
  rewrite !Math_round_of_Z, !gt_of_Z_zero. fold W H.
  rewrite !sub_of_Z, !Math_max_zero_of_Z, !gt_of_Z_zero.
  fold right_ bottom_. rewrite !sub_of_Z.
  set (needBlit := ((0 <? W) && (0 <? H) && (0 <? W') && (0 <? H'))%Z).
  set (buffer1 := Canvas.set_height (of_Z H')
                    (Canvas.set_width (of_Z W') (_buffer this))).
  set (canvas1 := Canvas.set_height (of_Z H')
                    (Canvas.set_width (of_Z W') (_canvas this))).
  assert (Hb1 : Canvas.width buffer1 = W' /\ Canvas.height buffer1 = H').
  { unfold buffer1, Canvas.set_height, Canvas.set_width.
    cbn [Canvas.width Canvas.height].
    rewrite !reflect_unsigned_long_of_Z by lia. auto. }
  assert (Hc1 : Canvas.width canvas1 = W' /\ Canvas.height canvas1 = H').
  { unfold canvas1, Canvas.set_height, Canvas.set_width.
    cbn [Canvas.width Canvas.height].
    rewrite !reflect_unsigned_long_of_Z by lia. auto. }
  destruct Hb1 as (Hb1w & Hb1h), Hc1 as (Hc1w & Hc1h).
  assert (Hround : exists buffer2 canvas2,
    (if needBlit then Canvas.drawImage_at buffer1 (_canvas this) zero zero
     else Some buffer1) = Some buffer2
    /\ (if needBlit then Canvas.drawImage_at canvas1 buffer2 zero zero
        else Some canvas1) = Some canvas2
    /\ Canvas.width canvas2 = W' /\ Canvas.height canvas2 = H').
  { destruct needBlit eqn:Eblit.
    - unfold needBlit in Eblit.
      apply andb_true_iff in Eblit as [Eblit E4].
      apply andb_true_iff in Eblit as [Eblit E3].
      apply andb_true_iff in Eblit as [E1 E2].
      apply Z.ltb_lt in E1, E2, E3, E4.
      unfold Canvas.drawImage_at.
      destruct (drawImage_some buffer1 (_canvas this) zero zero
                  (of_Z (Canvas.width (_canvas this)))
                  (of_Z (Canvas.height (_canvas this))) zero zero)
        as (buffer2 & Eb & Hb2w & Hb2h); try (fold W H; lia).
      rewrite Eb.
      destruct (drawImage_some canvas1 buffer2 zero zero
                  (of_Z (Canvas.width buffer2))
                  (of_Z (Canvas.height buffer2)) zero zero)
        as (canvas2 & Ec & Hc2w & Hc2h); try lia.
      exists buffer2, canvas2. rewrite Ec, Hc2w, Hc2h.
      repeat split; assumption.
    - exists buffer1, canvas1. repeat split; assumption. }
  destruct Hround as (buffer2 & canvas2 & -> & -> & Hc2w & Hc2h).
  set (base := with_buffer buffer2 this).
  pose proof (paint_if_result raster (0 <? right_)%Z base canvas2
                (of_Z W) zero (of_Z right_) (of_Z H')) as R1.
  pose proof (fun px py =>
                paint_if_pixel_at_outside raster (0 <? right_)%Z
                  (with_canvas canvas2 base)
                  (of_Z W) zero (of_Z right_) (of_Z H') px py) as O1.
  assert (I1 : (0 <? right_)%Z = true -> forall px py,
            Canvas.rect_has (of_Z W) zero (of_Z right_) (of_Z H') px py
            = true ->
            Canvas.inside canvas2 px py = true ->
            Canvas.pixel_at
              (_canvas (fst (paint_if raster (0 <? right_)%Z
                               (with_canvas canvas2 base)
                               (of_Z W) zero (of_Z right_) (of_Z H'))))
              px py
            = raster ops1 (Qred px) (Qred py)).
  { intros -> px py Hr Hin.
    apply (paint_if_pixel_at_inside (with_canvas canvas2 base));
      assumption. }
  cbn zeta in R1.
  destruct (paint_if raster (0 <? right_)%Z (with_canvas canvas2 base)
              (of_Z W) zero (of_Z right_) (of_Z H')) as [this1 p1].
  cbn [fst snd] in R1, O1, I1. destruct R1 as (T1 & W1 & H1 & _).
  assert (P1 : forall a b c d, _paint this1 a b c d = _paint this a b c d)
    by (intros; rewrite T1; reflexivity).
  pose proof (paint_if_frame raster (0 <? bottom_)%Z this1
                zero (of_Z H) (of_Z (W' - right_)) (of_Z bottom_)) as F2.
  pose proof (fun px py =>
                paint_if_pixel_at_outside raster (0 <? bottom_)%Z this1
                  zero (of_Z H) (of_Z (W' - right_)) (of_Z bottom_) px py)
    as O2.
  assert (I2 : (0 <? bottom_)%Z = true -> forall px py,
            Canvas.rect_has zero (of_Z H) (of_Z (W' - right_))
                            (of_Z bottom_) px py = true ->
            Canvas.inside (_canvas this1) px py = true ->
            Canvas.pixel_at
              (_canvas (fst (paint_if raster (0 <? bottom_)%Z this1
                               zero (of_Z H) (of_Z (W' - right_))
                               (of_Z bottom_))))
              px py
            = raster ops2 (Qred px) (Qred py)).
  { intros -> px py Hr Hin. unfold ops2. rewrite <- P1.
    apply paint_if_pixel_at_inside; assumption. }
  cbn zeta in F2.
  destruct (paint_if raster (0 <? bottom_)%Z this1
              zero (of_Z H) (of_Z (W' - right_)) (of_Z bottom_))
    as [this2 p2].
  cbn [fst snd] in F2, O2, I2. destruct F2 as (_ & _ & _ & W2 & H2).
  eexists _, _. split; [reflexivity|].
  split; [rewrite W2, W1; exact Hc2w|].
  split; [rewrite H2, H1; exact Hc2h|].
  intros px py Hin Hout.
  rewrite inside_spec in Hin, Hout. fold W H in Hout.
  rewrite W2, W1, Hc2w, H2, H1, Hc2h in Hin.
  apply andb_true_iff in Hin as [Hin D4].
  apply andb_true_iff in Hin as [Hin D3].
  apply andb_true_iff in Hin as [D1 D2].
  rewrite D1, D3 in Hout. cbn [andb] in Hout.
  rewrite andb_true_r in Hout.
  assert (Qw : (0 <= inject_Z W)%Q)
    by (change 0%Q with (inject_Z 0); rewrite <- Zle_Qle; lia).
  assert (Qh : (0 <= inject_Z H)%Q)
    by (change 0%Q with (inject_Z 0); rewrite <- Zle_Qle; lia).
  assert (Hin1 : forall c, Canvas.width c = W' -> Canvas.height c = H' ->
                           Canvas.inside c px py = true).
  { intros c Ew Eh. rewrite inside_spec, Ew, Eh, D1, D2, D3, D4.
    reflexivity. }
  apply Qle_bool_iff in D1, D3. apply Qltb_lt in D2, D4.
  change zero with (of_Z 0) in O1, O2, I1, I2.
  destruct (Qle_bool (inject_Z W) px) eqn:Epx.
  - apply Qle_bool_iff in Epx.
    assert (Lw : (W < W')%Z) by (rewrite Zlt_Qlt; lra).
    assert (Er : right_ = (W' - W)%Z) by (unfold right_; lia).
    rewrite O2.
    + apply I1; [apply Z.ltb_lt; lia | | apply Hin1; assumption].
      rewrite rect_has_of_Z by lia.
      rewrite Er, Zplus_minus, Z.add_0_l.
      change (inject_Z 0) with 0%Q.
      repeat decide_atom. reflexivity.
    + rewrite rect_has_of_Z by lia.
      rewrite Er, Z.add_0_l.
      replace (W' - (W' - W))%Z with W by lia.
      rewrite (proj2 (Qltb_ge px (inject_Z W))) by lra.
      rewrite andb_false_r. reflexivity.
  - apply Qle_bool_gt in Epx.
    rewrite (proj2 (Qltb_lt px (inject_Z W))) in Hout by lra.
    cbn [andb] in Hout. apply Qltb_ge in Hout.
    assert (Lh : (H < H')%Z) by (rewrite Zlt_Qlt; lra).
    assert (Eb : bottom_ = (H' - H)%Z) by (unfold bottom_; lia).
    apply I2; [apply Z.ltb_lt; lia | | apply Hin1; congruence].
    rewrite rect_has_of_Z by lia.
    rewrite Eb, Zplus_minus, Z.add_0_l. change (inject_Z 0) with 0%Q.
    assert (Hx : (px < inject_Z (W' - right_))%Q).
    { destruct (Z.le_gt_cases W' W) as [L | L].
      - replace (W' - right_)%Z with W' by (unfold right_; lia). lra.
      - replace (W' - right_)%Z with W by (unfold right_; lia). lra. }
    repeat decide_atom. reflexivity.
Qed.

End ResizeExtras.

Lemma onResize_paints_new_area_once_witness :
  (exists this' calls,
     onResize flat_raster (bare_canvas 100 60 0 0)
       {| ResizeMessage.width := of_Z 120;
          ResizeMessage.height := of_Z 80 |}
     = Some (this', calls)
     /\ cover_count (painted_rects calls) 110 10 = 1%nat
     /\ cover_count (painted_rects calls) 10 70 = 1%nat
     /\ cover_count (painted_rects calls) 10 10 = 0%nat)
  /\ (exists this' calls,
        onResize flat_raster (bare_canvas 100 60 0 0)
          {| ResizeMessage.width := of_Z 80;
             ResizeMessage.height := of_Z 60 |}
        = Some (this', calls)
        /\ painted_rects calls = []).
Proof.
  split.
  - destruct (onResize_paints_new_area_once flat_raster
                (bare_canvas 100 60 0 0) 120 80 eq_refl
                ltac:(lia) ltac:(lia) ltac:(cbn; lia) ltac:(cbn; lia))
      as (this' & calls & Eq & Hw & Hh & Hc & _).
    exists this', calls. split; [exact Eq|].
    rewrite !Hc. unfold Canvas.inside. rewrite Hw, Hh.
    repeat split; reflexivity.
  - destruct (onResize_paints_new_area_once flat_raster
                (bare_canvas 100 60 0 0) 80 60 eq_refl
                ltac:(lia) ltac:(lia) ltac:(cbn; lia) ltac:(cbn; lia))
      as (this' & calls & Eq & _ & _ & _ & Hnone).
    exists this', calls. split; [exact Eq|].
    apply Hnone; cbn; lia.
Defined.

Lemma onResize_new_area_is_painted_witness :
  exists this' calls,
    onResize flat_raster (bare_canvas 100 60 0 0)
      {| ResizeMessage.width := of_Z 120; ResizeMessage.height := of_Z 80 |}
    = Some (this', calls)
    /\ Canvas.pixel_at (_canvas this') 110 10 = opaque 16777215
    /\ Canvas.pixel_at (_canvas this') 10 70 = opaque 16777215.
Proof.
  destruct (onResize_new_area_is_painted flat_raster
              (bare_canvas 100 60 0 0) 120 80 eq_refl
              ltac:(lia) ltac:(lia) ltac:(cbn; lia) ltac:(cbn; lia))
    as (this' & calls & Eq & Hw & Hh & Hp).
  exists this', calls. split; [exact Eq|].
  split.
  - rewrite Hp; [reflexivity | | reflexivity].
    unfold Canvas.inside. rewrite Hw, Hh. reflexivity.
  - rewrite Hp; [reflexivity | | reflexivity].
    unfold Canvas.inside. rewrite Hw, Hh. reflexivity.
Defined.

(** ** The renderer registry *)

Lemma drawGridLines_vertical_paints_no_cell
    (P : CellRenderer.ICellRenderer -> CellRenderer.ICellConfig -> Prop)
    (y1 y2 : number) (colSizes : list number) :
  forall x, painted_by P (_drawGridLines_vertical x y1 y2 colSizes).
Proof.
  induction colSizes as [|s colSizes IH]; intros x r config Hin;
    cbn [_drawGridLines_vertical In] in Hin; [destruct Hin|].
  destruct Hin as [Hin | [Hin | Hin]]; try discriminate.
  exact (IH _ r config Hin).
Qed.

Lemma drawGridLines_horizontal_paints_no_cell
    (P : CellRenderer.ICellRenderer -> CellRenderer.ICellConfig -> Prop)
    (x1 x2 : number) (rowSizes : list number) :
  forall y, painted_by P (_drawGridLines_horizontal y x1 x2 rowSizes).
Proof.
  induction rowSizes as [|s rowSizes IH]; intros y r config Hin;
    cbn [_drawGridLines_horizontal In] in Hin; [destruct Hin|].
  destruct Hin as [Hin | [Hin | Hin]]; try discriminate.
  exact (IH _ r config Hin).
Qed.

(** The renderer calls of a paint are those of its [_drawCells]. *)
Lemma paint_painted_by
    (P : CellRenderer.ICellRenderer -> CellRenderer.ICellConfig -> Prop)
    (this : GridCanvas) (rx ry rw rh : number) :
  (forall model rgn,
     _model this = Some model ->
     painted_by P (_drawCells model (_cellRenderers this) rgn)) ->
  painted_by P (_paint this rx ry rw rh).
Proof.
  intros H. unfold _paint. apply painted_by_app.
  { intros r config Hin. cbn [In] in Hin.
    destruct Hin as [Hin | [Hin | []]]; discriminate. }
  destruct (_model this) as [model|]; [|apply painted_by_nil].
  destruct (_rowHeader this) as [rowHeader|]; [|apply painted_by_nil].
  destruct (_columnHeader this) as [columnHeader|]; [|apply painted_by_nil].
  destruct (_paint_region this model rowHeader columnHeader rx ry rw rh)
    as [rgn|]; [|apply painted_by_nil].
  apply painted_by_app.
  { intros r config Hin. cbn [In] in Hin.
    destruct Hin as [Hin | [Hin | [Hin | [Hin | []]]]]; discriminate. }
  apply painted_by_app.
  { intros r config Hin. unfold _drawBackground in Hin. cbn [In] in Hin.
    destruct Hin as [Hin | [Hin | []]]; discriminate. }
  apply painted_by_app.
  { unfold _drawGridLines. apply painted_by_app.
    { intros r config Hin. cbn [In] in Hin.
      destruct Hin as [Hin | [Hin | [Hin | [Hin | []]]]]; discriminate. }
    apply painted_by_app; [apply drawGridLines_vertical_paints_no_cell|].
    apply painted_by_app; [apply drawGridLines_horizontal_paints_no_cell|].
    intros r config Hin. cbn [In] in Hin.
    destruct Hin as [Hin | []]; discriminate. }
  apply painted_by_app; [apply H; reflexivity|].
  intros r config Hin. cbn [In] in Hin.
  destruct Hin as [Hin | []]; discriminate.
Qed.

Lemma getCellRenderer_registry
    (this : GridCanvas) (name other : string)
    (renderer : option CellRenderer.ICellRenderer) :
  getCellRenderer (setCellRenderer this name renderer) other
  = if decide (other = name) then renderer
    else getCellRenderer this other.
Proof.
  unfold getCellRenderer, setCellRenderer.
  destruct renderer as [r|]; cbn [_cellRenderers with_cellRenderers];
    destruct (decide (other = name)) as [-> | Hne].
  - apply lookup_insert_eq.
  - apply lookup_insert_ne. congruence.
  - apply lookup_delete_eq.
  - apply lookup_delete_ne. congruence.
Qed.

(** X18. What [getCellRenderer] returns after [setCellRenderer]: for the
    name that was set, the renderer that was given, or nothing when
    [null] was given; for every other name, what it returned before. A
    new canvas has the simple renderer under [default] and nothing
    under any other name. *)
Theorem getCellRenderer_after_setCellRenderer
    (this : GridCanvas) (name other : string)
    (renderer : option CellRenderer.ICellRenderer) :
  getCellRenderer (setCellRenderer this name renderer) other
  = (if decide (other = name) then renderer
     else getCellRenderer this other)
  /\ getCellRenderer new_GridCanvas other
     = if decide (other = "default"%string)
       then Some CellRenderer.SimpleCellRenderer else None.
Proof.
  split; [apply getCellRenderer_registry|].
  - unfold getCellRenderer. cbn [_cellRenderers new_GridCanvas].
    destruct (decide (other = "default"%string)) as [-> | Hne].
    + apply lookup_singleton_eq.
    + apply lookup_singleton_ne. congruence.
Qed.

(** X19. The paint that follows [setCellRenderer] obeys it: a cell whose
    data names the renderer that was set is painted by the renderer that
    was given, and is not painted at all when [null] was given; a cell
    of another name is painted by the renderer that was registered
    under its name before. *)
Theorem setCellRenderer_governs_next_paint
    (this : GridCanvas) (model : DataModel.model) (name : string)
    (renderer : option CellRenderer.ICellRenderer)
    (rx ry rw rh : number)
    (r : CellRenderer.ICellRenderer) (config : CellRenderer.ICellConfig) :
  _model this = Some model ->
  In (renderer_paint r config)
     (_paint (setCellRenderer this name renderer) rx ry rw rh) ->
  let cell :=
    cell_name model (CellRenderer.row config) (CellRenderer.column config) in
  if decide (cell = name) then renderer = Some r
  else getCellRenderer this cell = Some r.
Proof.
  intros Hmodel Hin. cbn zeta.
  set (this' := setCellRenderer this name renderer) in *.
  assert (Hmodel' : _model this' = Some model)
    by (unfold this', setCellRenderer; destruct renderer; exact Hmodel).
  assert (Hr : _cellRenderers this'
               !! cell_name model (CellRenderer.row config)
                            (CellRenderer.column config) = Some r).
  { revert r config Hin. apply paint_painted_by.
    intros model' rgn Em r config Hin.
    rewrite Hmodel' in Em. injection Em as <-.
    destruct (drawCells_painted model (_cellRenderers this') rgn r config
                Hin)
      as (n & w & _ & _ & _ & k & h & _ & _ & _ & Hcol & _ & _ & _ & Hr
          & _).
    rewrite Hcol. exact Hr. }
  pose proof (getCellRenderer_registry this name
                (cell_name model (CellRenderer.row config)
                           (CellRenderer.column config))
                renderer) as Hreg.
  unfold getCellRenderer in Hreg. fold this' in Hreg.
  rewrite Hr in Hreg.
  destruct (decide _); symmetry; exact Hreg.
Qed.

Lemma setCellRenderer_governs_next_paint_witness :
  let cell := cell_name (named_model 3 2 (fun _ _ => "default"%string)) 0 0 in
  if decide (cell = "default"%string)
  then Some (CellRenderer.renderer_object 7)
       = Some (CellRenderer.renderer_object 7)
  else getCellRenderer grid_3x2 cell = Some (CellRenderer.renderer_object 7).
Proof.
  refine (setCellRenderer_governs_next_paint
            grid_3x2 (named_model 3 2 (fun _ _ => "default"%string))
            "default" (Some (CellRenderer.renderer_object 7))
            zero zero (of_Z 100) (of_Z 60)
            (CellRenderer.renderer_object 7)
            {| CellRenderer.x := zero;
               CellRenderer.y := zero;
               CellRenderer.width := of_Z 50;
               CellRenderer.height := of_Z 20;
               CellRenderer.row := 0;
               CellRenderer.column := 0;
               CellRenderer.value := numeric zero;
               CellRenderer.options := null |}
            eq_refl _).
  vm_compute. repeat (first [left; reflexivity | right]).
Defined.

(** ** What the handlers keep *)

Section Invariants.

Variable raster : list op -> Q -> Q -> pixel.

Lemma drawImage_dims (dst src c : Canvas.HTMLCanvasElement)
    (sx sy sw sh dx dy : number) :
  Canvas.drawImage dst src sx sy sw sh dx dy = Some c ->
  Canvas.width c = Canvas.width dst /\ Canvas.height c = Canvas.height dst.
Proof.
  unfold Canvas.drawImage.
  destruct ((Canvas.width src =? 0)%Z || (Canvas.height src =? 0)%Z);
    [discriminate|].
  destruct sx, sy, dx, dy; intros [= <-]; split; reflexivity.
Qed.

Lemma paint_if_keeps (cond : bool) (this : GridCanvas)
    (rx ry rw rh : number) :
  let this' := fst (paint_if raster cond this rx ry rw rh) in
  this' = with_canvas (_canvas this') this
  /\ Canvas.width (_canvas this') = Canvas.width (_canvas this)
  /\ Canvas.height (_canvas this') = Canvas.height (_canvas this).
Proof. destruct cond; cbn; destruct this; repeat split; reflexivity. Qed.

Lemma with_canvas_twice (c c' : Canvas.HTMLCanvasElement)
    (this : GridCanvas) :
  with_canvas c (with_canvas c' this) = with_canvas c this.
Proof. reflexivity. Qed.

(** The result of [onResize]: the state but for the two bitmaps, which
    have one size when the widget is visible. *)
Lemma onResize_result (this this' : GridCanvas) (msg : ResizeMessage.t)
    (calls : list call) :
  onResize raster this msg = Some (this', calls) ->
  this' = with_canvas (_canvas this') (with_buffer (_buffer this') this)
  /\ (isVisible this = true ->
      Canvas.width (_buffer this') = Canvas.width (_canvas this')
      /\ Canvas.height (_buffer this') = Canvas.height (_canvas this'))
  /\ (isVisible this = false -> this' = this /\ calls = []).
Proof.
  unfold onResize. destruct (isVisible this) eqn:Hvis; cbn [negb].
  2:{ intros [= <- <-]. split; [destruct this; reflexivity|].
      split; [discriminate | auto]. }
  cbv zeta.
  set (width := Math_round
                  (if strict_eq (ResizeMessage.width msg) (of_Z (-1))
                   then offsetWidth this else ResizeMessage.width msg)).
  set (height := Math_round
                   (if strict_eq (ResizeMessage.height msg) (of_Z (-1))
                    then offsetHeight this else ResizeMessage.height msg)).
  set (buffer1 := Canvas.set_height height
                    (Canvas.set_width width (_buffer this))).
  set (canvas1 := Canvas.set_height height
                    (Canvas.set_width width (_canvas this))).
  assert (Hsame : Canvas.width buffer1 = Canvas.width canvas1
                  /\ Canvas.height buffer1 = Canvas.height canvas1)
    by (split; reflexivity).
  generalize (gt (of_Z (Canvas.width (_canvas this))) zero
              && gt (of_Z (Canvas.height (_canvas this))) zero
              && gt width zero && gt height zero).
  intros needBlit.
  destruct (if needBlit
            then Canvas.drawImage_at buffer1 (_canvas this) zero zero
            else Some buffer1) as [buffer2|] eqn:Eb; [|discriminate].
  assert (Hb2 : Canvas.width buffer2 = Canvas.width buffer1
                /\ Canvas.height buffer2 = Canvas.height buffer1).
  { destruct needBlit; [|injection Eb as <-; split; reflexivity].
    exact (drawImage_dims _ _ _ _ _ _ _ _ _ Eb). }
  destruct (if needBlit
            then Canvas.drawImage_at canvas1 buffer2 zero zero
            else Some canvas1) as [canvas2|] eqn:Ec; [|discriminate].
  assert (Hc2 : Canvas.width canvas2 = Canvas.width canvas1
                /\ Canvas.height canvas2 = Canvas.height canvas1).
  { destruct needBlit; [|injection Ec as <-; split; reflexivity].
    exact (drawImage_dims _ _ _ _ _ _ _ _ _ Ec). }
  set (this0 := with_canvas canvas2 (with_buffer buffer2 this)).
  match goal with
  | |- context [paint_if raster ?c this0 ?a ?b ?cc ?d] =>
      pose proof (paint_if_keeps c this0 a b cc d) as K1;
      destruct (paint_if raster c this0 a b cc d) as [this1 p1]
  end.
  cbn [fst] in K1. cbn beta iota.
  match goal with
  | |- context [paint_if raster ?c this1 ?a ?b ?cc ?d] =>
      pose proof (paint_if_keeps c this1 a b cc d) as K2;
      destruct (paint_if raster c this1 a b cc d) as [this2 p2]
  end.
  cbn [fst] in K2. cbn beta iota.
  intros [= <- <-].
  destruct K1 as (T1 & W1 & H1), K2 as (T2 & W2 & H2).
  assert (T : this2 = with_canvas (_canvas this2) (with_buffer buffer2 this)).
  { rewrite T2 at 1. rewrite T1. reflexivity. }
  split.
  - rewrite T at 1. rewrite T. reflexivity.
  - split; [|discriminate]. intros _.
    rewrite T at 1 3. cbn [_buffer with_canvas with_buffer].
    rewrite W2, W1, H2, H1. cbn [_canvas this0 with_canvas].
    destruct Hsame, Hb2, Hc2. split; congruence.
Qed.

(** X20. Resize, update and fit requests change the two bitmaps and
    nothing else: the scroll position, the model, the headers, the
    renderers, the visibility and the measured size stay; an update
    request keeps the buffer as well. A resize of a hidden widget
    changes nothing and makes no call, whatever the message. *)
Theorem handlers_change_only_the_bitmaps (this : GridCanvas) :
  (forall msg this' calls,
     onResize raster this msg = Some (this', calls) ->
     this' = with_canvas (_canvas this') (with_buffer (_buffer this') this)
     /\ (isVisible this = false -> this' = this /\ calls = []))
  /\ (let this' := fst (onUpdateRequest raster this) in
      this' = with_canvas (_canvas this') this)
  /\ (let this' := fst (onFitRequest raster this) in
      this' = with_canvas (_canvas this') (with_buffer (_buffer this') this)).
Proof.
  assert (Hupdate : forall t,
            fst (onUpdateRequest raster t)
            = with_canvas (_canvas (fst (onUpdateRequest raster t))) t).
  { intros t. unfold onUpdateRequest.
    destruct (negb (isVisible t)); [destruct t; reflexivity|].
    destruct (strict_eq _ _ || strict_eq _ _); [destruct t; reflexivity|].
    reflexivity. }
  split; [|split].
  - intros msg this' calls Eq.
    destruct (onResize_result this this' msg calls Eq) as (T & _ & Hh).
    split; assumption.
  - apply Hupdate.
  - cbn zeta. unfold onFitRequest.
    destruct (negb (isVisible this)); [destruct this; reflexivity|].
    cbv zeta.
    set (b := Canvas.set_height _ (Canvas.set_width _ (_buffer this))).
    set (c := Canvas.set_height _ (Canvas.set_width _ (_canvas this))).
    set (t0 := with_canvas c (with_buffer b this)).
    pose proof (Hupdate t0) as Hu.
    set (u := fst (onUpdateRequest raster t0)) in *.
    assert (Hb : _buffer u = b) by (rewrite Hu; reflexivity).
    rewrite Hb. rewrite Hu at 1. reflexivity.
Qed.

(** X21. The buffer has the size of the canvas in a new [GridCanvas],
    and every operation keeps it so: a scroll, a resize, an update
    request, a fit request and the registration of a renderer. *)
Theorem buffer_is_sized_with_canvas :
  sized_together new_GridCanvas
  /\ (forall this x y this' calls,
        scrollTo raster this x y = Some (this', calls) ->
        sized_together this -> sized_together this')
  /\ (forall this msg this' calls,
        onResize raster this msg = Some (this', calls) ->
        sized_together this -> sized_together this')
  /\ (forall this,
        sized_together this ->
        sized_together (fst (onUpdateRequest raster this)))
  /\ (forall this,
        sized_together this ->
        sized_together (fst (onFitRequest raster this)))
  /\ (forall this name renderer,
        sized_together this ->
        sized_together (setCellRenderer this name renderer)).
Proof.
  assert (Hupdate : forall t,
            sized_together t ->
            sized_together (fst (onUpdateRequest raster t))).
  { intros t Ht. unfold onUpdateRequest.
    destruct (negb (isVisible t)); [exact Ht|].
    destruct (strict_eq _ _ || strict_eq _ _); [exact Ht|].
    exact Ht. }
  split; [split; reflexivity|].
  split.
  { intros this x y this' calls Eq Ht.
    destruct (scrollTo_result raster this x y)
      as (this'' & calls'' & Eq' & T & _ & _ & Hw & Hh & _).
    rewrite Eq in Eq'. injection Eq' as <- <-.
    unfold sized_together. rewrite Hw, Hh. rewrite T.
    cbn [_buffer with_canvas with_scroll]. exact Ht. }
  split.
  { intros this msg this' calls Eq Ht.
    destruct (onResize_result this this' msg calls Eq) as (_ & Hv & Hh).
    destruct (isVisible this).
    - exact (Hv eq_refl).
    - destruct (Hh eq_refl) as [-> _]. exact Ht. }
  split; [exact Hupdate|].
  split.
  { intros this Ht. unfold onFitRequest.
    destruct (negb (isVisible this)); [exact Ht|].
    cbv zeta. apply Hupdate. split; reflexivity. }
  intros this name [r|] Ht; exact Ht.
Qed.

End Invariants.

Lemma handlers_change_only_the_bitmaps_witness :
  exists this' calls,
    onResize flat_raster (bare_canvas 100 60 5 7)
      {| ResizeMessage.width := of_Z 120; ResizeMessage.height := of_Z 80 |}
    = Some (this', calls)
    /\ _scrollX this' = of_Z 5 /\ _scrollY this' = of_Z 7
    /\ _cellRenderers this' = default_renderers.
Proof.
  destruct (onResize_visible flat_raster (bare_canvas 100 60 5 7) 120 80
              eq_refl ltac:(lia) ltac:(lia) ltac:(cbn; lia) ltac:(cbn; lia))
    as (this' & ops1 & ops2 & Eq & _).
  eexists _, _. split; [exact Eq|].
  destruct (proj1 (handlers_change_only_the_bitmaps
                     flat_raster (bare_canvas 100 60 5 7)) _ _ _ Eq)
    as [T _].
  rewrite T. repeat split; reflexivity.
Defined.

Lemma buffer_is_sized_with_canvas_witness :
  exists this' calls,
    onResize flat_raster (bare_canvas 100 60 5 7)
      {| ResizeMessage.width := of_Z 120; ResizeMessage.height := of_Z 80 |}
    = Some (this', calls)
    /\ sized_together this'.
Proof.
  destruct (onResize_visible flat_raster (bare_canvas 100 60 5 7) 120 80
              eq_refl ltac:(lia) ltac:(lia) ltac:(cbn; lia) ltac:(cbn; lia))
    as (this' & ops1 & ops2 & Eq & _).
  eexists _, _. split; [exact Eq|].
  refine (proj1 (proj2 (proj2 (buffer_is_sized_with_canvas flat_raster)))
            _ _ _ _ Eq _).
  split; reflexivity.
Defined.

(** ** Messages without a size, and scrolls by nothing *)

Section Requests.

Variable raster : list op -> Q -> Q -> pixel.

(** X22. A resize message whose width is [-1] stands for the measured
    width of the node, and one whose height is [-1] for the measured
    height, each on its own: the handler does what it does for the
    message that carries the measured value. *)
Theorem onResize_unknown_size_measures_node
    (this : GridCanvas) (w h : number) :
  onResize raster this
    {| ResizeMessage.width := of_Z (-1); ResizeMessage.height := h |}
  = onResize raster this
      {| ResizeMessage.width := offsetWidth this;
         ResizeMessage.height := h |}
  /\ onResize raster this
       {| ResizeMessage.width := w; ResizeMessage.height := of_Z (-1) |}
     = onResize raster this
         {| ResizeMessage.width := w;
            ResizeMessage.height := offsetHeight this |}.
Proof.
  unfold onResize. cbn [ResizeMessage.width ResizeMessage.height].
  change (strict_eq (of_Z (-1)) (of_Z (-1))) with true. cbn iota.
  split.
  - destruct (strict_eq (offsetWidth this) (of_Z (-1))); reflexivity.
  - destruct (strict_eq (offsetHeight this) (of_Z (-1))); reflexivity.
Qed.

(** X23. [scrollBy(0, 0)] at a finite scroll position does nothing: the
    state is kept as it is and no call is made, visible or not. *)
Theorem scrollBy_zero_is_no_op (this : GridCanvas) (qx qy : Q) :
  _scrollX this = Fin qx -> _scrollY this = Fin qy ->
  coerced (Fin qx) -> coerced (Fin qy) ->
  scrollBy raster this zero zero = Some (this, []).
Proof.
  intros Hx Hy Cx Cy. unfold scrollBy, scrollTo. rewrite Hx, Hy.
  assert (Hfix : forall q, coerced (Fin q) ->
            strict_eq
              (sub (Math_max zero (Math_round (add (Fin q) zero))) (Fin q))
              zero = true).
  { intros q Cq.
    assert (Ha : same (add (Fin q) zero) (Fin q))
      by (apply same_add_zero; reflexivity).
    pose proof (coerced_fixed _ (coerced_same _ _ Ha Cq)) as Hm.
    pose proof (same_trans _ _ _ Hm Ha) as Hs.
    destruct (Math_max_round_Fin (q + inject_Z 0)) as (p & Ep).
    change (add (Fin q) zero) with (Fin (q + inject_Z 0)) in *.
    rewrite Ep in *. apply same_strict_eq_sub, same_sym, Hs. }
  cbv zeta. rewrite (Hfix qx Cx), (Hfix qy Cy). reflexivity.
Qed.

End Requests.

Lemma scrollBy_zero_is_no_op_witness :
  scrollBy flat_raster (bare_canvas 100 60 5 7) zero zero
  = Some (bare_canvas 100 60 5 7, []).
Proof.
  apply (scrollBy_zero_is_no_op flat_raster (bare_canvas 100 60 5 7)
           (inject_Z 5) (inject_Z 7) eq_refl eq_refl).
  - exists 5%Z. split; [lia | reflexivity].
  - exists 7%Z. split; [lia | reflexivity].
Defined.

(** ** The region of a paint *)

Lemma le_sub_of_le_add (p : Q) (r s : number) :
  le (Fin p) (add r s) = true -> le (sub (Fin p) s) r = true.
Proof.
  destruct r as [| | |r], s as [| | |s]; cbn; try discriminate;
    try reflexivity.
  intros H. apply orb_true_iff in H. apply orb_true_iff.
  destruct H as [H | H].
  - left. apply Qltb_lt in H. apply Qltb_lt. lra.
  - right. apply Qeq_bool_iff in H. apply Qeq_bool_iff. lra.
Qed.

(** X24. The region of a paint starts at the section the header finds at
    the origin of the dirty rect, in scrolled coordinates; when the
    header places that section at or before that point, the region
    starts at or before the origin of the dirty rect on the canvas, on
    both axes, so that the cells drawn reach the top-left corner of the
    dirty rect. *)
Theorem paint_region_starts_at_or_before_dirty_rect
    (this : GridCanvas) (model : DataModel.model)
    (rowHeader columnHeader : GridHeader.header)
    (rx ry rw rh : number) (rgn : Private.IRegion) (px py : Q) :
  _paint_region this model rowHeader columnHeader rx ry rw rh = Some rgn ->
  GridHeader.sectionPosition columnHeader (Private.firstColumn rgn)
  = Fin px ->
  GridHeader.sectionPosition rowHeader (Private.firstRow rgn) = Fin py ->
  le (Fin px) (add rx (_scrollX this)) = true ->
  le (Fin py) (add ry (_scrollY this)) = true ->
  Private.firstColumn rgn
  = GridHeader.sectionAt columnHeader (add rx (_scrollX this))
  /\ Private.firstRow rgn
     = GridHeader.sectionAt rowHeader (add ry (_scrollY this))
  /\ (0 <= Private.firstColumn rgn)%Z /\ (0 <= Private.firstRow rgn)%Z
  /\ le (Private.x rgn) rx = true
  /\ le (Private.y rgn) ry = true.
Proof.
  unfold _paint_region.
  destruct ((DataModel.rowCount model =? 0)%Z
            || (DataModel.columnCount model =? 0)%Z); [discriminate|].
  destruct ((GridHeader.sectionAt columnHeader (add rx (_scrollX this))
             <? 0)%Z
            || (GridHeader.sectionAt rowHeader (add ry (_scrollY this))
                <? 0)%Z) eqn:E; [discriminate|].
  apply orb_false_iff in E as [E1 E2]. apply Z.ltb_ge in E1, E2.
  cbv zeta. intros [= <-].
  cbn [Private.firstColumn Private.firstRow Private.x Private.y].
  intros Hpx Hpy Lx Ly. rewrite Hpx, Hpy.
  repeat (split; [first [reflexivity | assumption]|]).
  split; apply le_sub_of_le_add; assumption.
Qed.

Lemma paint_region_starts_at_or_before_dirty_rect_witness :
  exists rgn,
    _paint_region grid_3x2 (named_model 3 2 (fun _ _ => "default"%string))
      (uniform_header 20 3) (uniform_header 50 2)
      (of_Z 60) (of_Z 25) (of_Z 10) (of_Z 10) = Some rgn
    /\ Private.firstColumn rgn = 1%Z /\ Private.firstRow rgn = 1%Z
    /\ le (Private.x rgn) (of_Z 60) = true
    /\ le (Private.y rgn) (of_Z 25) = true.
Proof.
  assert (E : exists rgn,
            _paint_region grid_3x2
              (named_model 3 2 (fun _ _ => "default"%string))
              (uniform_header 20 3) (uniform_header 50 2)
              (of_Z 60) (of_Z 25) (of_Z 10) (of_Z 10) = Some rgn
            /\ Private.firstColumn rgn = 1%Z
            /\ Private.firstRow rgn = 1%Z).
  { vm_compute. eexists. repeat split. }
  destruct E as (rgn & E & Ec & Er).
  exists rgn. split; [exact E|]. split; [exact Ec|]. split; [exact Er|].
  destruct (paint_region_starts_at_or_before_dirty_rect
              grid_3x2 _ _ _ _ _ _ _ rgn (inject_Z 50) (inject_Z 20) E)
    as (_ & _ & _ & _ & Hx & Hy).
  - rewrite Ec. reflexivity.
  - rewrite Er. reflexivity.
  - reflexivity.
  - reflexivity.
  - split; assumption.
Defined.

(** ** The colour cycle *)


